(** * Slice value engine: formulas, update engine, composite aggregation
      and temporal schedulers.

    A shallow embedding of the slice services of the backend
    (sequence-formula.service.ts, slice.service.ts,
    composite-slice.service.ts, utils/time.utils.ts and the schedulers),
    with the properties of the design document proved or refuted on it.

    Modelling conventions.
    - The code is read twice.  In the exact reading a JavaScript [number]
      that the database stores in an INTEGER column (indices, values,
      weights, deltas, minutes) is a [Z] and a [number] that can be
      fractional (formula parameters, decay rates, elapsed periods) is an
      exact rational [Q]: this is the reading of the update engine, the
      searches, the schedulers and the bounds, whose properties do not
      turn on the last bit of a product.  In the reading of the module
      [Double] a [number] is the IEEE-754 binary64 it is on the platform,
      with rounding to nearest, the infinities and NaN: this is the
      reading of what [calculateValue] and [calculateCompositeValue]
      return, where rounding and overflow decide.
    - [Math.sqrt], [Math.log] and [Math.exp] belong to the platform, not
      to the repository: they are the fields of the class [MathLib] of
      either reading and every definition is parametric in them.
      [Math.pow] is a field as well in the reading of [Double]; in the
      exact reading it is only ever applied to an integer index that was
      clamped to be non-negative, where it is the exact rational power.
    - A [Date] is its epoch time in milliseconds.
    - Exceptions are values of [Result]; the services run in the monad
      [M] that threads the database and the clock.  Every database write
      goes through [persist], which can fail with a persistence fault;
      the reads always answer. *)

From Stdlib Require Import ZArith QArith Qround Qabs Qpower Qminmax Lia Ascii String SpecFloat.
From stdpp Require Import gmap strings list pretty.

Local Open Scope string_scope.
Local Open Scope Z_scope.

(** ** Exceptions *)

Inductive Error : Type :=
| JsError (msg : string)              (* throw new Error(...) *)
| TypeError (msg : string)            (* property access on null *)
| NotFoundException (msg : string)
| BadRequestException (msg : string)
| RecordNotFound                      (* update of a missing row *)
| PersistenceFault                    (* the store rejects a write *)
| LoopBudget.                         (* never raised, see [binarySearchIndex_budget] *)

Inductive Result (A : Type) : Type :=
| Ok (a : A)
| Throw (e : Error).
Arguments Ok {A} a.
Arguments Throw {A} e.

Definition rbind {A B} (r : Result A) (f : A -> Result B) : Result B :=
  match r with
  | Ok a => f a
  | Throw e => Throw e
  end.

Definition try_catch {A} (body : Result A) (handler : Error -> Result A) : Result A :=
  match body with
  | Ok a => Ok a
  | Throw e => handler e
  end.

Notation "'let?' x ':=' e 'in' k" := (rbind e (fun x => k))
  (at level 10, x name, e at level 100, k at level 200).

(** ** Sequence formula engine (sequence-formula.service.ts) *)

Record Params : Type := mkParams {
  multiplier : option Q;
  base : option Q;
  offset : option Q;
  max : option Q;
  k : option Q;
  inflection : option Q
}.

(** [config.params] is absent, JSON null, or an object. *)
Inductive ParamsRef : Type :=
| ParamsUndefined
| ParamsNull
| ParamsObj (p : Params).

Record SliceSequenceConfig : Type := mkConfig {
  type : string;
  params : ParamsRef
}.

Definition emptyParams : Params := mkParams None None None None None None.

(** [params?.field]: undefined on null or undefined. *)
Definition optField (p : ParamsRef) (f : Params -> option Q) : option Q :=
  match p with
  | ParamsObj o => f o
  | _ => None
  end.

(** [x ?? d] *)
Definition nullish {A} (o : option A) (d : A) : A :=
  match o with
  | Some v => v
  | None => d
  end.

(** The destructuring default [params = {}] replaces undefined only. *)
Definition defaultParams (p : ParamsRef) : ParamsRef :=
  match p with
  | ParamsUndefined => ParamsObj emptyParams
  | _ => p
  end.

Class MathLib : Type := {
  Math_sqrt : Q -> Q;
  Math_log : Q -> Q;
  Math_exp : Q -> Q
}.

Definition Math_floor (x : Q) : Z := Qfloor x.

(** [Math.pow base index] at a non-negative integer index. *)
Definition Math_pow (b : Q) (n : Z) : Q := (b ^ n)%Q.

Definition Qltb (x y : Q) : bool := negb (Qle_bool y x).

Section Formulas.
Context {ML : MathLib}.

Definition calculateLinear (index : Z) (params : ParamsRef) : Q :=
  let multiplier := nullish (optField params multiplier) 1%Q in
  let offset := nullish (optField params offset) 0%Q in
  (multiplier * inject_Z index + offset)%Q.

Definition calculateExponential (index : Z) (params : ParamsRef) : Result Q :=
  let base := nullish (optField params base) 2%Q in
  if Qle_bool base 0 then Throw (JsError "Exponential base must be positive")
  else Ok (Math_pow base index).

Definition calculateSqrt (index : Z) (params : ParamsRef) : Q :=
  let multiplier := nullish (optField params multiplier) 1%Q in
  let offset := nullish (optField params offset) 0%Q in
  (multiplier * Math_sqrt (inject_Z index) + offset)%Q.

Definition calculateLogarithmic (index : Z) (params : ParamsRef) : Q :=
  let multiplier := nullish (optField params multiplier) 10%Q in
  let offset := nullish (optField params offset) 0%Q in
  (multiplier * Math_log (inject_Z (index + 1)) + offset)%Q.

Definition calculateSigmoid (index : Z) (params : ParamsRef) : Q :=
  let max := nullish (optField params max) 100%Q in
  let k := nullish (optField params k) (2 # 10)%Q in
  let inflection := nullish (optField params inflection) 15%Q in
  (max / (1 + Math_exp (- k * (inject_Z index - inflection))))%Q.

(** The body of the [try] block of [calculateValue]. *)
Definition calculateValue_try (type : string) (params : ParamsRef) (index : Z) : Result Z :=
  let? value :=
    if String.eqb type "linear" then Ok (calculateLinear index params)
    else if String.eqb type "exponential" then calculateExponential index params
    else if String.eqb type "sqrt" then Ok (calculateSqrt index params)
    else if String.eqb type "logarithmic" then Ok (calculateLogarithmic index params)
    else if String.eqb type "sigmoid" then Ok (calculateSigmoid index params)
    else Throw (JsError (String.append "Unknown sequence type: " type)) in
  Ok (Math_floor value).

Definition calculateValue (config : SliceSequenceConfig) (index : Z) : Result Z :=
  let index := if index <? 0 then 0 else index in
  let type := type config in
  let params := defaultParams (params config) in
  try_catch (calculateValue_try type params index) (fun _ => Ok 0).

(** [params.field] without the optional chaining: on null the TypeError
    of the engine, which names the field. *)
Definition strictField (p : ParamsRef) (f : Params -> option Q) (name : string)
    : Result (option Q) :=
  match p with
  | ParamsObj o => Ok (f o)
  | ParamsUndefined => Ok None
  | ParamsNull =>
      Throw (TypeError
               (String.append "Cannot read properties of null (reading '"
                  (String.append name "')")))
  end.

Definition isMonotonicIncreasing (config : SliceSequenceConfig) : Result bool :=
  let type := type config in
  let params := defaultParams (params config) in
  if String.eqb type "linear" then
    let? m := strictField params multiplier "multiplier" in Ok (Qle_bool 0 (nullish m 1%Q))
  else if String.eqb type "exponential" then
    let? b := strictField params base "base" in Ok (Qle_bool 1 (nullish b 2%Q))
  else if String.eqb type "sqrt" then
    let? m := strictField params multiplier "multiplier" in Ok (Qle_bool 0 (nullish m 1%Q))
  else if String.eqb type "logarithmic" then
    let? m := strictField params multiplier "multiplier" in Ok (Qle_bool 0 (nullish m 10%Q))
  else if String.eqb type "sigmoid" then Ok true
  else Ok false.

(** The [while (left <= right)] loop of [binarySearchIndex].  The range
    [left..right] shrinks at every turn, so [fuel] bounds the number of
    turns; [LoopBudget] marks an exhausted budget. *)
Fixpoint binarySearchLoop (fuel : nat) (config : SliceSequenceConfig) (targetValue : Z)
    (left right closestIndex closestDiff : Z) : Result Z :=
  match fuel with
  | O => Throw LoopBudget
  | S fuel' =>
      if left <=? right then
        let mid := (left + right) / 2 in
        let? midValue := calculateValue config mid in
        let diff := Z.abs (midValue - targetValue) in
        let closestDiff' := if diff <? closestDiff then diff else closestDiff in
        let closestIndex' := if diff <? closestDiff then mid else closestIndex in
        if midValue <? targetValue then
          binarySearchLoop fuel' config targetValue (mid + 1) right closestIndex' closestDiff'
        else if midValue >? targetValue then
          binarySearchLoop fuel' config targetValue left (mid - 1) closestIndex' closestDiff'
        else Ok mid
      else Ok closestIndex
  end.

Definition binarySearchIndex (config : SliceSequenceConfig) (targetValue : Z)
    (minIndex maxIndex : Z) : Result Z :=
  let left := minIndex in
  let right := maxIndex in
  let closestIndex := left in
  let? v := calculateValue config left in
  let closestDiff := Z.abs (v - targetValue) in
  binarySearchLoop (S (Z.to_nat (right - left + 1))) config targetValue
    left right closestIndex closestDiff.

(** The [for (let i = 1; i <= maxIndex; i++)] loop of [linearSearchIndex];
    [n] counts the turns that remain. *)
Fixpoint linearSearchLoop (n : nat) (config : SliceSequenceConfig) (targetValue : Z)
    (i closestIndex closestDiff : Z) : Result Z :=
  match n with
  | O => Ok closestIndex
  | S n' =>
      let? value := calculateValue config i in
      let diff := Z.abs (value - targetValue) in
      if diff <? closestDiff then
        linearSearchLoop n' config targetValue (i + 1) i diff
      else
        linearSearchLoop n' config targetValue (i + 1) closestIndex closestDiff
  end.

Definition linearSearchIndex (config : SliceSequenceConfig) (targetValue : Z)
    (maxIndex : Z) : Result Z :=
  let closestIndex := 0 in
  let? v := calculateValue config 0 in
  let closestDiff := Z.abs (v - targetValue) in
  linearSearchLoop (Z.to_nat maxIndex) config targetValue 1 closestIndex closestDiff.

(** [maxIndex: number = 1000]: [None] is a call without the argument. *)
Definition findClosestIndex (config : SliceSequenceConfig) (targetValue : Z)
    (maxIndex : option Z) : Result Z :=
  let maxIndex := nullish maxIndex 1000 in
  if targetValue <=? 0 then Ok 0
  else
    let? mono := isMonotonicIncreasing config in
    if mono then binarySearchIndex config targetValue 0 maxIndex
    else linearSearchIndex config targetValue maxIndex.

End Formulas.

(** ** Data model (the Slice tables of the schema)

    The nullable columns [penaltyInterval], [penaltyAmount] and
    [maxInterval] are read as the numbers a scheduled or continuous slice
    carries; a division by a null or zero interval (an infinity in
    JavaScript) is outside the model. *)

Record Slice : Type := mkSlice {
  id : string;
  slug : string;
  increaseType : string;
  increaseParams : ParamsRef;
  decreaseType : string;
  decreaseParams : ParamsRef;
  currentIndex : Z;
  currentValue : Z;
  temporalType : option string;
  expectedTime : option string;      (* "HH:MM" *)
  gracePeriod : option Z;
  penaltyInterval : Z;
  penaltyAmount : Z;
  maxInterval : Z;
  resetDaily : bool;
  isComposite : bool
}.

Record SliceComponent : Type := mkComponent {
  c_id : string;
  c_sliceId : string;
  key : string;
  weight : Z;
  c_currentValue : Z;
  maxValue : Z;
  decayType : string;
  decayRate : Q;
  lastChecked : option Z
}.

Record SliceUpdate : Type := mkSliceUpdate {
  u_sliceId : string;
  delta : Z;
  deltaType : string;
  valueBefore : Z;
  valueAfter : Z;
  indexBefore : Z;
  indexAfter : Z;
  date : Z;
  notes : option string;
  automatic : bool
}.

Record SliceComponentUpdate : Type := mkComponentUpdate {
  componentId : string;
  cu_valueBefore : Z;
  cu_valueAfter : Z;
  cu_date : Z;
  cu_notes : option string
}.

(** The database, the clock ([new Date()]), the offset of the local time
    zone in milliseconds, and the number of writes the store still
    accepts before it starts to fail ([None]: it never fails). *)
Record World : Type := mkWorld {
  slices : gmap string Slice;
  components : list SliceComponent;
  sliceUpdates : list SliceUpdate;
  componentUpdates : list SliceComponentUpdate;
  clock : Z;
  tzOffset : Z;
  faultAfter : option nat
}.

Definition setSlices (m : gmap string Slice) (w : World) : World :=
  mkWorld m (components w) (sliceUpdates w) (componentUpdates w)
    (clock w) (tzOffset w) (faultAfter w).

Definition setComponents (l : list SliceComponent) (w : World) : World :=
  mkWorld (slices w) l (sliceUpdates w) (componentUpdates w)
    (clock w) (tzOffset w) (faultAfter w).

Definition setSliceUpdates (l : list SliceUpdate) (w : World) : World :=
  mkWorld (slices w) (components w) l (componentUpdates w)
    (clock w) (tzOffset w) (faultAfter w).

Definition setComponentUpdates (l : list SliceComponentUpdate) (w : World) : World :=
  mkWorld (slices w) (components w) (sliceUpdates w) l
    (clock w) (tzOffset w) (faultAfter w).

Definition setClock (t : Z) (w : World) : World :=
  mkWorld (slices w) (components w) (sliceUpdates w) (componentUpdates w)
    t (tzOffset w) (faultAfter w).

Definition setFaultAfter (f : option nat) (w : World) : World :=
  mkWorld (slices w) (components w) (sliceUpdates w) (componentUpdates w)
    (clock w) (tzOffset w) f.

Definition setIndexValue (i v : Z) (s : Slice) : Slice :=
  mkSlice (id s) (slug s) (increaseType s) (increaseParams s) (decreaseType s)
    (decreaseParams s) i v (temporalType s) (expectedTime s) (gracePeriod s)
    (penaltyInterval s) (penaltyAmount s) (maxInterval s) (resetDaily s)
    (isComposite s).

Definition setValue (v : Z) (s : Slice) : Slice :=
  setIndexValue (currentIndex s) v s.

Definition setComponentValue (v : Z) (c : SliceComponent) : SliceComponent :=
  mkComponent (c_id c) (c_sliceId c) (key c) (weight c) v (maxValue c)
    (decayType c) (decayRate c) (lastChecked c).

Definition setComponentChecked (v : Z) (t : Z) (c : SliceComponent) : SliceComponent :=
  mkComponent (c_id c) (c_sliceId c) (key c) (weight c) v (maxValue c)
    (decayType c) (decayRate c) (Some t).

(** ** The service monad *)

Definition M (A : Type) : Type := World -> Result A * World.

Definition ret {A} (a : A) : M A := fun w => (Ok a, w).

Definition throw {A} (e : Error) : M A := fun w => (Throw e, w).

Definition bind {A B} (m : M A) (f : A -> M B) : M B :=
  fun w =>
    match m w with
    | (Ok a, w') => f a w'
    | (Throw e, w') => (Throw e, w')
    end.

Definition lift {A} (r : Result A) : M A := fun w => (r, w).

Definition gets {A} (f : World -> A) : M A := fun w => (Ok (f w), w).

(** [try { body } catch (error) { log }] around a statement. *)
Definition catchLog (m : M unit) : M unit :=
  fun w =>
    match m w with
    | (Ok _, w') => (Ok tt, w')
    | (Throw _, w') => (Ok tt, w')
    end.

Notation "'let!' x ':=' e 'in' k" := (bind e (fun x => k))
  (at level 10, x name, e at level 100, k at level 200).
Notation "'let!' ' p ':=' e 'in' k" := (bind e (fun p => k))
  (at level 10, p pattern, e at level 100, k at level 200, only parsing).

(** [for (const x of xs) { await body(x) }] *)
Fixpoint forEach {A} (xs : list A) (body : A -> M unit) : M unit :=
  match xs with
  | [] => ret tt
  | x :: rest => let! _ := body x in forEach rest body
  end.

(** One write of the persistence layer. *)
Definition persist (f : World -> World) : M unit :=
  fun w =>
    match faultAfter w with
    | Some O => (Throw PersistenceFault, w)
    | Some (S n) => (Ok tt, setFaultAfter (Some n) (f w))
    | None => (Ok tt, f w)
    end.

(** *** The queries and writes the services use *)

Definition slice_findUnique (sliceId : string) : M (option Slice) :=
  gets (fun w => slices w !! sliceId).

Definition slice_findMany (p : Slice -> bool) : M (list Slice) :=
  gets (fun w => filter (fun s => p s = true) (map snd (map_to_list (slices w)))).

Definition slice_update (sliceId : string) (f : Slice -> Slice) : M Slice :=
  let! found := slice_findUnique sliceId in
  match found with
  | None => throw RecordNotFound
  | Some s =>
      let! _ := persist (fun w => setSlices (<[sliceId := f s]> (slices w)) w) in
      ret (f s)
  end.

(** [sliceUpdate.create]: the [date] column defaults to the current time. *)
Definition sliceUpdate_create (row : Z -> SliceUpdate) : M unit :=
  persist (fun w => setSliceUpdates (sliceUpdates w ++ [row (clock w)]) w).

Definition sliceUpdate_count (p : SliceUpdate -> bool) : M Z :=
  gets (fun w => Z.of_nat (length (filter (fun u => p u = true) (sliceUpdates w)))).

Definition sliceComponent_findMany (sliceId : string) : M (list SliceComponent) :=
  gets (fun w => filter (fun c => c_sliceId c = sliceId) (components w)).

Definition sliceComponent_update (cid : string) (f : SliceComponent -> SliceComponent) : M unit :=
  let! rows := gets components in
  if existsb (fun c => String.eqb (c_id c) cid) rows then
    persist (fun w =>
      setComponents
        (map (fun c => if String.eqb (c_id c) cid then f c else c) (components w)) w)
  else throw RecordNotFound.

Definition sliceComponentUpdate_create (row : Z -> SliceComponentUpdate) : M unit :=
  persist (fun w => setComponentUpdates (componentUpdates w ++ [row (clock w)]) w).

(** [updates: { orderBy: { date: 'desc' }, take: 1 }]: the update of the
    slice with the greatest date (the later row on equal dates). *)
Definition laterOf (best : option SliceUpdate) (u : SliceUpdate) : option SliceUpdate :=
  match best with
  | None => Some u
  | Some b => if date b <=? date u then Some u else Some b
  end.

Definition latestUpdate (sliceId : string) (rows : list SliceUpdate) : option SliceUpdate :=
  fold_left laterOf (filter (fun u => u_sliceId u = sliceId) rows) None.

(** ** Time utilities (utils/time.utils.ts) *)

Definition msPerMinute : Z := 1000 * 60.
Definition msPerDay : Z := 1000 * 60 * 60 * 24.

Definition minutesElapsed (from to : Z) : Z := (to - from) / msPerMinute.

Definition hoursElapsed (from to : Z) : Q := (inject_Z (minutesElapsed from to) / 60)%Q.

Definition daysElapsed (from to : Z) : Q := (hoursElapsed from to / 24)%Q.

Definition weeksElapsed (from to : Z) : Q := (daysElapsed from to / 7)%Q.

(** [setHours(0, 0, 0, 0)] in the local time zone. *)
Definition getStartOfDay (tz : Z) (d : Z) : Z := d - (d + tz) mod msPerDay.

Definition isSameDay (tz : Z) (date1 date2 : Z) : bool :=
  (date1 + tz) / msPerDay =? (date2 + tz) / msPerDay.

(** [Number(s)] on the strings an "HH:MM" time is made of: a string of
    decimal digits is its value and the empty string is 0; any other
    string is read as NaN ([None]). *)
Definition digitValue (c : Ascii.ascii) : option Z :=
  let n := Z.of_nat (Ascii.nat_of_ascii c) in
  if (48 <=? n) && (n <=? 57) then Some (n - 48) else None.

Fixpoint numberOfDigits (acc : Z) (s : string) : option Z :=
  match s with
  | EmptyString => Some acc
  | String c rest =>
      match digitValue c with
      | Some d => numberOfDigits (10 * acc + d) rest
      | None => None
      end
  end.

Definition Number (s : string) : option Z := numberOfDigits 0 s.

(** [s.split(':')] *)
Fixpoint splitColon (cur : string) (s : string) : list string :=
  match s with
  | EmptyString => [cur]
  | String c rest =>
      if Ascii.eqb c ":"%char then cur :: splitColon EmptyString rest
      else splitColon (String.append cur (String c EmptyString)) rest
  end.

(** [const [hours, minutes] = timeString.split(':').map(Number)] *)
Definition parseTime (timeString : string) : option (Z * Z) :=
  match splitColon EmptyString timeString with
  | h :: m :: _ =>
      match Number h, Number m with
      | Some hours, Some minutes => Some (hours, minutes)
      | _, _ => None
      end
  | _ => None
  end.

(** [isPastScheduledTime]: an unreadable time gives an invalid date, for
    which [now > deadlineTime] is false. *)
Definition isPastScheduledTime (timeString : string) (gracePeriodMinutes : Z)
    : M (bool * Z) :=
  let! now := gets clock in
  let! tz := gets tzOffset in
  match parseTime timeString with
  | None => ret (false, 0)
  | Some (hours, minutes) =>
      let expectedTime := getStartOfDay tz now + hours * 3600000 + minutes * 60000 in
      let deadlineTime := expectedTime + gracePeriodMinutes * 60 * 1000 in
      let minutesLate := minutesElapsed deadlineTime now in
      ret (now >? deadlineTime, Z.max 0 minutesLate)
  end.

(** ** Slice update engine (slice.service.ts) *)

Definition MAX_INDEX : Z := 10000.

(** Template literals: [str] concatenates, [num] prints an integer. *)
Definition str (parts : list string) : string := fold_right String.append EmptyString parts.
Definition num (z : Z) : string := pretty z.

Section Services.
Context {ML : MathLib}.

Definition findOne (sliceId : string) : M Slice :=
  let! slice := slice_findUnique sliceId in
  match slice with
  | None => throw (NotFoundException (str ["Slice with ID "; sliceId; " not found"]))
  | Some s => ret s
  end.

Definition selectConfig (isIncrease : bool) (slice : Slice) : SliceSequenceConfig :=
  mkConfig (if isIncrease then increaseType slice else decreaseType slice)
           (if isIncrease then increaseParams slice else decreaseParams slice).

Definition updateBySteps (sliceId : string) (steps : Z) (notes : option string)
    (automatic : option bool) : M Slice :=
  let automatic := nullish automatic false in
  let! slice := findOne sliceId in
  if isComposite slice then
    throw (BadRequestException
      "Cannot update composite slices with steps. Use component updates instead.")
  else
    let oldIndex := currentIndex slice in
    let oldValue := currentValue slice in
    let newIndex := oldIndex + steps in
    let newIndex := Z.max 0 (Z.min newIndex MAX_INDEX) in
    let isIncrease := steps >=? 0 in
    let config := selectConfig isIncrease slice in
    let! newValue := lift (calculateValue config newIndex) in
    let! _ := sliceUpdate_create (fun now =>
      mkSliceUpdate sliceId steps "steps" oldValue newValue oldIndex newIndex
        now notes automatic) in
    let! updatedSlice := slice_update sliceId (setIndexValue newIndex newValue) in
    ret updatedSlice.

Definition updateByPercentage (sliceId : string) (percentage : Z)
    (notes : option string) : M Slice :=
  let! slice := findOne sliceId in
  if isComposite slice then
    throw (BadRequestException
      "Cannot update composite slices with percentage. Use component updates instead.")
  else
    let oldIndex := currentIndex slice in
    let oldValue := currentValue slice in
    let targetValue :=
      Z.max 0 (Math_floor (inject_Z oldValue * (1 + inject_Z percentage / 100))%Q) in
    let isIncrease := percentage >=? 0 in
    let config := selectConfig isIncrease slice in
    let! newIndex := lift (findClosestIndex config targetValue (Some MAX_INDEX)) in
    let! newValue := lift (calculateValue config newIndex) in
    let! _ := sliceUpdate_create (fun now =>
      mkSliceUpdate sliceId percentage "percentage" oldValue newValue oldIndex newIndex
        now notes false) in
    let! updatedSlice := slice_update sliceId (setIndexValue newIndex newValue) in
    ret updatedSlice.

Definition updateToValue (sliceId : string) (value : Z) (notes : option string) : M Slice :=
  let! slice := findOne sliceId in
  if isComposite slice then
    throw (BadRequestException
      "Cannot update composite slices to absolute value. Use component updates instead.")
  else
    let oldIndex := currentIndex slice in
    let oldValue := currentValue slice in
    if value <? 0 then throw (BadRequestException "Value cannot be negative")
    else
      let isIncrease := value >=? oldValue in
      let config := selectConfig isIncrease slice in
      let! newIndex := lift (findClosestIndex config value (Some MAX_INDEX)) in
      let! newValue := lift (calculateValue config newIndex) in
      let! _ := sliceUpdate_create (fun now =>
        mkSliceUpdate sliceId value "absolute" oldValue newValue oldIndex newIndex
          now notes false) in
      let! updatedSlice := slice_update sliceId (setIndexValue newIndex newValue) in
      ret updatedSlice.

(** ** Composite aggregation engine (composite-slice.service.ts) *)

Definition Qmax0 (x : Q) : Q := if Qle_bool x 0 then 0%Q else x.   (* Math.max(0, x) *)

Definition applyDecay (component : SliceComponent) (now : Z) : Q :=
  match lastChecked component with
  | None => 0%Q
  | Some lastChecked =>
      let elapsedMs := now - lastChecked in
      let decay (periods : Q) : Q :=
        let decayAmount := (periods * decayRate component)%Q in
        Qmax0 (inject_Z (c_currentValue component) - decayAmount) in
      if String.eqb (decayType component) "hourly" then
        decay (inject_Z elapsedMs / inject_Z (1000 * 60 * 60))%Q
      else if String.eqb (decayType component) "daily" then
        decay (inject_Z elapsedMs / inject_Z (1000 * 60 * 60 * 24))%Q
      else if String.eqb (decayType component) "weekly" then
        decay (inject_Z elapsedMs / inject_Z (1000 * 60 * 60 * 24 * 7))%Q
      else inject_Z (c_currentValue component)
  end.

(** One turn of the aggregation loop on [(weightedSum, totalWeight)]. *)
Definition accumulate (value : SliceComponent -> Q) (acc : Q * Z) (component : SliceComponent)
    : Q * Z :=
  let '(weightedSum, totalWeight) := acc in
  ((weightedSum + value component * (inject_Z (weight component) / 100))%Q,
   totalWeight + weight component).

Definition calculateCompositeValue (slice : Slice) : M Z :=
  if negb (isComposite slice) then
    throw (BadRequestException "Slice is not a composite slice")
  else
    let! components := sliceComponent_findMany (id slice) in
    if (length components =? 0)%nat then ret 0
    else
      let! now := gets clock in
      let '(weightedSum, totalWeight) :=
        fold_left (accumulate (fun c => applyDecay c now)) components (0%Q, 0) in
      if totalWeight =? 0 then ret 0
      else
        let normalizedValue := (weightedSum * 100 / inject_Z totalWeight)%Q in
        ret (Math_floor normalizedValue).

Definition findByKey (componentKey : string) (components : list SliceComponent)
    : option SliceComponent :=
  List.find (fun c => String.eqb (key c) componentKey) components.

(** [slice.findUnique({ include: { components: true } })] *)
Definition findWithComponents (sliceId : string) : M (Slice * list SliceComponent) :=
  let! found := slice_findUnique sliceId in
  match found with
  | None => throw (NotFoundException (str ["Slice with ID "; sliceId; " not found"]))
  | Some slice =>
      let! components := sliceComponent_findMany sliceId in
      ret (slice, components)
  end.

Definition updateComponent (sliceId componentKey : string) (value : option Z)
    (notes : option string) : M Slice :=
  let! '(slice, components) := findWithComponents sliceId in
  if negb (isComposite slice) then
    throw (BadRequestException "Slice is not a composite slice")
  else
    match findByKey componentKey components with
    | None =>
        throw (NotFoundException
          (str ["Component "; componentKey; " not found in slice "; slug slice]))
    | Some component =>
        let oldValue := c_currentValue component in
        let newValue := nullish value (maxValue component) in
        if (newValue <? 0) || (newValue >? maxValue component) then
          throw (BadRequestException
            (str ["Value must be between 0 and "; num (maxValue component)]))
        else
          let! _ := sliceComponentUpdate_create (fun now =>
            mkComponentUpdate (c_id component) oldValue newValue now notes) in
          let! now := gets clock in
          let! _ := sliceComponent_update (c_id component)
            (setComponentChecked newValue now) in
          let! compositeValue := calculateCompositeValue slice in
          let! updatedSlice := slice_update sliceId (setValue compositeValue) in
          ret updatedSlice
    end.

Definition updateMultipleComponents (sliceId : string) (componentKeys : list string)
    (notes : option string) : M Slice :=
  let! '(slice, components) := findWithComponents sliceId in
  if negb (isComposite slice) then
    throw (BadRequestException "Slice is not a composite slice")
  else
    let! _ := forEach componentKeys (fun key =>
      match findByKey key components with
      | None => ret tt
      | Some component =>
          let oldValue := c_currentValue component in
          let newValue := maxValue component in
          let! _ := sliceComponentUpdate_create (fun now =>
            mkComponentUpdate (c_id component) oldValue newValue now notes) in
          let! now := gets clock in
          sliceComponent_update (c_id component) (setComponentChecked newValue now)
      end) in
    let! compositeValue := calculateCompositeValue slice in
    let! updatedSlice := slice_update sliceId (setValue compositeValue) in
    ret updatedSlice.

(** ** Composite decay scheduler (composite-decay.scheduler.ts) *)

(** [x.toFixed(1)] for a non-negative [x]. *)
Definition toFixed1 (x : Q) : string :=
  let n := Qfloor (x * 10 + (1 # 2))%Q in
  str [num (n / 10); "."; num (n mod 10)].

Definition decayComponent (component : SliceComponent) (now : Z) : M bool :=
  match lastChecked component with
  | None => ret false
  | Some lastChecked =>
      let decay (periodsElapsed : Q) : M bool :=
        if Qltb periodsElapsed 1 then ret false
        else
          let decayAmount := Math_floor (periodsElapsed * decayRate component)%Q in
          if decayAmount <=? 0 then ret false
          else
            let newValue := Z.max 0 (c_currentValue component - decayAmount) in
            if newValue =? c_currentValue component then ret false
            else
              let! _ := sliceComponent_update (c_id component)
                (setComponentValue newValue) in
              let! _ := sliceComponentUpdate_create (fun date =>
                mkComponentUpdate (c_id component) (c_currentValue component) newValue
                  date
                  (Some (str ["Automatic decay: -"; num decayAmount; " (";
                              toFixed1 periodsElapsed; " "; decayType component;
                              " periods)"]))) in
              ret true in
      if String.eqb (decayType component) "hourly" then
        decay (hoursElapsed lastChecked now)
      else if String.eqb (decayType component) "daily" then
        decay (daysElapsed lastChecked now)
      else if String.eqb (decayType component) "weekly" then
        decay (weeksElapsed lastChecked now)
      else ret false
  end.

Definition recalculateCompositeValue (slice : Slice) : M unit :=
  let! components := sliceComponent_findMany (id slice) in
  if (length components =? 0)%nat then ret tt
  else
    let '(weightedSum, totalWeight) :=
      fold_left (accumulate (fun c => inject_Z (c_currentValue c))) components (0%Q, 0) in
    let normalizedValue :=
      if totalWeight >? 0 then Math_floor (weightedSum * 100 / inject_Z totalWeight)%Q
      else 0 in
    let! _ := slice_update (id slice) (setValue normalizedValue) in
    ret tt.

(** The loop of [decayCompositeSlice], threading [hasChanges]. *)
Fixpoint decayComponents (components : list SliceComponent) (now : Z) (hasChanges : bool)
    : M bool :=
  match components with
  | [] => ret hasChanges
  | component :: rest =>
      let! decayed := decayComponent component now in
      decayComponents rest now (if decayed then true else hasChanges)
  end.

Definition decayCompositeSlice (slice : Slice) (components : list SliceComponent)
    (now : Z) : M unit :=
  let! hasChanges := decayComponents components now false in
  if hasChanges then recalculateCompositeValue slice else ret tt.

(** The slices are loaded with their components before the loop. *)
Definition applyCompositeDecay : M unit :=
  catchLog (
    let! compositeSlices := slice_findMany isComposite in
    let! rows := gets components in
    let! now := gets clock in
    forEach compositeSlices (fun slice =>
      decayCompositeSlice slice (filter (fun c => c_sliceId c = id slice) rows) now)).

(** ** Scheduled slices (scheduled-slice.scheduler.ts) *)

Definition applyAutomaticPenalty (slice : Slice) (delta : Z) (notes : string) : M unit :=
  let! _ := updateBySteps (id slice) delta (Some notes) (Some true) in
  ret tt.

(** [x || 0] on a nullable integer. *)
Definition orZero (x : option Z) : Z := nullish x 0.

(** [updates] is the [take: 1] list of the query that loaded the slice. *)
Definition evaluateScheduledSlice (slice : Slice) (updates : list SliceUpdate)
    (now today : Z) : M unit :=
  let! tz := gets tzOffset in
  let hasReportedToday :=
    match updates with
    | [] => false
    | u :: _ => negb (automatic u) && isSameDay tz (date u) now
    end in
  if hasReportedToday then ret tt
  else
    match expectedTime slice with
    | None => throw (TypeError "Cannot read properties of null (reading 'split')")
    | Some timeString =>
        let! '(isPast, minutesLate) :=
          isPastScheduledTime timeString (orZero (gracePeriod slice)) in
        if negb isPast then ret tt
        else
          let penaltiesDue := minutesLate / penaltyInterval slice in
          if penaltiesDue <=? 0 then ret tt
          else
            let! automaticUpdatesToday := sliceUpdate_count (fun u =>
              bool_decide (u_sliceId u = id slice) && automatic u && (today <=? date u)) in
            let penaltiesToApply := Z.max 0 (penaltiesDue - automaticUpdatesToday) in
            if penaltiesToApply >? 0 then
              let totalDelta := penaltiesToApply * penaltyAmount slice in
              applyAutomaticPenalty slice totalDelta
                (str ["Scheduled penalty: "; num penaltiesToApply; "x ";
                      num (penaltyAmount slice); " ("; num minutesLate; " min late)"])
            else ret tt
    end.

Definition takeLatest (sliceId : string) (rows : list SliceUpdate) : list SliceUpdate :=
  match latestUpdate sliceId rows with
  | Some u => [u]
  | None => []
  end.

Definition hasTemporalType (t : string) (s : Slice) : bool :=
  match temporalType s with
  | Some t' => String.eqb t' t
  | None => false
  end.

Definition checkScheduledSlices : M unit :=
  catchLog (
    let! scheduledSlices := slice_findMany (hasTemporalType "scheduled") in
    let! rows := gets sliceUpdates in
    let! now := gets clock in
    let! tz := gets tzOffset in
    let today := getStartOfDay tz now in
    forEach scheduledSlices (fun slice =>
      evaluateScheduledSlice slice (takeLatest (id slice) rows) now today)).

(** ** Continuous slices (continuous-slice.scheduler.ts) *)

Definition evaluateContinuousSlice (slice : Slice) (updates : list SliceUpdate)
    (now : Z) : M unit :=
  match updates with
  | [] => ret tt
  | lastUpdate :: _ =>
      let minutesSinceUpdate := minutesElapsed (date lastUpdate) now in
      if minutesSinceUpdate <=? maxInterval slice then ret tt
      else
        let excessMinutes := minutesSinceUpdate - maxInterval slice in
        let penaltiesDue := excessMinutes / penaltyInterval slice in
        if penaltiesDue <=? 0 then ret tt
        else
          let! automaticPenaltiesSinceUpdate := sliceUpdate_count (fun u =>
            bool_decide (u_sliceId u = id slice) && automatic u
              && (date lastUpdate <? date u)) in
          let penaltiesToApply := Z.max 0 (penaltiesDue - automaticPenaltiesSinceUpdate) in
          if penaltiesToApply >? 0 then
            let totalDelta := penaltiesToApply * penaltyAmount slice in
            let! _ := updateBySteps (id slice) totalDelta
              (Some (str ["Continuous penalty: "; num penaltiesToApply; "x ";
                          num (penaltyAmount slice); " (";
                          num (minutesSinceUpdate / 60); "h since last update)"]))
              (Some true) in
            ret tt
          else ret tt
  end.

Definition checkContinuousSlices : M unit :=
  catchLog (
    let! continuousSlices := slice_findMany (hasTemporalType "continuous") in
    let! rows := gets sliceUpdates in
    let! now := gets clock in
    forEach continuousSlices (fun slice =>
      evaluateContinuousSlice slice (takeLatest (id slice) rows) now)).

(** ** Daily reset (slice-temporal.service.ts) *)

Definition resetDailySlices : M unit :=
  let! dailySlices := slice_findMany resetDaily in
  forEach dailySlices (fun slice =>
    catchLog (let! _ := slice_update (id slice) (setIndexValue 0 0) in ret tt)).

End Services.

(** ** A rational reference implementation of the platform functions

    The theorems below hold for every [MathLib]; this one serves to run
    the engine on concrete inputs. *)

(** Square root to 40 binary digits; exact on perfect squares. *)
Definition refSqrt (x : Q) : Q :=
  Qmake (Z.sqrt (Qfloor (x * inject_Z (4 ^ 40))%Q)) (2 ^ 40).

(** [sum_{i < n} x^i / i!], accumulated from the term [t = x^i / i!]. *)
Fixpoint expSeries (n : nat) (x t : Q) (i : Z) : Q :=
  match n with
  | O => 0%Q
  | S n' => (t + expSeries n' x (Qred (t * x / inject_Z (i + 1))) (i + 1))%Q
  end.

(** Halve the argument [m] times, sum the series, square [m] times. *)
Fixpoint squareTimes (m : nat) (y : Q) : Q :=
  match m with
  | O => y
  | S m' => squareTimes m' (Qred (y * y))
  end.

Definition refExp (x : Q) : Q :=
  let m := Z.to_nat (Z.log2_up (Qceiling (Qabs x) + 1)) in
  squareTimes m (expSeries 20 (x / inject_Z (2 ^ Z.of_nat m)) 1 0).

(** [2 * sum_{i < n} z^(2i+1) / (2i+1)] is [ln ((1+z)/(1-z))]. *)
Fixpoint atanhSeries (n : nat) (z2 t : Q) (i : Z) : Q :=
  match n with
  | O => 0%Q
  | S n' => (t / inject_Z (2 * i + 1) + atanhSeries n' z2 (Qred (t * z2)) (i + 1))%Q
  end.

Definition lnNear1 (x : Q) : Q :=
  let z := ((x - 1) / (x + 1))%Q in
  (2 * atanhSeries 30 (z * z) z 0)%Q.

(** [ln x = e * ln 2 + ln (x / 2^e)] with [x / 2^e] in [1, 2). *)
Definition refLog (x : Q) : Q :=
  if Qle_bool x 0 then 0%Q
  else
    let e := Z.log2 (Qfloor x) in
    if Qle_bool 1 x then (inject_Z e * lnNear1 2 + lnNear1 (x / inject_Z (2 ^ e)))%Q
    else lnNear1 x.

Definition refMath : MathLib :=
  {| Math_sqrt := refSqrt; Math_log := refLog; Math_exp := refExp |}.


(** ** Specification-side definitions *)

(** What the arguments below need from the platform functions. *)
Record MathLaws {ML : MathLib} : Prop := {
  sqrt_mono : forall x y, (0 <= x)%Q -> (x <= y)%Q -> (Math_sqrt x <= Math_sqrt y)%Q;
  log_mono : forall x y, (1 <= x)%Q -> (x <= y)%Q -> (Math_log x <= Math_log y)%Q;
  exp_mono : forall x y, (x <= y)%Q -> (Math_exp x <= Math_exp y)%Q;
  exp_pos : forall x, (0 < Math_exp x)%Q
}.
Arguments MathLaws ML : clear implicits.


(** The value at an index, as an integer ([calculateValue] never throws,
    see [calculateValue_Ok]). *)
Definition valueAt {ML : MathLib} (config : SliceSequenceConfig) (index : Z) : Z :=
  match calculateValue config index with
  | Ok v => v
  | Throw _ => 0
  end.

(** The value sequence of [config] does not decrease on [0..maxIndex]. *)
Definition nondecreasing {ML : MathLib} (config : SliceSequenceConfig) (maxIndex : Z) : Prop :=
  forall i j, 0 <= i -> i <= j -> j <= maxIndex -> valueAt config i <= valueAt config j.

Definition sumQ (l : list Q) : Q := fold_right Qplus 0%Q l.
Definition sumZ (l : list Z) : Z := fold_right Z.add 0 l.

(** The aggregation rule in the words of the design document: the length
    of a decay period, the decayed value of a component, and the floored
    weighted average. *)
Definition periodMs (decayType : string) : Z :=
  if String.eqb decayType "hourly" then 1000 * 60 * 60
  else if String.eqb decayType "daily" then 1000 * 60 * 60 * 24
  else 1000 * 60 * 60 * 24 * 7.

Definition spec_decayedValue (now : Z) (c : SliceComponent) : Q :=
  match lastChecked c with
  | None => 0%Q
  | Some t =>
      let periods := (inject_Z (now - t) / inject_Z (periodMs (decayType c)))%Q in
      Qmax0 (inject_Z (c_currentValue c) - periods * decayRate c)
  end.

Definition spec_compositeValue (now : Z) (cs : list SliceComponent) : Z :=
  let totalWeight := sumZ (map weight cs) in
  if totalWeight =? 0 then 0
  else
    Qfloor (sumQ (map (fun c => spec_decayedValue now c * inject_Z (weight c)) cs)
            / inject_Z totalWeight)%Q.

Definition knownDecayType (c : SliceComponent) : Prop :=
  decayType c = "hourly" \/ decayType c = "daily" \/ decayType c = "weekly".


Definition componentColumns (c : SliceComponent) :=
  (c_id c, c_sliceId c, key c, weight c, maxValue c, decayType c, decayRate c).

(** Every column of a component except [currentValue]. *)
Definition componentFrame (c : SliceComponent) : SliceComponent := setComponentValue 0 c.

(** The invariant of the data model on the index of one slice. *)
Definition indexInRange (sliceId : string) (w : World) : Prop :=
  forall s, slices w !! sliceId = Some s -> 0 <= currentIndex s <= MAX_INDEX.

(** The index-mutating operations of the engine. *)
Inductive Operation : Type :=
| OpUpdateBySteps (sliceId : string) (steps : Z) (notes : option string) (automatic : option bool)
| OpUpdateByPercentage (sliceId : string) (percentage : Z) (notes : option string)
| OpUpdateToValue (sliceId : string) (value : Z) (notes : option string)
| OpApplyAutomaticPenalty (slice : Slice) (delta : Z) (notes : string)
| OpCheckScheduledSlices
| OpCheckContinuousSlices
| OpResetDailySlices.

Definition runOperation {ML : MathLib} (op : Operation) : M unit :=
  match op with
  | OpUpdateBySteps sliceId steps notes automatic =>
      let! _ := updateBySteps sliceId steps notes automatic in ret tt
  | OpUpdateByPercentage sliceId percentage notes =>
      let! _ := updateByPercentage sliceId percentage notes in ret tt
  | OpUpdateToValue sliceId value notes =>
      let! _ := updateToValue sliceId value notes in ret tt
  | OpApplyAutomaticPenalty slice delta notes => applyAutomaticPenalty slice delta notes
  | OpCheckScheduledSlices => checkScheduledSlices
  | OpCheckContinuousSlices => checkContinuousSlices
  | OpResetDailySlices => resetDailySlices
  end.

(** The five formula names. *)
Definition knownType (t : string) : bool :=
  String.eqb t "linear" || String.eqb t "exponential" || String.eqb t "sqrt"
  || String.eqb t "logarithmic" || String.eqb t "sigmoid".

(** What the store holds after the audit row and the slice mutation were
    attempted in that order, as two separate writes, from [w]. *)
Definition auditThenMutate (w : World) (sliceId : string) (row : SliceUpdate)
    (updated : Slice) : Result Slice * World :=
  let audited := setSliceUpdates (sliceUpdates w ++ [row]) w in
  let mutated := setSlices (<[sliceId := updated]> (slices w)) audited in
  match faultAfter w with
  | Some O => (Throw PersistenceFault, w)
  | Some (S O) => (Throw PersistenceFault, setFaultAfter (Some O) audited)
  | Some (S (S n)) => (Ok updated, setFaultAfter (Some n) mutated)
  | None => (Ok updated, mutated)
  end.

(** [m] relates every store it starts from to the store it leaves. *)
Definition keeps {A} (R : World -> World -> Prop) (m : M A) : Prop :=
  forall w r w', m w = (r, w') -> R w w'.

(** The relation of an invariant: it survives. *)
Definition survives (I : World -> Prop) : World -> World -> Prop :=
  fun w w' => I w -> I w'.

(** The check-off of [updateComponent]: the rows with the identifier of
    [component] take the new value and the time of the call. *)
Definition checkOff (component : SliceComponent) (newValue now : Z) (c : SliceComponent)
    : SliceComponent :=
  if String.eqb (c_id c) (c_id component) then setComponentChecked newValue now c else c.

(** The store when [project] is all one looks at. *)
Definition unchanged {A} (project : World -> A) : World -> World -> Prop :=
  fun w w' => project w' = project w.

(** What a decay run must not touch: every column of every component but
    [currentValue], the slice history and the clock. *)
Definition decayFrame (w : World) : list SliceComponent * list SliceUpdate * Z :=
  (map componentFrame (components w), sliceUpdates w, clock w).

(** From [w] to [w'] the clock stands still, the component rows keep
    their place and identifier, and each [lastChecked] is either what it
    was or the time of [w]. *)
Definition checkedOrKept (w w' : World) : Prop :=
  clock w' = clock w
  /\ Forall2 (fun c c' =>
                c_id c' = c_id c
                /\ (lastChecked c' = lastChecked c \/ lastChecked c' = Some (clock w)))
       (components w) (components w').

(** The body of the loop of [updateMultipleComponents], on the
    components [snapshot] that were loaded with the slice. *)
Definition checkOffKey (snapshot : list SliceComponent) (notes : option string)
    (key : string) : M unit :=
  match findByKey key snapshot with
  | None => ret tt
  | Some component =>
      let oldValue := c_currentValue component in
      let newValue := maxValue component in
      let! _ := sliceComponentUpdate_create (fun now =>
        mkComponentUpdate (c_id component) oldValue newValue now notes) in
      let! now := gets clock in
      sliceComponent_update (c_id component) (setComponentChecked newValue now)
  end.

Definition checkedAt (cid : string) (t : Z) (c : SliceComponent) : Prop :=
  c_id c = cid -> lastChecked c = Some t.

(** ** Further functions of the services *)

(** [setHours(23, 59, 59, 999)] in the local time zone (time.utils.ts). *)
Definition getEndOfDay (tz : Z) (d : Z) : Z :=
  getStartOfDay tz d + (23 * 3600000 + 59 * 60000 + 59 * 1000 + 999).

(** [formatTimeSince] of the Telegram handlers. *)
Definition formatTimeSince (date : Z) : M string :=
  let! now := gets clock in
  let diff := now - date in
  let seconds := diff / 1000 in
  let minutes := seconds / 60 in
  let hours := minutes / 60 in
  let days := hours / 24 in
  if days >? 0 then ret (str [num days; "d ago"])
  else if hours >? 0 then ret (str [num hours; "h ago"])
  else if minutes >? 0 then ret (str [num minutes; "m ago"])
  else ret "just now".

(** [recalculateAllCompositeSlices] of composite-slice.service.ts. *)
Definition recalculateAllCompositeSlices : M unit :=
  let! compositeSlices := slice_findMany isComposite in
  forEach compositeSlices (fun slice =>
    catchLog (
      let! compositeValue := calculateCompositeValue slice in
      let! _ := slice_update (id slice) (setValue compositeValue) in
      ret tt)).

(** [getComponentStatus]: the component of the slice under the key,
    with its decayed value. *)
Definition getComponentStatus (sliceId componentKey : string) : M (SliceComponent * Q) :=
  let! rows := gets components in
  match List.find (fun c => bool_decide (c_sliceId c = sliceId)
                            && String.eqb (key c) componentKey) rows with
  | None => throw (NotFoundException (str ["Component "; componentKey; " not found in slice"]))
  | Some component =>
      let! now := gets clock in
      let decayedValue := applyDecay component now in
      ret (component, decayedValue)
  end.

(** [updateSlice] of the controller: the dispatch on the type of the
    request. *)
Definition updateSlice {ML : MathLib} (id : string) (type : string) (value : Z)
    (notes : option string) : M Slice :=
  if String.eqb type "steps" then updateBySteps id value notes None
  else if String.eqb type "percentage" then updateByPercentage id value notes
  else if String.eqb type "absolute" then updateToValue id value notes
  else throw (JsError (String.append "Unknown update type: " type)).

(** [sliceUpdate.findFirst({ where, orderBy: { date: 'desc' } })] *)
Definition sliceUpdate_findFirst (p : SliceUpdate -> bool) : M (option SliceUpdate) :=
  gets (fun w => fold_left laterOf (filter (fun u => p u = true) (sliceUpdates w)) None).

(** ** The temporal service (slice-temporal.service.ts)

    The older service of the penalties, beside the schedulers; its daily
    reset is [resetDailySlices] above.  [!x] holds of a number that is 0
    and of a string that is empty or null.  An unreadable time of day
    gives an invalid date, which the query for the last penalty
    rejects. *)
Module SliceTemporalService.
Section Service.
Context {ML : MathLib}.

Definition processScheduledSlice (slice : Slice) (updates : list SliceUpdate) (now : Z)
    : M unit :=
  match expectedTime slice with
  | None => ret tt
  | Some timeString =>
      if String.eqb timeString EmptyString || (penaltyInterval slice =? 0)
         || (penaltyAmount slice =? 0) then ret tt
      else
        let lastUpdateTime := date <$> head updates in
        let! tz := gets tzOffset in
        match parseTime timeString with
        | None => throw (JsError "Provided Date object is invalid")
        | Some (expectedHour, expectedMinute) =>
            let expectedTime :=
              getStartOfDay tz now + expectedHour * 3600000 + expectedMinute * 60000 in
            let gracePeriodMs := orZero (gracePeriod slice) * 60 * 1000 in
            let deadlineTime := expectedTime + gracePeriodMs in
            if now <? deadlineTime then ret tt
            else if match lastUpdateTime with
                    | Some t => expectedTime <=? t
                    | None => false
                    end then ret tt
            else
              let timeSinceDeadline := now - deadlineTime in
              let penaltyIntervalMs := penaltyInterval slice * 60 * 1000 in
              let penaltyCount := timeSinceDeadline / penaltyIntervalMs in
              if penaltyCount <=? 0 then ret tt
              else
                let! lastPenalty := sliceUpdate_findFirst (fun u =>
                  bool_decide (u_sliceId u = id slice) && automatic u
                    && (deadlineTime <=? date u)) in
                let penaltiesAlreadyApplied :=
                  match lastPenalty with
                  | Some p => (date p - deadlineTime) / penaltyIntervalMs + 1
                  | None => 0
                  end in
                let penaltiesToApply := penaltyCount - penaltiesAlreadyApplied in
                if penaltiesToApply <=? 0 then ret tt
                else
                  let totalPenalty := penaltyAmount slice * penaltiesToApply in
                  let! _ := updateBySteps (id slice) totalPenalty
                    (Some (str ["Automatic penalty: missed "; timeString; " deadline"]))
                    (Some true) in
                  ret tt
        end
  end.

Definition processContinuousSlice (slice : Slice) (updates : list SliceUpdate) (now : Z)
    : M unit :=
  if (maxInterval slice =? 0) || (penaltyInterval slice =? 0) || (penaltyAmount slice =? 0)
  then ret tt
  else
    match head updates with
    | None => ret tt
    | Some lastUpdate =>
        let lastUpdateTime := date lastUpdate in
        let timeSinceUpdate := now - lastUpdateTime in
        let maxIntervalMs := maxInterval slice * 60 * 1000 in
        if timeSinceUpdate <? maxIntervalMs then ret tt
        else
          let timeSinceMaxInterval := timeSinceUpdate - maxIntervalMs in
          let penaltyIntervalMs := penaltyInterval slice * 60 * 1000 in
          let penaltyCount := timeSinceMaxInterval / penaltyIntervalMs in
          if penaltyCount <=? 0 then ret tt
          else
            let! lastPenalty := sliceUpdate_findFirst (fun u =>
              bool_decide (u_sliceId u = id slice) && automatic u) in
            let deadlineTime := lastUpdateTime + maxIntervalMs in
            let penaltiesAlreadyApplied :=
              match lastPenalty with
              | Some p => (date p - deadlineTime) / penaltyIntervalMs + 1
              | None => 0
              end in
            let penaltiesToApply := penaltyCount - penaltiesAlreadyApplied in
            if penaltiesToApply <=? 0 then ret tt
            else
              let totalPenalty := penaltyAmount slice * penaltiesToApply in
              let! _ := updateBySteps (id slice) totalPenalty
                (Some (str ["Automatic penalty: no update for ";
                            num (timeSinceUpdate / 1000 / 60); " minutes"]))
                (Some true) in
              ret tt
    end.

(** [findByTemporalType] of the slice service loads each slice with its
    latest update. *)
Definition checkScheduledSlices : M unit :=
  let! scheduledSlices := slice_findMany (hasTemporalType "scheduled") in
  let! rows := gets sliceUpdates in
  let! now := gets clock in
  forEach scheduledSlices (fun slice =>
    catchLog (processScheduledSlice slice (takeLatest (id slice) rows) now)).

Definition checkContinuousSlices : M unit :=
  let! continuousSlices := slice_findMany (hasTemporalType "continuous") in
  let! rows := gets sliceUpdates in
  let! now := gets clock in
  forEach continuousSlices (fun slice =>
    catchLog (processContinuousSlice slice (takeLatest (id slice) rows) now)).

Definition applyCompositeDecay : M unit := catchLog recalculateAllCompositeSlices.

End Service.
End SliceTemporalService.

(** *** Predicates of the statements below *)

(** Less than one decay period has passed since the last check-off. *)
Definition checkedWithinPeriod (now : Z) (c : SliceComponent) : Prop :=
  forall t, lastChecked c = Some t -> now - t < periodMs (decayType c).

(** The histories only grow. *)
Definition historyGrows (w w' : World) : Prop :=
  sliceUpdates w `prefix_of` sliceUpdates w'
  /\ componentUpdates w `prefix_of` componentUpdates w'.

(** The slice rows written from [w] to [w'] all carry the flag [flag]. *)
Definition appendsFlagged (flag : bool) (w w' : World) : Prop :=
  exists rows, sliceUpdates w' = (sliceUpdates w ++ rows)%list
               /\ Forall (fun u => automatic u = flag) rows.

(** The TypeError of the engine when [isMonotonicIncreasing] reads the
    field of its formula on null parameters: [base] for an exponential
    curve, [multiplier] for a linear, sqrt or logarithmic one. *)
Definition nullParamsError (type : string) : Error :=
  TypeError
    (str ["Cannot read properties of null (reading '";
          if String.eqb type "exponential" then "base" else "multiplier"; "')"]).
(** ** The arithmetic of the platform: IEEE-754 binary64

    A JavaScript [number] is a binary64 floating-point number.  The
    module [Double] gives the formulas and the aggregation as the
    platform evaluates them: every operation rounded to nearest, ties to
    even, with the signed zeros, the infinities and NaN, on the Standard
    Library's specification of the format ([SpecFloat]).  The records of
    the data model are the ones above: a parameter that is the rational
    [q] there is the literal the JSON document holds, read here as the
    double nearest to it, and an integer column is the double of its
    value. *)

Module Double.

Definition number : Type := spec_float.

Definition prec : Z := 53.
Definition emax : Z := 1024.

Definition zero : number := S754_zero false.
Definition Infinity : number := S754_infinity false.
Definition NaN : number := S754_nan.

Definition add : number -> number -> number := SFadd prec emax.
Definition sub : number -> number -> number := SFsub prec emax.
Definition mul : number -> number -> number := SFmul prec emax.
Definition div : number -> number -> number := SFdiv prec emax.
Definition neg : number -> number := SFopp.
Definition ltb : number -> number -> bool := SFltb.
Definition leb : number -> number -> bool := SFleb.
Definition eqb : number -> number -> bool := SFeqb.

Declare Scope double_scope.
Delimit Scope double_scope with D.
Bind Scope double_scope with number.
Infix "+" := add : double_scope.
Infix "-" := sub : double_scope.
Infix "*" := mul : double_scope.
Infix "/" := div : double_scope.
Notation "- x" := (neg x) : double_scope.
Infix "<?" := ltb : double_scope.
Infix "<=?" := leb : double_scope.
Infix "=?" := eqb : double_scope.

(** The double of an integer: the integer itself below [2^53] in
    magnitude, the nearest double beyond. *)
Definition ofZ (z : Z) : number := binary_normalize prec emax z 0 false.

(** The double nearest to a rational: the reading of a decimal literal. *)
Definition ofQ (q : Q) : number :=
  let nearest (s : bool) (n : positive) : number :=
    let '(m, e, l) := SFdiv_core_binary prec emax (Zpos n) 0 (Zpos (Qden q)) 0 in
    binary_round_aux prec emax s m e l in
  match Qnum q with
  | Z0 => zero
  | Zpos n => nearest false n
  | Zneg n => nearest true n
  end.

(** [Math.floor]: a double with no fractional bits is its own floor, as
    are the zeros, the infinities and NaN. *)
Definition Math_floor (x : number) : number :=
  match x with
  | S754_finite s m e =>
      if 0 <=? e then x
      else ofZ (Z.shiftr (cond_Zopp s (Zpos m)) (- e))
  | _ => x
  end.

(** [Math.max(a, b)]: NaN when either is, and [+0] above [-0]. *)
Definition Math_max (a b : number) : number :=
  match SFcompare a b with
  | None => NaN
  | Some Lt => b
  | Some Gt => a
  | Some Eq => match a with S754_zero true => b | _ => a end
  end.


(** [Math.pow], [Math.sqrt], [Math.log] and [Math.exp] belong to the
    platform. *)
Class MathLib : Type := {
  Math_pow : number -> number -> number;
  Math_sqrt : number -> number;
  Math_log : number -> number;
  Math_exp : number -> number
}.

Section Formulas.
Context {ML : MathLib}.

(** [params?.field ?? default] *)
Definition field (params : ParamsRef) (f : Params -> option Q) (default : Q) : number :=
  ofQ (nullish (optField params f) default).

Definition calculateLinear (index : Z) (params : ParamsRef) : number :=
  let multiplier := field params multiplier 1 in
  let offset := field params offset 0 in
  (multiplier * ofZ index + offset)%D.

Definition calculateExponential (index : Z) (params : ParamsRef) : Result number :=
  let base := field params base 2 in
  if (base <=? zero)%D then Throw (JsError "Exponential base must be positive")
  else Ok (Math_pow base (ofZ index)).

Definition calculateSqrt (index : Z) (params : ParamsRef) : number :=
  let multiplier := field params multiplier 1 in
  let offset := field params offset 0 in
  (multiplier * Math_sqrt (ofZ index) + offset)%D.

Definition calculateLogarithmic (index : Z) (params : ParamsRef) : number :=
  let multiplier := field params multiplier 10 in
  let offset := field params offset 0 in
  (multiplier * Math_log (ofZ index + ofZ 1) + offset)%D.

Definition calculateSigmoid (index : Z) (params : ParamsRef) : number :=
  let max := field params max 100 in
  let k := field params k (2 # 10) in
  let inflection := field params inflection 15 in
  (max / (ofZ 1 + Math_exp (- k * (ofZ index - inflection))))%D.

(** The body of the [try] block of [calculateValue]. *)
Definition calculateValue_try (type : string) (params : ParamsRef) (index : Z)
    : Result number :=
  let? value :=
    if String.eqb type "linear" then Ok (calculateLinear index params)
    else if String.eqb type "exponential" then calculateExponential index params
    else if String.eqb type "sqrt" then Ok (calculateSqrt index params)
    else if String.eqb type "logarithmic" then Ok (calculateLogarithmic index params)
    else if String.eqb type "sigmoid" then Ok (calculateSigmoid index params)
    else Throw (JsError (String.append "Unknown sequence type: " type)) in
  Ok (Math_floor value).

Definition calculateValue (config : SliceSequenceConfig) (index : Z) : Result number :=
  let index := if index <? 0 then 0 else index in
  let type := type config in
  let params := defaultParams (params config) in
  try_catch (calculateValue_try type params index) (fun _ => Ok zero).

End Formulas.

(** *** The aggregation of composite-slice.service.ts *)

Definition applyDecay (component : SliceComponent) (now : Z) : number :=
  match lastChecked component with
  | None => zero
  | Some lastChecked =>
      let elapsedMs := ofZ (now - lastChecked) in
      let decay (periods : number) : number :=
        let decayAmount := (periods * ofQ (decayRate component))%D in
        Math_max zero (ofZ (c_currentValue component) - decayAmount)%D in
      if String.eqb (decayType component) "hourly" then
        decay (elapsedMs / ofZ (1000 * 60 * 60))%D
      else if String.eqb (decayType component) "daily" then
        decay (elapsedMs / ofZ (1000 * 60 * 60 * 24))%D
      else if String.eqb (decayType component) "weekly" then
        decay (elapsedMs / ofZ (1000 * 60 * 60 * 24 * 7))%D
      else ofZ (c_currentValue component)
  end.

(** One turn of the aggregation loop on [(weightedSum, totalWeight)]. *)
Definition accumulate (now : Z) (acc : number * number) (component : SliceComponent)
    : number * number :=
  let '(weightedSum, totalWeight) := acc in
  let decayedValue := applyDecay component now in
  ((weightedSum + decayedValue * (ofZ (weight component) / ofZ 100))%D,
   (totalWeight + ofZ (weight component))%D).

Definition calculateCompositeValue (slice : Slice) : M number :=
  if negb (isComposite slice) then
    throw (BadRequestException "Slice is not a composite slice")
  else
    let! components := sliceComponent_findMany (id slice) in
    if (length components =? 0)%nat then ret zero
    else
      let! now := gets clock in
      let '(weightedSum, totalWeight) := fold_left (accumulate now) components (zero, zero) in
      if (totalWeight =? zero)%D then ret zero
      else
        let normalizedValue := (weightedSum * ofZ 100 / totalWeight)%D in
        ret (Math_floor normalizedValue).

(** *** The aggregation rule of the design document, in doubles

    The decayed value of a component, floored at 0; the weighted sum of
    the decayed values, each times its weight over 100, taken from 0 in
    the order of the components; that sum times 100 over the sum of the
    weights, floored. *)

Definition periodMs (decayType : string) : option Z :=
  if String.eqb decayType "hourly" then Some 3600000
  else if String.eqb decayType "daily" then Some 86400000
  else if String.eqb decayType "weekly" then Some 604800000
  else None.

Definition spec_decayedValue (now : Z) (c : SliceComponent) : number :=
  match lastChecked c, periodMs (decayType c) with
  | None, _ => zero
  | Some _, None => ofZ (c_currentValue c)
  | Some t, Some period =>
      let periods := (ofZ (now - t) / ofZ period)%D in
      let value := (ofZ (c_currentValue c) - periods * ofQ (decayRate c))%D in
      if (value <=? zero)%D then zero else value
  end.

Definition sum (l : list number) : number := fold_left add l zero.

Definition spec_compositeValue (now : Z) (cs : list SliceComponent) : number :=
  let totalWeight := sum (map (fun c => ofZ (weight c)) cs) in
  let weightedSum :=
    sum (map (fun c => (spec_decayedValue now c * (ofZ (weight c) / ofZ 100))%D) cs) in
  match cs with
  | [] => zero
  | _ => if (totalWeight =? zero)%D then zero
         else Math_floor (weightedSum * ofZ 100 / totalWeight)%D
  end.

(** *** A reference implementation of the platform functions

    Powers by repeated squaring, exact on the powers of two; the
    correctly rounded square root; logarithm and exponential as the
    double nearest to the rational reference above. *)

Definition toQ (x : number) : option Q :=
  match x with
  | S754_zero _ => Some 0%Q
  | S754_finite s m e => Some (inject_Z (cond_Zopp s (Zpos m)) * 2 ^ e)%Q
  | _ => None
  end.

(** The integer a double is, when it is one. *)
Definition toZ (x : number) : option Z :=
  match x with
  | S754_zero _ => Some 0
  | S754_finite s m e =>
      if 0 <=? e then Some (cond_Zopp s (Zpos m) * 2 ^ e)
      else if Zpos m mod 2 ^ (- e) =? 0 then Some (cond_Zopp s (Zpos m) / 2 ^ (- e))
      else None
  | _ => None
  end.

Fixpoint powPos (b : number) (n : positive) : number :=
  match n with
  | xH => b
  | xO n' => let h := powPos b n' in (h * h)%D
  | xI n' => let h := powPos b n' in (h * h * b)%D
  end.

Definition refPow (b n : number) : number :=
  match toZ n with
  | Some Z0 => ofZ 1
  | Some (Zpos p) => powPos b p
  | Some (Zneg p) => (ofZ 1 / powPos b p)%D
  | None => NaN
  end.

Definition refLog (x : number) : number :=
  match x with
  | S754_zero _ => S754_infinity true
  | S754_infinity false => Infinity
  | S754_finite false _ _ => match toQ x with Some q => ofQ (Qred (refLog q)) | None => NaN end
  | _ => NaN
  end.

Definition refExp (x : number) : number :=
  match x with
  | S754_infinity true => zero
  | S754_infinity false => Infinity
  | S754_nan => NaN
  | _ => match toQ x with Some q => ofQ (Qred (refExp q)) | None => NaN end
  end.

Definition refMath : MathLib :=
  {| Math_pow := refPow; Math_sqrt := SFsqrt prec emax; Math_log := refLog;
     Math_exp := refExp |}.

End Double.
(** ** Example data *)

Module Examples.

Definition linear (m o : Q) : SliceSequenceConfig :=
  mkConfig "linear" (ParamsObj (mkParams (Some m) None (Some o) None None None)).

Definition exponential (b : Q) : SliceSequenceConfig :=
  mkConfig "exponential" (ParamsObj (mkParams None (Some b) None None None None)).

Definition linearParams (m : Q) : ParamsRef :=
  ParamsObj (mkParams (Some m) None None None None None).

Definition emptyWorld : World := mkWorld ∅ [] [] [] 50400000 (-14400000) None.

(** A manual slice at index 5 with value 2 whose increase curve is linear
    with multiplier 1. *)
Definition gym : Slice :=
  mkSlice "1" "gym" "linear" (linearParams 1) "exponential"
    (ParamsObj (mkParams None (Some (13 # 10)) None None None None))
    5 2 (Some "manual") None None 0 0 0 false false.

Definition gymWorld : World := setSlices {[ "1" := gym ]} emptyWorld.

(** Due at 09:00 with 30 minutes of grace, one step down every 15
    minutes; the clock of [emptyWorld] reads 10:00 local time. *)
Definition nutrition : Slice :=
  mkSlice "2" "nut" "linear" (linearParams 1) "linear" (linearParams 1)
    10 10 (Some "scheduled") (Some "09:00") (Some 30) 15 (-1) 0 false false.

Definition nutritionWorld : World := setSlices {[ "2" := nutrition ]} emptyWorld.

Definition hygiene : Slice :=
  mkSlice "3" "hyg" "linear" ParamsNull "linear" ParamsNull
    0 0 (Some "manual") None None 0 0 0 false true.

Definition hygieneComponent (cid key : string) (weight : Z) : SliceComponent :=
  mkComponent cid "3" key weight 100 100 "daily" 10 (Some 50400000).

Definition hygieneWorld : World :=
  setComponents
    [hygieneComponent "c1" "shower" 30; hygieneComponent "c2" "teeth" 25;
     hygieneComponent "c3" "hair" 20; hygieneComponent "c4" "nails" 15;
     hygieneComponent "c5" "shave" 10]
    (setSlices {[ "3" := hygiene ]} emptyWorld).

(** Two days after the last check-off of every component. *)
Definition staleHygieneWorld : World := setClock (50400000 + 2 * msPerDay) hygieneWorld.

Definition shower : SliceComponent := hygieneComponent "c1" "shower" 30.
Definition teeth : SliceComponent := hygieneComponent "c2" "teeth" 25.

(** The store accepts one more write and then fails. *)
Definition failingGymWorld : World := setFaultAfter (Some 1%nat) gymWorld.

Definition updateOf (u : SliceUpdate) : Z * Z * Z * bool * option string :=
  (delta u, indexAfter u, valueAfter u, automatic u, notes u).

Definition indexOf (sliceId : string) (w : World) : option Z :=
  currentIndex <$> slices w !! sliceId.

(** A plain slice whose curves have null parameters. *)
Definition journal : Slice :=
  mkSlice "4" "jou" "linear" ParamsNull "linear" ParamsNull
    3 3 (Some "manual") None None 0 0 0 false false.

Definition journalWorld : World := setSlices {[ "4" := journal ]} emptyWorld.

(** To be updated every 120 minutes, one step down for every 30 minutes
    beyond, reset every day; last updated by hand four hours before the
    clock of [emptyWorld]. *)
Definition hydration : Slice :=
  mkSlice "5" "hyd" "linear" (linearParams 1) "linear" (linearParams 1)
    10 10 (Some "continuous") None None 30 (-1) 120 true false.

Definition hydrationWorld : World :=
  setSliceUpdates [mkSliceUpdate "5" 1 "steps" 9 10 9 10 36000000 None false]
    (setSlices {[ "5" := hydration ]} emptyWorld).

(** A quarter past nine in the morning, local time. *)
Definition earlyNutritionWorld : World := setClock 47700000 nutritionWorld.

(** The components of a store at the given values, in their order. *)
Definition withValues (values : list Z) (w : World) : World :=
  setComponents (zip_with setComponentValue values (components w)) w.

Definition mixedHygieneWorld : World := withValues [18; 24; 30; 36; 42] hygieneWorld.

Definition levelHygieneWorld : World := withValues [31; 31; 31; 31; 31] hygieneWorld.

(** The shower was last taken twenty days ago, the teeth were brushed a
    day and a half ago, the hair was never checked, the nails decay by a
    type the engine does not know, and the shave is of this minute. *)
Definition neglectedHygieneWorld : World :=
  setComponents
    [mkComponent "c1" "3" "shower" 30 100 100 "daily" 10 (Some (50400000 - 20 * msPerDay));
     mkComponent "c2" "3" "teeth" 25 100 100 "daily" 10 (Some (50400000 - 129600000));
     mkComponent "c3" "3" "hair" 20 100 100 "daily" 10 None;
     mkComponent "c4" "3" "nails" 15 100 100 "monthly" 10 (Some (50400000 - 20 * msPerDay));
     mkComponent "c5" "3" "shave" 10 100 100 "hourly" 10 (Some 50400000)]
    hygieneWorld.

End Examples.

(** * Properties *)

(** ** The formula engine *)

Section FormulaProperties.
Context {ML : MathLib}.

Lemma calculateValue_Ok (config : SliceSequenceConfig) (index : Z) :
  calculateValue config index = Ok (valueAt config index).
Proof.
  unfold valueAt, calculateValue, try_catch.
  destruct (calculateValue_try _ _ _); reflexivity.
Qed.

Lemma calculateValue_negative (config : SliceSequenceConfig) (index : Z) :
  index < 0 -> calculateValue config index = calculateValue config 0.
Proof.
  intros Hneg. unfold calculateValue.
  destruct (Z.ltb_spec index 0) as [_ | Hge]; [reflexivity | lia].
Qed.

Lemma calculateValue_caught (config : SliceSequenceConfig) (index : Z) (e : Error) :
  calculateValue_try (type config) (defaultParams (params config))
    (if index <? 0 then 0 else index) = Throw e ->
  calculateValue config index = Ok 0.
Proof. intros Hthrow. unfold calculateValue. rewrite Hthrow. reflexivity. Qed.

Lemma calculateValue_unknown_type (config : SliceSequenceConfig) (index : Z) :
  knownType (type config) = false -> calculateValue config index = Ok 0.
Proof.
  unfold knownType. intros Hunknown.
  repeat (apply orb_false_elim in Hunknown; destruct Hunknown as [Hunknown ?]).
  unfold calculateValue, calculateValue_try.
  repeat match goal with H : String.eqb _ _ = false |- _ => rewrite H; clear H end.
  reflexivity.
Qed.

Lemma calculateValue_bad_base (config : SliceSequenceConfig) (index : Z) :
  type config = "exponential" ->
  (nullish (optField (defaultParams (params config)) base) 2 <= 0)%Q ->
  calculateValue config index = Ok 0.
Proof.
  intros Htype Hbase. unfold calculateValue, calculateValue_try. rewrite Htype.
  cbn [String.eqb Ascii.eqb Bool.eqb]. unfold calculateExponential.
  apply Qle_bool_iff in Hbase. rewrite Hbase. reflexivity.
Qed.

(** C10. Without its third argument [findClosestIndex] searches
    [0..1000]; the two callers in the update engine pass [MAX_INDEX],
    which is 10000, and so reach indices the default range does not. *)
Theorem findClosestIndex_default_maxIndex :
  (forall config targetValue,
     findClosestIndex config targetValue None
     = findClosestIndex config targetValue (Some 1000))
  /\ MAX_INDEX = 10000
  /\ findClosestIndex (Examples.linear 1 0) 5000 None = Ok 1000
  /\ findClosestIndex (Examples.linear 1 0) 5000 (Some MAX_INDEX) = Ok 5000
  /\ Examples.indexOf "1" (snd (updateToValue "1" 5000 None Examples.gymWorld)) = Some 5000
  /\ Examples.indexOf "1" (snd (updateByPercentage "1" 249900 None Examples.gymWorld))
     = Some 5000.
Proof.
  split; [reflexivity |]. split; [reflexivity |].
  repeat split; vm_compute; reflexivity.
Qed.

End FormulaProperties.

Section SearchProperties.
Context {ML : MathLib}.

Lemma binarySearchLoop_unfold fuel config t left right ci cd :
  binarySearchLoop (S fuel) config t left right ci cd =
  if left <=? right then
    let mid := (left + right) / 2 in
    let midValue := valueAt config mid in
    let diff := Z.abs (midValue - t) in
    let cd' := if diff <? cd then diff else cd in
    let ci' := if diff <? cd then mid else ci in
    if midValue <? t then binarySearchLoop fuel config t (mid + 1) right ci' cd'
    else if midValue >? t then binarySearchLoop fuel config t left (mid - 1) ci' cd'
    else Ok mid
  else Ok ci.
Proof. cbn [binarySearchLoop]. rewrite calculateValue_Ok. reflexivity. Qed.

Lemma midpoint_between (left right : Z) :
  left <= right -> left <= (left + right) / 2 <= right.
Proof.
  intros Hle. split.
  - apply Z.div_le_lower_bound; lia.
  - apply Z.div_le_upper_bound; lia.
Qed.

(** On a non-decreasing value sequence that takes the target somewhere in
    [left..right], the loop leaves through its exact-match return. *)
Lemma binarySearchLoop_exact (config : SliceSequenceConfig) (t lo hi : Z) :
  (forall i j, lo <= i -> i <= j -> j <= hi -> valueAt config i <= valueAt config j) ->
  forall fuel left right ci cd,
    lo <= left -> right <= hi ->
    (exists m, left <= m <= right /\ valueAt config m = t) ->
    (Z.to_nat (right - left + 1) < fuel)%nat ->
    exists r, binarySearchLoop fuel config t left right ci cd = Ok r
              /\ left <= r <= right /\ valueAt config r = t.
Proof.
  intros Hmono. induction fuel as [| fuel IH]; intros left right ci cd Hlo Hhi [m [Hm Hvm]] Hfuel.
  - lia.
  - rewrite binarySearchLoop_unfold.
    assert (Hlr : left <= right) by lia.
    destruct (Z.leb_spec left right) as [_ | ?]; [| lia].
    pose proof (midpoint_between left right Hlr) as Hmid.
    cbv zeta. set (mid := (left + right) / 2) in *.
    destruct (Z.ltb_spec (valueAt config mid) t) as [Hlt | Hge].
    + assert (mid < m).
      { destruct (Z.lt_ge_cases mid m) as [? | Hmm]; [assumption |].
        assert (valueAt config m <= valueAt config mid) by (apply Hmono; lia). lia. }
      destruct (IH (mid + 1) right (if Z.abs (valueAt config mid - t) <? cd then mid else ci)
                  (if Z.abs (valueAt config mid - t) <? cd then Z.abs (valueAt config mid - t) else cd))
        as [r [Hr [Hrange Hv]]]; try lia.
      { exists m. split; [lia | assumption]. }
      exists r. split; [exact Hr |]. split; [lia | assumption].
    + destruct (Z.gtb_spec (valueAt config mid) t) as [Hgt | Hle].
      * assert (m < mid).
        { destruct (Z.lt_ge_cases m mid) as [? | Hmm]; [assumption |].
          assert (valueAt config mid <= valueAt config m) by (apply Hmono; lia). lia. }
        destruct (IH left (mid - 1) (if Z.abs (valueAt config mid - t) <? cd then mid else ci)
                  (if Z.abs (valueAt config mid - t) <? cd then Z.abs (valueAt config mid - t) else cd))
          as [r [Hr [Hrange Hv]]]; try lia.
        { exists m. split; [lia | assumption]. }
        exists r. split; [exact Hr |]. split; [lia | assumption].
      * exists mid. split; [reflexivity |]. split; [lia | lia].
Qed.

(** Whatever the values are, the loop ends within its budget and answers
    inside the range it was given. *)
Lemma binarySearchLoop_bounds (config : SliceSequenceConfig) (t lo hi : Z) :
  forall fuel left right ci cd,
    lo <= left -> right <= hi -> lo <= ci <= hi ->
    (Z.to_nat (right - left + 1) < fuel)%nat ->
    exists r, binarySearchLoop fuel config t left right ci cd = Ok r /\ lo <= r <= hi.
Proof.
  induction fuel as [| fuel IH]; intros left right ci cd Hlo Hhi Hci Hfuel.
  - lia.
  - rewrite binarySearchLoop_unfold.
    destruct (Z.leb_spec left right) as [Hlr | Hgt]; [| exists ci; split; [reflexivity | lia]].
    pose proof (midpoint_between left right Hlr) as Hmid.
    cbv zeta. set (mid := (left + right) / 2) in *.
    assert (Hci' : lo <= (if Z.abs (valueAt config mid - t) <? cd then mid else ci) <= hi)
      by (destruct (_ <? cd); lia).
    destruct (valueAt config mid <? t).
    + apply IH; lia.
    + destruct (valueAt config mid >? t).
      * apply IH; lia.
      * exists mid. split; [reflexivity | lia].
Qed.

Lemma binarySearchIndex_bounds (config : SliceSequenceConfig) (t minIndex maxIndex : Z) :
  minIndex <= maxIndex ->
  exists r, binarySearchIndex config t minIndex maxIndex = Ok r /\ minIndex <= r <= maxIndex.
Proof.
  intros Hle. unfold binarySearchIndex. rewrite calculateValue_Ok. cbn [rbind].
  apply binarySearchLoop_bounds; lia.
Qed.

(** The budget of [binarySearchIndex] is never exhausted. *)
Lemma binarySearchIndex_budget (config : SliceSequenceConfig) (t minIndex maxIndex : Z) :
  binarySearchIndex config t minIndex maxIndex <> Throw LoopBudget.
Proof.
  destruct (Z.le_gt_cases minIndex maxIndex) as [Hle | Hgt].
  - destruct (binarySearchIndex_bounds config t minIndex maxIndex Hle) as [r [Hr _]].
    rewrite Hr. discriminate.
  - unfold binarySearchIndex. rewrite calculateValue_Ok. cbn [rbind].
    rewrite binarySearchLoop_unfold.
    destruct (Z.leb_spec minIndex maxIndex); [lia | discriminate].
Qed.

Lemma linearSearchLoop_bounds (config : SliceSequenceConfig) (t hi : Z) :
  forall n i ci cd,
    0 <= ci <= hi -> 1 <= i -> i + Z.of_nat n - 1 <= hi ->
    exists r, linearSearchLoop n config t i ci cd = Ok r /\ 0 <= r <= hi.
Proof.
  induction n as [| n IH]; intros i ci cd Hci Hi Hn.
  - exists ci. split; [reflexivity | assumption].
  - cbn [linearSearchLoop]. rewrite calculateValue_Ok. cbn [rbind].
    destruct (_ <? cd); apply IH; lia.
Qed.

Lemma linearSearchIndex_bounds (config : SliceSequenceConfig) (t maxIndex : Z) :
  0 <= maxIndex ->
  exists r, linearSearchIndex config t maxIndex = Ok r /\ 0 <= r <= maxIndex.
Proof.
  intros Hle. unfold linearSearchIndex. rewrite calculateValue_Ok. cbn [rbind].
  apply linearSearchLoop_bounds; lia.
Qed.

Lemma findClosestIndex_bounds (config : SliceSequenceConfig) (t maxIndex r : Z) :
  0 <= maxIndex ->
  findClosestIndex config t (Some maxIndex) = Ok r -> 0 <= r <= maxIndex.
Proof.
  intros Hle. unfold findClosestIndex. cbn [nullish].
  destruct (t <=? 0); [intros [= <-]; lia |].
  destruct (isMonotonicIncreasing config) as [[|] | e]; cbn [rbind]; [| | discriminate].
  - destruct (binarySearchIndex_bounds config t 0 maxIndex Hle) as [r' [-> Hr']].
    intros [= <-]. exact Hr'.
  - destruct (linearSearchIndex_bounds config t maxIndex Hle) as [r' [-> Hr']].
    intros [= <-]. exact Hr'.
Qed.

Lemma findClosestIndex_nonpositive (config : SliceSequenceConfig) (t : Z) (maxIndex : option Z) :
  t <= 0 -> findClosestIndex config t maxIndex = Ok 0.
Proof.
  intros Ht. unfold findClosestIndex.
  destruct (Z.leb_spec t 0); [reflexivity | lia].
Qed.

(** On a non-decreasing value sequence the binary search finds the value
    of [n] exactly. *)
Lemma findClosestIndex_exact (config : SliceSequenceConfig) (maxIndex n : Z) :
  isMonotonicIncreasing config = Ok true ->
  nondecreasing config maxIndex ->
  0 <= n <= maxIndex ->
  0 < valueAt config n ->
  exists r, findClosestIndex config (valueAt config n) (Some maxIndex) = Ok r
            /\ 0 <= r <= maxIndex
            /\ valueAt config r = valueAt config n.
Proof.
  intros Hmono Hnd Hn Hpos.
  unfold findClosestIndex. cbn [nullish].
  destruct (Z.leb_spec (valueAt config n) 0) as [? | _]; [lia |].
  rewrite Hmono. cbn [rbind]. unfold binarySearchIndex.
  rewrite calculateValue_Ok. cbn [rbind].
  apply (binarySearchLoop_exact config (valueAt config n) 0 maxIndex); try lia.
  - intros i j Hi Hij Hj. apply Hnd; assumption.
  - exists n. split; [lia | reflexivity].
Qed.

End SearchProperties.

(** ** Which configurations have a non-decreasing value sequence *)

Section Monotonicity.
Context {ML : MathLib}.

Lemma valueAt_try (config : SliceSequenceConfig) (i : Z) :
  0 <= i ->
  valueAt config i =
  match calculateValue_try (type config) (defaultParams (params config)) i with
  | Ok v => v
  | Throw _ => 0
  end.
Proof.
  intros Hi. unfold valueAt, calculateValue, try_catch.
  destruct (Z.ltb_spec i 0); [lia |].
  destruct (calculateValue_try _ _ _); reflexivity.
Qed.

Lemma Qdiv_le_antitone (a b c : Q) :
  (0 <= a)%Q -> (0 < b)%Q -> (b <= c)%Q -> (a / c <= a / b)%Q.
Proof.
  intros Ha Hb Hbc.
  assert (Hc : (0 < c)%Q) by (eapply Qlt_le_trans; eassumption).
  apply Qle_shift_div_l; [exact Hb |].
  setoid_replace (a / c * b)%Q with (a * b / c)%Q using relation Qeq
    by (field; intros Hz; rewrite Hz in Hc; discriminate Hc).
  apply Qle_shift_div_r; [exact Hc |].
  rewrite (Qmult_comm a b), (Qmult_comm a c).
  apply Qmult_le_compat_r; assumption.
Qed.

Lemma affine_mono (m o x y : Q) :
  (0 <= m)%Q -> (x <= y)%Q -> (m * x + o <= m * y + o)%Q.
Proof.
  intros Hm Hxy. apply Qplus_le_compat; [| apply Qle_refl].
  rewrite (Qmult_comm m x), (Qmult_comm m y).
  apply Qmult_le_compat_r; assumption.
Qed.

Lemma linear_nondecreasing (config : SliceSequenceConfig) (maxIndex : Z) :
  type config = "linear" ->
  isMonotonicIncreasing config = Ok true ->
  nondecreasing config maxIndex.
Proof.
  intros Htype Hmono i j Hi Hij Hj.
  rewrite !valueAt_try by lia. unfold calculateValue_try.
  unfold isMonotonicIncreasing in Hmono. rewrite Htype in *.
  cbn [String.eqb Ascii.eqb Bool.eqb rbind] in *.
  destruct (defaultParams (params config)) as [| | p]; cbn in Hmono; try discriminate.
  - apply Qfloor_resp_le, affine_mono; [discriminate | rewrite <- Zle_Qle; lia].
  - injection Hmono as Hm. apply Qle_bool_iff in Hm.
    apply Qfloor_resp_le, affine_mono; [exact Hm | rewrite <- Zle_Qle; lia].
Qed.

Lemma exponential_nondecreasing (config : SliceSequenceConfig) (maxIndex : Z) :
  type config = "exponential" ->
  isMonotonicIncreasing config = Ok true ->
  nondecreasing config maxIndex.
Proof.
  intros Htype Hmono i j Hi Hij Hj.
  rewrite !valueAt_try by lia. unfold calculateValue_try, calculateExponential.
  unfold isMonotonicIncreasing in Hmono. rewrite Htype in *.
  cbn [String.eqb Ascii.eqb Bool.eqb rbind] in *.
  assert (Hb : (1 <= nullish (optField (defaultParams (params config)) base) 2)%Q).
  { destruct (defaultParams (params config)) as [| | p]; cbn in Hmono |- *;
      try discriminate.
    injection Hmono as Hm. apply Qle_bool_iff in Hm. exact Hm. }
  destruct (Qle_bool _ 0) eqn:Hle.
  - apply Qle_bool_iff in Hle.
    exfalso. apply (Qlt_irrefl 0). eapply Qlt_le_trans; [| apply Hle].
    eapply Qlt_le_trans; [| apply Hb]. reflexivity.
  - cbn [rbind]. apply Qfloor_resp_le. unfold Math_pow.
    apply Qpower_le_compat_l; assumption.
Qed.

Lemma sqrt_nondecreasing (config : SliceSequenceConfig) (maxIndex : Z) :
  MathLaws ML ->
  type config = "sqrt" ->
  isMonotonicIncreasing config = Ok true ->
  nondecreasing config maxIndex.
Proof.
  intros Laws Htype Hmono i j Hi Hij Hj.
  rewrite !valueAt_try by lia. unfold calculateValue_try, calculateSqrt.
  unfold isMonotonicIncreasing in Hmono. rewrite Htype in *.
  cbn [String.eqb Ascii.eqb Bool.eqb rbind] in *.
  assert (Hs : (Math_sqrt (inject_Z i) <= Math_sqrt (inject_Z j))%Q).
  { apply (sqrt_mono Laws).
    - change 0%Q with (inject_Z 0). rewrite <- Zle_Qle. lia.
    - rewrite <- Zle_Qle. lia. }
  destruct (defaultParams (params config)) as [| | p]; cbn in Hmono; try discriminate.
  - apply Qfloor_resp_le, affine_mono; [discriminate | exact Hs].
  - injection Hmono as Hm. apply Qle_bool_iff in Hm.
    apply Qfloor_resp_le, affine_mono; [exact Hm | exact Hs].
Qed.

Lemma logarithmic_nondecreasing (config : SliceSequenceConfig) (maxIndex : Z) :
  MathLaws ML ->
  type config = "logarithmic" ->
  isMonotonicIncreasing config = Ok true ->
  nondecreasing config maxIndex.
Proof.
  intros Laws Htype Hmono i j Hi Hij Hj.
  rewrite !valueAt_try by lia. unfold calculateValue_try, calculateLogarithmic.
  unfold isMonotonicIncreasing in Hmono. rewrite Htype in *.
  cbn [String.eqb Ascii.eqb Bool.eqb rbind] in *.
  assert (Hs : (Math_log (inject_Z (i + 1)) <= Math_log (inject_Z (j + 1)))%Q).
  { apply (log_mono Laws).
    - change 1%Q with (inject_Z 1). rewrite <- Zle_Qle. lia.
    - rewrite <- Zle_Qle. lia. }
  destruct (defaultParams (params config)) as [| | p]; cbn in Hmono; try discriminate.
  - apply Qfloor_resp_le, affine_mono; [discriminate | exact Hs].
  - injection Hmono as Hm. apply Qle_bool_iff in Hm.
    apply Qfloor_resp_le, affine_mono; [exact Hm | exact Hs].
Qed.

(** [isMonotonicIncreasing] accepts every sigmoid; its values do not
    decrease when [max] and [k] are not negative. *)
Lemma sigmoid_nondecreasing (config : SliceSequenceConfig) (maxIndex : Z) :
  MathLaws ML ->
  type config = "sigmoid" ->
  (0 <= nullish (optField (defaultParams (params config)) max) 100)%Q ->
  (0 <= nullish (optField (defaultParams (params config)) k) (2 # 10))%Q ->
  nondecreasing config maxIndex.
Proof.
  intros Laws Htype Hmax Hk i j Hi Hij Hj.
  rewrite !valueAt_try by lia. unfold calculateValue_try, calculateSigmoid.
  rewrite Htype. cbn [String.eqb Ascii.eqb Bool.eqb rbind].
  set (p := defaultParams (params config)) in *.
  set (mx := nullish (optField p max) 100%Q) in *.
  set (kk := nullish (optField p k) (2 # 10)%Q) in *.
  set (infl := nullish (optField p inflection) 15%Q).
  apply Qfloor_resp_le, Qdiv_le_antitone.
  - exact Hmax.
  - pose proof (exp_pos Laws (- kk * (inject_Z j - infl))%Q) as Hpos.
    apply Qlt_trans with 1%Q; [reflexivity |].
    rewrite <- (Qplus_0_r 1) at 1. apply Qplus_lt_r. exact Hpos.
  - apply Qplus_le_compat; [apply Qle_refl |]. apply (exp_mono Laws).
    assert (Hij' : (inject_Z i - infl <= inject_Z j - infl)%Q).
    { apply Qplus_le_compat; [rewrite <- Zle_Qle; lia | apply Qle_refl]. }
    setoid_replace (- kk * (inject_Z j - infl))%Q with (- (kk * (inject_Z j - infl)))%Q
      using relation Qeq by ring.
    setoid_replace (- kk * (inject_Z i - infl))%Q with (- (kk * (inject_Z i - infl)))%Q
      using relation Qeq by ring.
    apply Qopp_le_compat.
    rewrite (Qmult_comm kk (inject_Z i - infl)), (Qmult_comm kk (inject_Z j - infl)).
    apply Qmult_le_compat_r; assumption.
Qed.

(** Every configuration that [isMonotonicIncreasing] accepts has a
    non-decreasing value sequence, a sigmoid under the proviso that its
    [max] and [k] are not negative. *)
Lemma accepted_nondecreasing (config : SliceSequenceConfig) (maxIndex : Z) :
  MathLaws ML ->
  isMonotonicIncreasing config = Ok true ->
  (type config = "sigmoid" ->
   (0 <= nullish (optField (defaultParams (params config)) max) 100)%Q
   /\ (0 <= nullish (optField (defaultParams (params config)) k) (2 # 10))%Q) ->
  nondecreasing config maxIndex.
Proof.
  intros Laws Hmono Hsigmoid.
  destruct (String.eqb_spec (type config) "linear") as [Hl | Hnl];
    [apply linear_nondecreasing; assumption |].
  destruct (String.eqb_spec (type config) "exponential") as [He | Hne];
    [apply exponential_nondecreasing; assumption |].
  destruct (String.eqb_spec (type config) "sqrt") as [Hs | Hns];
    [apply sqrt_nondecreasing; assumption |].
  destruct (String.eqb_spec (type config) "logarithmic") as [Hg | Hng];
    [apply logarithmic_nondecreasing; assumption |].
  destruct (String.eqb_spec (type config) "sigmoid") as [Hm | Hnm];
    [destruct (Hsigmoid Hm); apply sigmoid_nondecreasing; assumption |].
  exfalso. unfold isMonotonicIncreasing in Hmono.
  apply String.eqb_neq in Hnl, Hne, Hns, Hng, Hnm.
  rewrite Hnl, Hne, Hns, Hng, Hnm in Hmono. discriminate Hmono.
Qed.

(** C5 (amended). On a configuration that [isMonotonicIncreasing] accepts
    and whose value sequence does not decrease on [0..maxIndex], for an
    index [n] of that range whose value is positive, [findClosestIndex]
    called on the value at [n] returns an index of the range with exactly
    that value.  Accepted linear and exponential configurations are of
    that kind.  On every configuration a target that is not positive
    gives index 0. *)
Theorem findClosestIndex_monotone_exact :
  (forall config maxIndex n,
     isMonotonicIncreasing config = Ok true ->
     nondecreasing config maxIndex ->
     0 <= n <= maxIndex ->
     0 < valueAt config n ->
     exists r, findClosestIndex config (valueAt config n) (Some maxIndex) = Ok r
               /\ 0 <= r <= maxIndex
               /\ valueAt config r = valueAt config n)
  /\ (forall config maxIndex n,
        type config = "linear" \/ type config = "exponential" ->
        isMonotonicIncreasing config = Ok true ->
        0 <= n <= maxIndex ->
        0 < valueAt config n ->
        exists r, findClosestIndex config (valueAt config n) (Some maxIndex) = Ok r
                  /\ 0 <= r <= maxIndex
                  /\ valueAt config r = valueAt config n)
  /\ (forall config targetValue maxIndex,
        targetValue <= 0 -> findClosestIndex config targetValue maxIndex = Ok 0).
Proof.
  split; [apply findClosestIndex_exact |].
  split; [| apply findClosestIndex_nonpositive].
  intros config maxIndex n Htype Hmono Hn Hpos.
  apply findClosestIndex_exact; try assumption.
  destruct Htype as [Htype | Htype];
    [apply linear_nondecreasing | apply exponential_nondecreasing]; assumption.
Qed.

(** With monotone platform functions the same holds of every accepted
    configuration, a sigmoid under the proviso on [max] and [k]. *)
Lemma findClosestIndex_accepted_exact (config : SliceSequenceConfig) (maxIndex n : Z) :
  MathLaws ML ->
  isMonotonicIncreasing config = Ok true ->
  (type config = "sigmoid" ->
   (0 <= nullish (optField (defaultParams (params config)) max) 100)%Q
   /\ (0 <= nullish (optField (defaultParams (params config)) k) (2 # 10))%Q) ->
  0 <= n <= maxIndex ->
  0 < valueAt config n ->
  exists r, findClosestIndex config (valueAt config n) (Some maxIndex) = Ok r
            /\ 0 <= r <= maxIndex
            /\ valueAt config r = valueAt config n.
Proof.
  intros Laws Hmono Hsigmoid Hn Hpos.
  apply findClosestIndex_exact; try assumption.
  apply accepted_nondecreasing; assumption.
Qed.

End Monotonicity.

(** ** Reasoning about the service monad *)

Lemma bind_run {A B} (m : M A) (f : A -> M B) (w : World) :
  bind m f w = match m w with
               | (Ok a, w') => f a w'
               | (Throw e, w') => (Throw e, w')
               end.
Proof. reflexivity. Qed.

Lemma findOne_run {ML : MathLib} (sliceId : string) (w : World) (s : Slice) :
  slices w !! sliceId = Some s -> findOne sliceId w = (Ok s, w).
Proof.
  intros Hs. unfold findOne, slice_findUnique, gets. rewrite bind_run, Hs. reflexivity.
Qed.

Lemma findOne_missing {ML : MathLib} (sliceId : string) (w : World) :
  slices w !! sliceId = None -> exists e, findOne sliceId w = (Throw e, w).
Proof.
  intros Hs. unfold findOne, slice_findUnique, gets. rewrite bind_run, Hs.
  eexists. reflexivity.
Qed.

Lemma audit_then_mutate_run (row : Z -> SliceUpdate) (f : Slice -> Slice)
    (sliceId : string) (s : Slice) (w : World) :
  slices w !! sliceId = Some s ->
  (let! _ := sliceUpdate_create row in
   let! updatedSlice := slice_update sliceId f in
   ret updatedSlice) w
  = auditThenMutate w sliceId (row (clock w)) (f s).
Proof.
  intros Hs. unfold auditThenMutate, sliceUpdate_create, slice_update, slice_findUnique,
    gets, persist, ret, throw, bind.
  destruct (faultAfter w) as [[| [| n]] |] eqn:Hf;
    cbn; rewrite ?Hs; cbn; rewrite ?Hf; reflexivity.
Qed.

Section UpdateEngine.
Context {ML : MathLib}.

Lemma updateBySteps_run (w : World) (sliceId : string) (steps : Z)
    (notes : option string) (automatic : option bool) (slice : Slice) :
  slices w !! sliceId = Some slice ->
  isComposite slice = false ->
  let newIndex := Z.max 0 (Z.min (currentIndex slice + steps) MAX_INDEX) in
  let newValue := valueAt (selectConfig (steps >=? 0) slice) newIndex in
  updateBySteps sliceId steps notes automatic w
  = auditThenMutate w sliceId
      (mkSliceUpdate sliceId steps "steps" (currentValue slice) newValue
         (currentIndex slice) newIndex (clock w) notes (nullish automatic false))
      (setIndexValue newIndex newValue slice).
Proof.
  intros Hs Hc. cbv zeta. unfold updateBySteps.
  rewrite bind_run, (findOne_run _ _ _ Hs), Hc.
  rewrite bind_run, calculateValue_Ok. unfold lift.
  rewrite (audit_then_mutate_run _ _ sliceId slice w Hs). reflexivity.
Qed.

Lemma updateByPercentage_run (w : World) (sliceId : string) (percentage : Z)
    (notes : option string) (slice : Slice) (newIndex : Z) :
  slices w !! sliceId = Some slice ->
  isComposite slice = false ->
  let targetValue :=
    Z.max 0 (Math_floor (inject_Z (currentValue slice)
                         * (1 + inject_Z percentage / 100))%Q) in
  let config := selectConfig (percentage >=? 0) slice in
  findClosestIndex config targetValue (Some MAX_INDEX) = Ok newIndex ->
  let newValue := valueAt config newIndex in
  updateByPercentage sliceId percentage notes w
  = auditThenMutate w sliceId
      (mkSliceUpdate sliceId percentage "percentage" (currentValue slice) newValue
         (currentIndex slice) newIndex (clock w) notes false)
      (setIndexValue newIndex newValue slice).
Proof.
  intros Hs Hc. cbv zeta. intros Hfind. unfold updateByPercentage.
  rewrite bind_run, (findOne_run _ _ _ Hs), Hc.
  rewrite bind_run, Hfind. unfold lift at 1.
  rewrite bind_run, calculateValue_Ok. unfold lift.
  rewrite (audit_then_mutate_run _ _ sliceId slice w Hs). reflexivity.
Qed.

Lemma updateToValue_run (w : World) (sliceId : string) (value : Z)
    (notes : option string) (slice : Slice) (newIndex : Z) :
  slices w !! sliceId = Some slice ->
  isComposite slice = false ->
  0 <= value ->
  let config := selectConfig (value >=? currentValue slice) slice in
  findClosestIndex config value (Some MAX_INDEX) = Ok newIndex ->
  let newValue := valueAt config newIndex in
  updateToValue sliceId value notes w
  = auditThenMutate w sliceId
      (mkSliceUpdate sliceId value "absolute" (currentValue slice) newValue
         (currentIndex slice) newIndex (clock w) notes false)
      (setIndexValue newIndex newValue slice).
Proof.
  intros Hs Hc Hv. cbv zeta. intros Hfind. unfold updateToValue.
  rewrite bind_run, (findOne_run _ _ _ Hs), Hc.
  destruct (Z.ltb_spec value 0); [lia |].
  rewrite bind_run, Hfind. unfold lift at 1.
  rewrite bind_run, calculateValue_Ok. unfold lift.
  rewrite (audit_then_mutate_run _ _ sliceId slice w Hs). reflexivity.
Qed.


(** C2 (amended). Each of the three updates writes the audit row first
    and the slice second, as two separate writes with no transaction
    around them: when the store fails on the first write neither is
    applied, when it fails on the second the audit row stays while the
    slice keeps its old index and value, and when it fails on neither
    both are applied and the row records the index and value the slice
    now has. *)
Theorem audit_and_mutation_are_two_writes (w : World) (sliceId : string) (slice : Slice)
    (notes : option string) :
  slices w !! sliceId = Some slice ->
  isComposite slice = false ->
  (forall steps automatic,
     exists row updated,
       updateBySteps sliceId steps notes automatic w
       = auditThenMutate w sliceId row updated
       /\ indexAfter row = currentIndex updated /\ valueAfter row = currentValue updated
       /\ deltaType row = "steps")
  /\ (forall percentage newIndex,
        findClosestIndex (selectConfig (percentage >=? 0) slice)
          (Z.max 0 (Math_floor (inject_Z (currentValue slice)
                                * (1 + inject_Z percentage / 100))%Q))
          (Some MAX_INDEX) = Ok newIndex ->
        exists row updated,
          updateByPercentage sliceId percentage notes w
          = auditThenMutate w sliceId row updated
          /\ indexAfter row = currentIndex updated /\ valueAfter row = currentValue updated
          /\ deltaType row = "percentage")
  /\ (forall value newIndex,
        0 <= value ->
        findClosestIndex (selectConfig (value >=? currentValue slice) slice) value
          (Some MAX_INDEX) = Ok newIndex ->
        exists row updated,
          updateToValue sliceId value notes w
          = auditThenMutate w sliceId row updated
          /\ indexAfter row = currentIndex updated /\ valueAfter row = currentValue updated
          /\ deltaType row = "absolute").
Proof.
  intros Hs Hc. split; [| split].
  - intros steps automatic. eexists _, _. split.
    + apply (updateBySteps_run w sliceId steps notes automatic slice Hs Hc).
    + repeat split.
  - intros percentage newIndex Hfind. eexists _, _. split.
    + apply (updateByPercentage_run w sliceId percentage notes slice newIndex Hs Hc Hfind).
    + repeat split.
  - intros value newIndex Hv Hfind. eexists _, _. split.
    + apply (updateToValue_run w sliceId value notes slice newIndex Hs Hc Hv Hfind).
    + repeat split.
Qed.

End UpdateEngine.

(** ** Relations kept by every run of a service *)

Section Keeps.
Context (R : World -> World -> Prop) {HR : PreOrder R}.

Lemma keeps_ret {A} (a : A) : keeps R (ret a).
Proof using HR. intros w r w' [= _ <-]. reflexivity. Qed.

Lemma keeps_throw {A} (e : Error) : keeps R (throw (A := A) e).
Proof using HR. intros w r w' [= _ <-]. reflexivity. Qed.

Lemma keeps_gets {A} (f : World -> A) : keeps R (gets f).
Proof using HR. intros w r w' [= _ <-]. reflexivity. Qed.

Lemma keeps_lift {A} (x : Result A) : keeps R (lift x).
Proof using HR. intros w r w' [= _ <-]. reflexivity. Qed.

Lemma keeps_bind {A B} (m : M A) (f : A -> M B) :
  keeps R m -> (forall a, keeps R (f a)) -> keeps R (bind m f).
Proof using HR.
  intros Hm Hf w r w'. unfold bind.
  destruct (m w) as [[a | e] w1] eqn:Hrun.
  - intros Hrest. transitivity w1; [eapply Hm | eapply Hf]; eassumption.
  - intros [= _ <-]. eapply Hm; eassumption.
Qed.

Lemma keeps_bind_lift {A B} (x : Result A) (f : A -> M B) :
  (forall a, x = Ok a -> keeps R (f a)) -> keeps R (bind (lift x) f).
Proof using HR.
  intros Hf w r w'. unfold bind, lift. destruct x as [a | e].
  - apply (Hf a eq_refl).
  - intros [= _ <-]. reflexivity.
Qed.

Lemma keeps_catchLog (m : M unit) : keeps R m -> keeps R (catchLog m).
Proof using HR.
  intros Hm w r w'. unfold catchLog.
  destruct (m w) as [[a | e] w1] eqn:Hrun; intros [= _ <-]; eapply Hm; eassumption.
Qed.

Lemma keeps_forEach {A} (xs : list A) (body : A -> M unit) :
  (forall x, keeps R (body x)) -> keeps R (forEach xs body).
Proof using HR.
  intros Hbody. induction xs as [| x rest IH]; cbn [forEach].
  - apply keeps_ret.
  - apply keeps_bind; [apply Hbody | intros _; exact IH].
Qed.

Lemma keeps_persist (f : World -> World) :
  (forall w, R w (f w)) -> (forall w n, R w (setFaultAfter n w)) -> keeps R (persist f).
Proof using HR.
  intros Hf Hfault w r w'. unfold persist.
  destruct (faultAfter w) as [[| n] |]; intros [= _ <-].
  - reflexivity.
  - transitivity (f w); [apply Hf | apply Hfault].
  - apply Hf.
Qed.

End Keeps.

Ltac keeps_step :=
  lazymatch goal with
  | |- keeps _ (bind (lift _) _) => apply keeps_bind_lift; [assumption || exact _ |]; intros ? ?
  | |- keeps _ (bind _ _) => apply keeps_bind; [assumption || exact _ | | intros ?]
  | |- keeps _ (ret _) => apply keeps_ret; assumption || exact _
  | |- keeps _ (throw _) => apply keeps_throw; assumption || exact _
  | |- keeps _ (gets _) => apply keeps_gets; assumption || exact _
  | |- keeps _ (lift _) => apply keeps_lift; assumption || exact _
  | |- keeps _ (catchLog _) => apply keeps_catchLog; [assumption || exact _ |]
  | |- keeps _ (forEach _ _) => apply keeps_forEach; [assumption || exact _ |]; intros ?
  | |- keeps _ (if ?b then _ else _) => destruct b eqn:?
  | |- keeps _ (match ?x with _ => _ end) => destruct x eqn:?
  end.

(** ** The index stays within [0, MAX_INDEX] *)

#[local] Instance survives_preorder (I : World -> Prop) : PreOrder (survives I).
Proof.
  split.
  - intros w Hw. exact Hw.
  - intros w1 w2 w3 H12 H23 Hw. apply H23, H12, Hw.
Qed.

Section IndexRange.
Context {ML : MathLib} (watched : string).

Lemma sliceUpdate_create_keeps_range (row : Z -> SliceUpdate) :
  keeps (survives (indexInRange watched)) (sliceUpdate_create row).
Proof.
  apply keeps_persist; [exact _ | |]; intros w; intros; intros Hw; exact Hw.
Qed.

Lemma slice_update_keeps_range (sliceId : string) (f : Slice -> Slice) :
  (forall s, 0 <= currentIndex (f s) <= MAX_INDEX) ->
  keeps (survives (indexInRange watched)) (slice_update sliceId f).
Proof.
  intros Hf. unfold slice_update, slice_findUnique.
  repeat keeps_step.
  apply keeps_persist; [exact _ | |].
  - intros w Hw s'. cbn. destruct (decide (sliceId = watched)) as [-> | Hne].
    + rewrite lookup_insert_eq. intros [= <-]. apply Hf.
    + rewrite lookup_insert_ne by exact Hne. apply Hw.
  - intros w n Hw. exact Hw.
Qed.

Lemma updateBySteps_keeps_range (sliceId : string) (steps : Z) (notes : option string)
    (automatic : option bool) :
  keeps (survives (indexInRange watched)) (updateBySteps sliceId steps notes automatic).
Proof.
  unfold updateBySteps, findOne, slice_findUnique.
  repeat keeps_step.
  - apply sliceUpdate_create_keeps_range.
  - apply slice_update_keeps_range. intros s. cbn. unfold MAX_INDEX. lia.
Qed.

Lemma updateByPercentage_keeps_range (sliceId : string) (percentage : Z)
    (notes : option string) :
  keeps (survives (indexInRange watched)) (updateByPercentage sliceId percentage notes).
Proof.
  unfold updateByPercentage, findOne, slice_findUnique.
  repeat keeps_step.
  - apply sliceUpdate_create_keeps_range.
  - apply slice_update_keeps_range. intros s. cbn.
    eapply findClosestIndex_bounds; [| eassumption]. unfold MAX_INDEX. lia.
Qed.

Lemma updateToValue_keeps_range (sliceId : string) (value : Z) (notes : option string) :
  keeps (survives (indexInRange watched)) (updateToValue sliceId value notes).
Proof.
  unfold updateToValue, findOne, slice_findUnique.
  repeat keeps_step.
  - apply sliceUpdate_create_keeps_range.
  - apply slice_update_keeps_range. intros s. cbn.
    eapply findClosestIndex_bounds; [| eassumption]. unfold MAX_INDEX. lia.
Qed.

Lemma applyAutomaticPenalty_keeps_range (slice : Slice) (delta : Z) (notes : string) :
  keeps (survives (indexInRange watched)) (applyAutomaticPenalty slice delta notes).
Proof.
  unfold applyAutomaticPenalty. repeat keeps_step. apply updateBySteps_keeps_range.
Qed.

Lemma evaluateScheduledSlice_keeps_range (slice : Slice) (updates : list SliceUpdate)
    (now today : Z) :
  keeps (survives (indexInRange watched)) (evaluateScheduledSlice slice updates now today).
Proof.
  unfold evaluateScheduledSlice, isPastScheduledTime, sliceUpdate_count.
  repeat keeps_step; apply applyAutomaticPenalty_keeps_range.
Qed.

Lemma evaluateContinuousSlice_keeps_range (slice : Slice) (updates : list SliceUpdate)
    (now : Z) :
  keeps (survives (indexInRange watched)) (evaluateContinuousSlice slice updates now).
Proof.
  unfold evaluateContinuousSlice, sliceUpdate_count.
  repeat keeps_step; apply updateBySteps_keeps_range.
Qed.

Lemma runOperation_keeps_range (op : Operation) :
  keeps (survives (indexInRange watched)) (runOperation op).
Proof.
  destruct op; cbn [runOperation].
  - repeat keeps_step. apply updateBySteps_keeps_range.
  - repeat keeps_step. apply updateByPercentage_keeps_range.
  - repeat keeps_step. apply updateToValue_keeps_range.
  - apply applyAutomaticPenalty_keeps_range.
  - unfold checkScheduledSlices, slice_findMany. repeat keeps_step.
    apply evaluateScheduledSlice_keeps_range.
  - unfold checkContinuousSlices, slice_findMany. repeat keeps_step.
    apply evaluateContinuousSlice_keeps_range.
  - unfold resetDailySlices, slice_findMany. repeat keeps_step.
    apply slice_update_keeps_range. intros s. cbn. unfold MAX_INDEX. lia.
Qed.

End IndexRange.

(** C7. Every operation that moves an index (the three updates, the
    automatic penalty and the sweeps that apply it, the daily reset)
    leaves the [currentIndex] of a slice within [0, 10000] when it was so
    before, whether the operation succeeds, is rejected or meets a
    persistence fault. *)
Theorem index_stays_in_range {ML : MathLib} (op : Operation) (w w' : World)
    (r : Result unit) (sliceId : string) (before after : Slice) :
  slices w !! sliceId = Some before ->
  0 <= currentIndex before <= 10000 ->
  runOperation op w = (r, w') ->
  slices w' !! sliceId = Some after ->
  0 <= currentIndex after <= 10000.
Proof.
  intros Hbefore Hrange Hrun Hafter.
  apply (runOperation_keeps_range sliceId op w r w' Hrun); [| exact Hafter].
  intros s Hs. rewrite Hbefore in Hs. injection Hs as <-. exact Hrange.
Qed.

(** ** Composite aggregation *)

Lemma applyDecay_spec (c : SliceComponent) (now : Z) :
  knownDecayType c -> applyDecay c now = spec_decayedValue now c.
Proof.
  unfold applyDecay, spec_decayedValue, periodMs.
  intros [Hd | [Hd | Hd]]; rewrite Hd; destruct (lastChecked c); reflexivity.
Qed.

(** Outside the three decay types the value is taken as it is. *)
Lemma applyDecay_unknown_type (c : SliceComponent) (now t : Z) :
  lastChecked c = Some t ->
  String.eqb (decayType c) "hourly" = false ->
  String.eqb (decayType c) "daily" = false ->
  String.eqb (decayType c) "weekly" = false ->
  applyDecay c now = inject_Z (c_currentValue c).
Proof.
  intros Ht Hh Hd Hw. unfold applyDecay. rewrite Ht, Hh, Hd, Hw. reflexivity.
Qed.

Lemma accumulate_fold (f : SliceComponent -> Q) (cs : list SliceComponent) (a : Q) (b : Z) :
  (fst (fold_left (accumulate f) cs (a, b))
   == a + sumQ (map (fun c => f c * (inject_Z (weight c) / 100)) cs))%Q
  /\ snd (fold_left (accumulate f) cs (a, b)) = b + sumZ (map weight cs).
Proof.
  revert a b. induction cs as [| c rest IH]; intros a b;
    cbn [fold_left map sumQ sumZ fold_right fst snd].
  - split; [ring | lia].
  - destruct (IH (a + f c * (inject_Z (weight c) / 100))%Q (b + weight c)) as [IHq IHz].
    cbn [accumulate]. split.
    + rewrite IHq. symmetry. apply Qplus_assoc.
    + rewrite IHz. unfold sumZ. lia.
Qed.

Lemma weighted_sum_scale (f : SliceComponent -> Q) (cs : list SliceComponent) :
  (sumQ (map (fun c => f c * (inject_Z (weight c) / 100)) cs) * 100
   == sumQ (map (fun c => f c * inject_Z (weight c)) cs))%Q.
Proof.
  induction cs as [| c rest IH]; cbn [map sumQ fold_right].
  - ring.
  - unfold sumQ in IH. rewrite <- IH. field.
Qed.

Lemma sumQ_ext (f g : SliceComponent -> Q) (cs : list SliceComponent) :
  Forall (fun c => f c = g c) cs -> map f cs = map g cs.
Proof.
  induction 1 as [| c rest Hc _ IH]; cbn [map]; [reflexivity |].
  rewrite Hc, IH. reflexivity.
Qed.

(** What [calculateCompositeValue] computes from the rows it reads. *)
Lemma calculateCompositeValue_run (slice : Slice) (w : World) :
  isComposite slice = true ->
  let cs := filter (fun c => c_sliceId c = id slice) (components w) in
  calculateCompositeValue slice w
  = (Ok (if sumZ (map weight cs) =? 0 then 0
         else Qfloor (sumQ (map (fun c => applyDecay c (clock w) * inject_Z (weight c)) cs)
                      / inject_Z (sumZ (map weight cs)))%Q), w).
Proof.
  intros Hc. cbv zeta. unfold calculateCompositeValue. rewrite Hc. cbn [negb].
  unfold sliceComponent_findMany, gets, bind, ret.
  set (cs := filter (fun c => c_sliceId c = id slice) (components w)).
  destruct cs as [| c0 rest] eqn:Hcs; [reflexivity |]. rewrite <- Hcs.
  replace (length cs =? 0)%nat with false by (rewrite Hcs; reflexivity).
  destruct (accumulate_fold (fun c => applyDecay c (clock w)) cs 0%Q 0) as [Hq Hz].
  destruct (fold_left _ cs (0%Q, 0)) as [weightedSum totalWeight].
  cbn [fst snd] in Hq, Hz. rewrite Z.add_0_l in Hz. rewrite Hz.
  destruct (sumZ (map weight cs) =? 0); [reflexivity |].
  unfold Math_floor. do 2 f_equal. apply Qfloor_comp.
  rewrite Hq, Qplus_0_l, weighted_sum_scale. reflexivity.
Qed.

(** In exact arithmetic, on components that decay hourly, daily or
    weekly, what [calculateCompositeValue] computes is the floor of
    [sum (decayed_i * weight_i) / sum weight_i]: the division of each
    weight by 100 and the multiplication of the sum by 100 cancel.  In
    double arithmetic they do not: the aggregate of [Double] can fall
    one below. *)
Lemma calculateCompositeValue_exact (slice : Slice) (w : World) :
  isComposite slice = true ->
  Forall knownDecayType (filter (fun c => c_sliceId c = id slice) (components w)) ->
  calculateCompositeValue slice w
  = (Ok (spec_compositeValue (clock w)
           (filter (fun c => c_sliceId c = id slice) (components w))), w).
Proof.
  intros Hc Hknown. rewrite (calculateCompositeValue_run slice w Hc). cbv zeta.
  unfold spec_compositeValue.
  rewrite (sumQ_ext (fun c => applyDecay c (clock w) * inject_Z (weight c))%Q
             (fun c => spec_decayedValue (clock w) c * inject_Z (weight c))%Q).
  - reflexivity.
  - eapply Forall_impl; [exact Hknown |]. intros c Hk. cbn.
    rewrite (applyDecay_spec c (clock w) Hk). reflexivity.
Qed.

(** ** Decay and check-off *)

#[local] Instance unchanged_preorder {A} (project : World -> A) : PreOrder (unchanged project).
Proof.
  split.
  - intros w. reflexivity.
  - intros w1 w2 w3 H12 H23. unfold unchanged in *. congruence.
Qed.

Lemma componentFrame_setValue (cid : string) (v : Z) (cs : list SliceComponent) :
  map componentFrame
    (map (fun c => if String.eqb (c_id c) cid then setComponentValue v c else c) cs)
  = map componentFrame cs.
Proof.
  induction cs as [| c rest IH]; cbn [map]; [reflexivity |].
  rewrite IH. destruct (String.eqb (c_id c) cid); reflexivity.
Qed.

Lemma lastChecked_frame (cs : list SliceComponent) :
  map lastChecked (map componentFrame cs) = map lastChecked cs.
Proof. induction cs as [| c rest IH]; cbn [map]; [| rewrite IH]; reflexivity. Qed.

Lemma sliceComponent_update_keeps_frame (cid : string) (v : Z) :
  keeps (unchanged decayFrame) (sliceComponent_update cid (setComponentValue v)).
Proof.
  unfold sliceComponent_update. repeat keeps_step.
  apply keeps_persist; [exact _ | |].
  - intros w. unfold unchanged, decayFrame. cbn. rewrite componentFrame_setValue. reflexivity.
  - intros w n. reflexivity.
Qed.

Lemma sliceComponentUpdate_create_keeps_frame (row : Z -> SliceComponentUpdate) :
  keeps (unchanged decayFrame) (sliceComponentUpdate_create row).
Proof. apply keeps_persist; [exact _ | |]; intros w; reflexivity. Qed.

Lemma slice_update_keeps_frame (sliceId : string) (f : Slice -> Slice) :
  keeps (unchanged decayFrame) (slice_update sliceId f).
Proof.
  unfold slice_update, slice_findUnique. repeat keeps_step.
  apply keeps_persist; [exact _ | |]; intros w; reflexivity.
Qed.

Lemma decayComponent_keeps_frame (component : SliceComponent) (now : Z) :
  keeps (unchanged decayFrame) (decayComponent component now).
Proof.
  unfold decayComponent.
  repeat keeps_step;
    first [apply sliceComponent_update_keeps_frame
          | apply sliceComponentUpdate_create_keeps_frame].
Qed.

Lemma decayComponents_keeps_frame (cs : list SliceComponent) (now : Z) (hasChanges : bool) :
  keeps (unchanged decayFrame) (decayComponents cs now hasChanges).
Proof.
  revert hasChanges. induction cs as [| c rest IH]; intros hasChanges; cbn [decayComponents].
  - apply keeps_ret. exact _.
  - apply keeps_bind; [exact _ | apply decayComponent_keeps_frame | intros decayed; apply IH].
Qed.

Lemma applyCompositeDecay_keeps_frame : keeps (unchanged decayFrame) applyCompositeDecay.
Proof.
  unfold applyCompositeDecay, slice_findMany, decayCompositeSlice,
    recalculateCompositeValue, sliceComponent_findMany.
  repeat keeps_step;
    first [apply decayComponents_keeps_frame | apply slice_update_keeps_frame].
Qed.

(** The slices and the audit log of the components under one decay. *)
Lemma decayComponent_writes (component : SliceComponent) (now : Z) (w w' : World)
    (r : Result bool) :
  decayComponent component now w = (r, w') ->
  slices w' = slices w
  /\ (componentUpdates w' = componentUpdates w
      \/ exists row, componentUpdates w' = (componentUpdates w ++ [row])%list
                     /\ componentId row = c_id component).
Proof.
  unfold decayComponent, sliceComponent_update, sliceComponentUpdate_create, persist,
    gets, ret, throw, bind.
  intros Hrun.
  repeat (cbn [faultAfter components setComponents setFaultAfter setComponentUpdates] in Hrun;
          match type of Hrun with
          | context [match ?x with _ => _ end] =>
              lazymatch x with
              | context [match _ with _ => _ end] => fail
              | _ => destruct x
              end
          end);
    injection Hrun as _ <-;
    (split; [reflexivity | first [left; reflexivity | right; eexists; split; reflexivity]]).
Qed.

(** Run a service whose result is the hypothesis [Hrun]: reduce the
    projections, then settle the innermost scrutinee, by a hypothesis
    that gives its value or else by cases. *)
Ltac run_cases Hrun :=
  repeat (cbn [faultAfter components slices clock tzOffset sliceUpdates componentUpdates
               setComponents setSlices setFaultAfter setComponentUpdates setSliceUpdates
               negb nullish] in Hrun;
          match type of Hrun with
          | context [calculateCompositeValue ?s ?w0] =>
              rewrite (calculateCompositeValue_run s w0) in Hrun by assumption;
              cbv zeta in Hrun
          | context [negb ?b] =>
              first [ match goal with H : b = _ |- _ => rewrite H in Hrun end
                    | destruct b eqn:? ]
          | context [match ?x with _ => _ end] =>
              lazymatch x with
              | context [match _ with _ => _ end] => fail
              | _ => first [ match goal with H : x = _ |- _ => rewrite H in Hrun end
                           | destruct x eqn:? ]
              end
          end);
  try discriminate Hrun.

Lemma updateComponent_checks (sliceId componentKey : string) (value : option Z)
    (notes : option string) (w w' : World) (updated : Slice) :
  updateComponent sliceId componentKey value notes w = (Ok updated, w') ->
  exists component,
    findByKey componentKey (filter (fun c => c_sliceId c = sliceId) (components w))
    = Some component
    /\ components w'
       = map (checkOff component (nullish value (maxValue component)) (clock w))
           (components w).
Proof.
  intros Hrun.
  unfold updateComponent, findWithComponents, slice_update, slice_findUnique,
    sliceComponent_findMany, sliceComponentUpdate_create, sliceComponent_update, persist,
    gets, ret, throw, bind in Hrun.
  run_cases Hrun; injection Hrun as _ <-; eexists; (split; [reflexivity | reflexivity]).
Qed.

#[local] Instance checkedOrKept_preorder : PreOrder checkedOrKept.
Proof.
  split.
  - intros w. split; [reflexivity |].
    induction (components w) as [| c rest IH]; constructor; auto.
  - intros w1 w2 w3 [Hc12 H12] [Hc23 H23]. split; [congruence |].
    revert H23. generalize (components w3). clear Hc23.
    induction H12 as [| c1 c2 l1 l2 [Hid12 Hl12] _ IH]; intros l3 H23;
      inversion H23 as [| c2' c3 l2' l3' [Hid23 Hl23] Hrest]; subst; constructor.
    + split; [congruence |]. rewrite Hc12 in Hl23.
      destruct Hl23 as [-> | ->]; [exact Hl12 | right; reflexivity].
    + apply IH. exact Hrest.
Qed.

Lemma checkedOrKept_same (w w' : World) :
  clock w' = clock w -> components w' = components w -> checkedOrKept w w'.
Proof.
  intros Hclock Hcs. split; [exact Hclock |]. rewrite Hcs.
  generalize (clock w) as t. generalize (components w) as cs.
  induction cs as [| c rest IH]; intros t; constructor;
    [split; [reflexivity | left; reflexivity] | apply IH].
Qed.

Lemma checkedOrKept_checkOff (component : SliceComponent) (v : Z) (w w' : World) :
  clock w' = clock w ->
  components w' = map (checkOff component v (clock w)) (components w) ->
  checkedOrKept w w'.
Proof.
  intros Hclock Hcs. split; [exact Hclock |]. rewrite Hcs.
  generalize (clock w) as t. generalize (components w) as cs.
  induction cs as [| c rest IH]; intros t; cbn [map]; constructor; [| apply IH].
  unfold checkOff. destruct (String.eqb (c_id c) (c_id component)); cbn; auto.
Qed.

Lemma checkOff_checks (component : SliceComponent) (v t : Z) (cs : list SliceComponent) :
  Forall (checkedAt (c_id component) t) (map (checkOff component v t) cs).
Proof.
  induction cs as [| c rest IH]; cbn [map]; constructor; [| exact IH].
  unfold checkOff, checkedAt.
  destruct (String.eqb_spec (c_id c) (c_id component)) as [Heq | Hne].
  - intros _. reflexivity.
  - intros Heq. contradiction.
Qed.

Lemma checkedOrKept_stable (w w' : World) (cid : string) :
  checkedOrKept w w' ->
  Forall (checkedAt cid (clock w)) (components w) ->
  Forall (checkedAt cid (clock w)) (components w').
Proof.
  intros [_ H]. induction H as [| c c' l l' [Hid Hl] _ IH]; intros Hall; [constructor |].
  inversion Hall as [| c0 l0 Hc Hrest]; subst. constructor; [| apply IH; exact Hrest].
  unfold checkedAt in *.
  intros Hcid. destruct Hl as [-> | ->]; [apply Hc; congruence | reflexivity].
Qed.

Lemma checkOffKey_run (snapshot : list SliceComponent) (notes : option string)
    (key : string) (w w' : World) (r : Result unit) :
  checkOffKey snapshot notes key w = (r, w') ->
  checkedOrKept w w'
  /\ (forall component,
        r = Ok tt -> findByKey key snapshot = Some component ->
        Forall (checkedAt (c_id component) (clock w)) (components w')).
Proof.
  intros Hrun.
  unfold checkOffKey, sliceComponentUpdate_create, sliceComponent_update, persist, gets,
    ret, throw, bind in Hrun.
  run_cases Hrun; injection Hrun as <- <-;
    (split;
     [first [apply checkedOrKept_same; reflexivity
            | eapply checkedOrKept_checkOff; reflexivity] |]);
    intros component Hok Hfind; try discriminate Hok; try discriminate Hfind;
    injection Hfind as <-; cbn [components setFaultAfter setComponents];
    apply checkOff_checks.
Qed.

Lemma checkOffKeys_run (snapshot : list SliceComponent) (notes : option string)
    (keys : list string) :
  forall (w w' : World),
    forEach keys (checkOffKey snapshot notes) w = (Ok tt, w') ->
    checkedOrKept w w'
    /\ (forall key component,
          In key keys -> findByKey key snapshot = Some component ->
          Forall (checkedAt (c_id component) (clock w)) (components w')).
Proof.
  induction keys as [| key rest IH]; intros w w' Hrun; cbn [forEach] in Hrun.
  - injection Hrun as <-. split; [reflexivity |]. intros key component [].
  - unfold bind in Hrun.
    destruct (checkOffKey snapshot notes key w) as [[[] | e] w1] eqn:Hhead;
      [| discriminate Hrun].
    destruct (checkOffKey_run _ _ _ _ _ _ Hhead) as [Hkept1 Hchecked1].
    destruct (IH w1 w' Hrun) as [Hkept Hchecked].
    split; [transitivity w1; assumption |].
    assert (Hclock : clock w1 = clock w) by apply Hkept1.
    intros key' component [<- | Hin] Hfind.
    + rewrite <- Hclock. apply (checkedOrKept_stable w1 w' _ Hkept).
      rewrite Hclock. apply (Hchecked1 component eq_refl Hfind).
    + rewrite <- Hclock. apply (Hchecked key' component Hin Hfind).
Qed.

Lemma updateMultipleComponents_checks (sliceId : string) (componentKeys : list string)
    (notes : option string) (w w' : World) (updated : Slice) :
  updateMultipleComponents sliceId componentKeys notes w = (Ok updated, w') ->
  forall key component,
    In key componentKeys ->
    findByKey key (filter (fun c => c_sliceId c = sliceId) (components w)) = Some component ->
    Forall (checkedAt (c_id component) (clock w)) (components w').
Proof.
  intros Hrun key component Hin Hfind.
  unfold updateMultipleComponents, findWithComponents, slice_findUnique,
    sliceComponent_findMany, gets in Hrun.
  rewrite !bind_run in Hrun.
  destruct (slices w !! sliceId) as [slice |] eqn:Hs; [| discriminate Hrun].
  rewrite !bind_run in Hrun. cbn [ret] in Hrun.
  destruct (isComposite slice) eqn:Hc; cbn [negb] in Hrun; [| discriminate Hrun].
  rewrite bind_run in Hrun.
  change (forEach componentKeys _) with
    (forEach componentKeys
       (checkOffKey (filter (fun c => c_sliceId c = sliceId) (components w)) notes)) in Hrun.
  destruct (forEach componentKeys _ w) as [[[] | e] w1] eqn:Hloop; [| discriminate Hrun].
  destruct (checkOffKeys_run _ _ _ _ _ Hloop) as [_ Hchecked].
  specialize (Hchecked key component Hin Hfind).
  rewrite bind_run, calculateCompositeValue_run in Hrun by exact Hc. cbv zeta in Hrun.
  unfold slice_update, slice_findUnique, persist, gets, ret, throw, bind in Hrun.
  run_cases Hrun; injection Hrun as _ <-; exact Hchecked.
Qed.

Lemma runOperation_keeps_components {ML : MathLib} (op : Operation) :
  keeps (unchanged components) (runOperation op).
Proof.
  assert (Hcreate : forall row, keeps (unchanged components) (sliceUpdate_create row))
    by (intros row; apply keeps_persist; [exact _ | |]; intros w; reflexivity).
  assert (Hupdate : forall sliceId f, keeps (unchanged components) (slice_update sliceId f)).
  { intros sliceId f. unfold slice_update, slice_findUnique. repeat keeps_step.
    apply keeps_persist; [exact _ | |]; intros w; reflexivity. }
  assert (Hsteps : forall sliceId steps notes automatic,
             keeps (unchanged components) (updateBySteps sliceId steps notes automatic)).
  { intros. unfold updateBySteps, findOne, slice_findUnique.
    repeat keeps_step; [apply Hcreate | apply Hupdate]. }
  destruct op; cbn [runOperation].
  - repeat keeps_step. apply Hsteps.
  - unfold updateByPercentage, findOne, slice_findUnique.
    repeat keeps_step; [apply Hcreate | apply Hupdate].
  - unfold updateToValue, findOne, slice_findUnique.
    repeat keeps_step; [apply Hcreate | apply Hupdate].
  - unfold applyAutomaticPenalty. repeat keeps_step. apply Hsteps.
  - unfold checkScheduledSlices, slice_findMany, evaluateScheduledSlice,
      isPastScheduledTime, sliceUpdate_count, applyAutomaticPenalty.
    repeat keeps_step; apply Hsteps.
  - unfold checkContinuousSlices, slice_findMany, evaluateContinuousSlice,
      sliceUpdate_count.
    repeat keeps_step; apply Hsteps.
  - unfold resetDailySlices, slice_findMany. repeat keeps_step. apply Hupdate.
Qed.

(** C8. A decay of a component rewrites no column of any component
    except [currentValue], so no [lastChecked], and at most appends one
    audit row for that component; slices and their history are not
    touched by it.  The whole hourly decay run keeps every column but
    [currentValue] as well.  A successful [updateComponent] stamps the
    component it finds under the key with the time of the call, and a
    successful [updateMultipleComponents] stamps every component it finds
    under one of its keys.  The operations of the update engine and the
    penalty sweeps leave the components as they are. *)
Theorem decay_never_touches_lastChecked {ML : MathLib} :
  (forall component now w w' r,
     decayComponent component now w = (r, w') ->
     map componentFrame (components w') = map componentFrame (components w)
     /\ map lastChecked (components w') = map lastChecked (components w)
     /\ slices w' = slices w
     /\ sliceUpdates w' = sliceUpdates w
     /\ (componentUpdates w' = componentUpdates w
         \/ exists row, componentUpdates w' = (componentUpdates w ++ [row])%list
                        /\ componentId row = c_id component))
  /\ (forall w w' r,
        applyCompositeDecay w = (r, w') ->
        map componentFrame (components w') = map componentFrame (components w)
        /\ map lastChecked (components w') = map lastChecked (components w))
  /\ (forall sliceId componentKey value notes w w' updated,
        updateComponent sliceId componentKey value notes w = (Ok updated, w') ->
        exists component,
          findByKey componentKey
            (filter (fun c => c_sliceId c = sliceId) (components w)) = Some component
          /\ components w'
             = map (checkOff component (nullish value (maxValue component)) (clock w))
                 (components w))
  /\ (forall sliceId componentKeys notes w w' updated,
        updateMultipleComponents sliceId componentKeys notes w = (Ok updated, w') ->
        forall key component,
          In key componentKeys ->
          findByKey key (filter (fun c => c_sliceId c = sliceId) (components w))
          = Some component ->
          Forall (checkedAt (c_id component) (clock w)) (components w'))
  /\ (forall op w w' r, runOperation op w = (r, w') -> components w' = components w).
Proof.
  split; [| split; [| split; [| split]]].
  - intros component now w w' r Hrun.
    pose proof (decayComponent_keeps_frame component now w r w' Hrun) as Hframe.
    unfold unchanged, decayFrame in Hframe. injection Hframe as Hcs Hupdates _.
    destruct (decayComponent_writes component now w w' r Hrun) as [Hslices Hrows].
    split; [exact Hcs |]. split; [| split; [exact Hslices | split; [exact Hupdates | exact Hrows]]].
    rewrite <- (lastChecked_frame (components w')), Hcs. apply lastChecked_frame.
  - intros w w' r Hrun.
    pose proof (applyCompositeDecay_keeps_frame w r w' Hrun) as Hframe.
    unfold unchanged, decayFrame in Hframe. injection Hframe as Hcs _ _.
    split; [exact Hcs |].
    rewrite <- (lastChecked_frame (components w')), Hcs. apply lastChecked_frame.
  - apply updateComponent_checks.
  - apply updateMultipleComponents_checks.
  - intros op w w' r Hrun. apply (runOperation_keeps_components op w r w' Hrun).
Qed.

(** ** An explicit value of 0 *)

Lemma findByKey_exists (componentKey sliceId : string) (cs : list SliceComponent)
    (component : SliceComponent) :
  findByKey componentKey (filter (fun c => c_sliceId c = sliceId) cs) = Some component ->
  existsb (fun c => String.eqb (c_id c) (c_id component)) cs = true.
Proof.
  intros Hfind. unfold findByKey in Hfind. apply find_some in Hfind as [Hin _].
  apply existsb_exists. exists component. split.
  - apply list_elem_of_In. apply list_elem_of_In in Hin.
    apply list_elem_of_filter in Hin. apply Hin.
  - apply String.eqb_refl.
Qed.

Lemma findByKey_checkOff (componentKey sliceId : string) (cs : list SliceComponent)
    (component : SliceComponent) (v t : Z) :
  findByKey componentKey (filter (fun c => c_sliceId c = sliceId) cs) = Some component ->
  findByKey componentKey
    (filter (fun c => c_sliceId c = sliceId) (map (checkOff component v t) cs))
  = Some (setComponentChecked v t component).
Proof.
  unfold findByKey. induction cs as [| c rest IH]; cbn [map]; [discriminate |].
  assert (Hsid : c_sliceId (checkOff component v t c) = c_sliceId c)
    by (unfold checkOff; destruct (String.eqb _ _); reflexivity).
  assert (Hkey : key (checkOff component v t c) = key c)
    by (unfold checkOff; destruct (String.eqb _ _); reflexivity).
  rewrite !filter_cons. rewrite Hsid.
  destruct (decide (c_sliceId c = sliceId)) as [_ | _]; [| exact IH].
  cbn [List.find]. rewrite Hkey.
  destruct (String.eqb (key c) componentKey); [| exact IH].
  intros [= ->]. unfold checkOff. rewrite String.eqb_refl. reflexivity.
Qed.

Lemma updateComponent_accepts (sliceId componentKey : string) (value : option Z)
    (notes : option string) (w : World) (slice : Slice) (component : SliceComponent) :
  slices w !! sliceId = Some slice ->
  isComposite slice = true ->
  faultAfter w = None ->
  findByKey componentKey (filter (fun c => c_sliceId c = sliceId) (components w))
  = Some component ->
  0 <= nullish value (maxValue component) <= maxValue component ->
  exists updated w',
    updateComponent sliceId componentKey value notes w = (Ok updated, w').
Proof.
  intros Hs Hc Hf Hfind Hrange.
  pose proof (findByKey_exists _ _ _ _ Hfind) as Hexists.
  assert (Hcheck : (nullish value (maxValue component) <? 0)
                   || (nullish value (maxValue component) >? maxValue component) = false).
  { apply orb_false_intro; [| rewrite Z.gtb_ltb]; apply Z.ltb_ge; lia. }
  destruct (updateComponent sliceId componentKey value notes w) as [[updated | e] w']
    eqn:Hrun; [eauto |]. exfalso.
  unfold updateComponent, findWithComponents, slice_update, slice_findUnique,
    sliceComponent_findMany, sliceComponentUpdate_create, sliceComponent_update, persist,
    gets, ret, throw, bind in Hrun.
  run_cases Hrun.
Qed.

(** C9. With the explicit value 0 [updateComponent] passes the range
    check (the range [0..maxValue] is not empty) and leaves the component
    with [currentValue] 0, checked at the time of the call; with the
    value omitted it leaves it with [currentValue = maxValue].  The
    default stands for an omitted value only, and is not taken for a 0.
    No other column of the component and no other component changes. *)
Theorem updateComponent_explicit_zero (sliceId componentKey : string)
    (notes : option string) (w : World) (slice : Slice) (component : SliceComponent) :
  slices w !! sliceId = Some slice ->
  isComposite slice = true ->
  faultAfter w = None ->
  findByKey componentKey (filter (fun c => c_sliceId c = sliceId) (components w))
  = Some component ->
  0 <= maxValue component ->
  (exists updated w' stored,
     updateComponent sliceId componentKey (Some 0) notes w = (Ok updated, w')
     /\ findByKey componentKey (filter (fun c => c_sliceId c = sliceId) (components w'))
        = Some stored
     /\ c_currentValue stored = 0
     /\ lastChecked stored = Some (clock w)
     /\ componentColumns stored = componentColumns component
     /\ components w' = map (checkOff component 0 (clock w)) (components w)
     /\ Forall2 (fun c c' => c_id c <> c_id component -> c' = c)
          (components w) (components w'))
  /\ (exists updated w' stored,
        updateComponent sliceId componentKey None notes w = (Ok updated, w')
        /\ findByKey componentKey
             (filter (fun c => c_sliceId c = sliceId) (components w'))
           = Some stored
        /\ c_currentValue stored = maxValue component
        /\ lastChecked stored = Some (clock w)
        /\ componentColumns stored = componentColumns component
        /\ components w'
           = map (checkOff component (maxValue component) (clock w)) (components w)
        /\ Forall2 (fun c c' => c_id c <> c_id component -> c' = c)
             (components w) (components w')).
Proof.
  intros Hs Hc Hf Hfind Hmax.
  assert (Hothers : forall v t cs,
            Forall2 (fun c c' => c_id c <> c_id component -> c' = c)
              cs (map (checkOff component v t) cs)).
  { intros v t cs. induction cs as [| c rest IH]; cbn [map]; constructor; [| exact IH].
    intros Hne. unfold checkOff.
    destruct (String.eqb_spec (c_id c) (c_id component)); [contradiction | reflexivity]. }
  split.
  - destruct (updateComponent_accepts sliceId componentKey (Some 0) notes w slice component
                Hs Hc Hf Hfind) as [updated [w' Hrun]]; [cbn [nullish]; lia |].
    exists updated, w', (setComponentChecked 0 (clock w) component).
    split; [exact Hrun |].
    destruct (updateComponent_checks _ _ _ _ _ _ _ Hrun) as [component' [Hfind' Hcs]].
    rewrite Hfind in Hfind'. injection Hfind' as <-. cbn [nullish] in Hcs.
    split; [rewrite Hcs; apply findByKey_checkOff; exact Hfind |].
    repeat (split; [reflexivity |]).
    split; [exact Hcs | rewrite Hcs; apply Hothers].
  - destruct (updateComponent_accepts sliceId componentKey None notes w slice component
                Hs Hc Hf Hfind) as [updated [w' Hrun]]; [cbn [nullish]; lia |].
    exists updated, w', (setComponentChecked (maxValue component) (clock w) component).
    split; [exact Hrun |].
    destruct (updateComponent_checks _ _ _ _ _ _ _ Hrun) as [component' [Hfind' Hcs]].
    rewrite Hfind in Hfind'. injection Hfind' as <-. cbn [nullish] in Hcs.
    split; [rewrite Hcs; apply findByKey_checkOff; exact Hfind |].
    repeat (split; [reflexivity |]).
    split; [exact Hcs | rewrite Hcs; apply Hothers].
Qed.


(** ** The scheduled sweep, run twice *)

Section ScheduledSweep.
Context {ML : MathLib}.

(** C1 (the code departs from it). The slice is due at 09:00 with 30
    minutes of grace and one penalty per 15 minutes; it is 10:00 and
    nothing was reported, so two penalties are due.  The first sweep
    applies both in one row; the second sweep, at the same instant, counts
    that one row as one penalty, finds one penalty left to apply and
    writes a second row. *)
Theorem scheduled_second_run_applies_again :
  let w0 := Examples.nutritionWorld in
  let w1 := snd (checkScheduledSlices w0) in
  let w2 := snd (checkScheduledSlices w1) in
  clock w1 = clock w0
  /\ map Examples.updateOf (sliceUpdates w1)
     = [(-2, 8, 8, true, Some "Scheduled penalty: 2x -1 (30 min late)")]
  /\ map Examples.updateOf (sliceUpdates w2)
     = [(-2, 8, 8, true, Some "Scheduled penalty: 2x -1 (30 min late)");
        (-1, 7, 7, true, Some "Scheduled penalty: 1x -1 (30 min late)")]
  /\ Examples.indexOf "2" w1 = Some 8
  /\ Examples.indexOf "2" w2 = Some 7
  /\ slices w1 !! "2" = Some (setIndexValue 8 8 Examples.nutrition)
  /\ snd (evaluateScheduledSlice (setIndexValue 8 8 Examples.nutrition)
            (takeLatest "2" (sliceUpdates w1)) (clock w1)
            (getStartOfDay (tzOffset w1) (clock w1)) w1) = w2.
Proof. cbv zeta. repeat split; vm_compute; reflexivity. Qed.

End ScheduledSweep.

(** * Instances and counterexamples *)

Section Instances.
Import Examples.
#[local] Existing Instance refMath.

(** The cases of the unit tests of the formula service. *)

Example linear_multiplier_5 :
  map (valueAt (linear 5 0)) [0; 1; 2; 10] = [0; 5; 10; 50].
Proof. reflexivity. Qed.

Example linear_with_offset :
  map (valueAt (linear 2 10)) [0; 1; 5] = [10; 12; 20].
Proof. reflexivity. Qed.

Example linear_floors :
  map (valueAt (linear (15 # 10) 0)) [1; 2; 3] = [1; 3; 4].
Proof. reflexivity. Qed.

Example exponential_base_2 :
  map (valueAt (exponential 2)) [0; 1; 2; 3; 10] = [1; 2; 4; 8; 1024].
Proof. reflexivity. Qed.

Example exponential_gym :
  map (valueAt (exponential (115 # 100))) [0; 1; 2; 3; 4; 5] = [1; 1; 1; 1; 1; 2].
Proof. reflexivity. Qed.

Example sqrt_multiplier_2 :
  map (valueAt (mkConfig "sqrt" (linearParams 2))) [0; 1; 4; 9] = [0; 2; 4; 6].
Proof. vm_compute. reflexivity. Qed.

Example logarithmic_multiplier_10 :
  map (valueAt (mkConfig "logarithmic" (linearParams 10))) [0; 1; 2; 9] = [0; 6; 10; 23].
Proof. vm_compute. reflexivity. Qed.

Example sigmoid_defaults :
  map (valueAt (mkConfig "sigmoid" ParamsUndefined)) [0; 15; 30] = [4; 50; 95].
Proof. vm_compute. reflexivity. Qed.

Example negative_index_clamps : calculateValue (linear 1 0) (-5) = Ok 0.
Proof. reflexivity. Qed.

Example closest_index_linear :
  map (fun t => findClosestIndex (linear 5 0) t None) [0; 5; 10; 50; 7]
  = [Ok 0; Ok 1; Ok 2; Ok 10; Ok 1].
Proof. vm_compute. reflexivity. Qed.

Example closest_index_exponential :
  map (fun t => findClosestIndex (exponential 2) t None) [1; 2; 4; 8; 16]
  = [Ok 0; Ok 1; Ok 2; Ok 3; Ok 4].
Proof. vm_compute. reflexivity. Qed.

(** [isMonotonicIncreasing] reads [params.multiplier] without the
    optional chaining of the formulas: null parameters raise. *)
Example closest_index_null_params :
  calculateValue (mkConfig "linear" ParamsNull) 5 = Ok 5
  /\ findClosestIndex (mkConfig "linear" ParamsNull) 5 None
     = Throw (TypeError "Cannot read properties of null (reading 'multiplier')").
Proof. split; reflexivity. Qed.


(** C5, refuted as stated. The curve [n - 10] is linear with multiplier
    1, so [isMonotonicIncreasing] accepts it and one step of it is 1; its
    value at index 5 is -5, a value that index 5 matches exactly, and yet
    the search for -5 answers index 0, whose value -10 is five steps
    away. *)
Lemma findClosestIndex_misses_nonpositive_value :
  isMonotonicIncreasing (linear 1 (-10)) = Ok true
  /\ valueAt (linear 1 (-10)) 5 = -5
  /\ valueAt (linear 1 (-10)) 1 - valueAt (linear 1 (-10)) 0 = 1
  /\ findClosestIndex (linear 1 (-10)) (valueAt (linear 1 (-10)) 5) (Some 1000) = Ok 0
  /\ ~ (exists r,
          findClosestIndex (linear 1 (-10)) (valueAt (linear 1 (-10)) 5) (Some 1000) = Ok r
          /\ Z.abs (valueAt (linear 1 (-10)) r - valueAt (linear 1 (-10)) 5) <= 1).
Proof.
  repeat split; try reflexivity.
  intros [r [Hr Hclose]]. vm_compute in Hr. injection Hr as <-.
  vm_compute in Hclose. apply Hclose. reflexivity.
Qed.

Lemma findClosestIndex_monotone_exact_witness :
  (exists r, findClosestIndex (linear 5 0) 10 (Some 1000) = Ok r
             /\ 0 <= r <= 1000 /\ valueAt (linear 5 0) r = 10)
  /\ (exists r, findClosestIndex (exponential 2) 8 (Some 1000) = Ok r
                /\ 0 <= r <= 1000 /\ valueAt (exponential 2) r = 8)
  /\ findClosestIndex (linear 5 0) 0 None = Ok 0.
Proof.
  split; [| split].
  - apply (proj1 findClosestIndex_monotone_exact (linear 5 0) 1000 2).
    + reflexivity.
    + apply linear_nondecreasing; reflexivity.
    + lia.
    + reflexivity.
  - apply (proj1 (proj2 findClosestIndex_monotone_exact) (exponential 2) 1000 3).
    + right. reflexivity.
    + reflexivity.
    + lia.
    + reflexivity.
  - apply (proj2 (proj2 findClosestIndex_monotone_exact)). lia.
Defined.

(** C2, refuted as stated. The store takes the audit row and fails on the
    write of the slice: the history then holds a row whose index after the
    update is not the index of the slice, for each of the three updates. *)
Lemma audit_row_without_slice_mutation :
  (let w' := snd (updateBySteps "1" 2 None None failingGymWorld) in
   fst (updateBySteps "1" 2 None None failingGymWorld) = Throw PersistenceFault
   /\ map indexAfter (sliceUpdates w') = [7] /\ indexOf "1" w' = Some 5)
  /\ (let w' := snd (updateByPercentage "1" 50 None failingGymWorld) in
      map indexAfter (sliceUpdates w') = [3] /\ indexOf "1" w' = Some 5)
  /\ (let w' := snd (updateToValue "1" 9 None failingGymWorld) in
      map indexAfter (sliceUpdates w') = [9] /\ indexOf "1" w' = Some 5).
Proof. vm_compute. repeat split; reflexivity. Qed.

Lemma audit_and_mutation_are_two_writes_witness :
  (exists row updated,
     updateBySteps "1" 2 None None failingGymWorld
     = auditThenMutate failingGymWorld "1" row updated
     /\ indexAfter row = currentIndex updated /\ valueAfter row = currentValue updated
     /\ deltaType row = "steps")
  /\ (exists row updated,
        updateByPercentage "1" 50 None failingGymWorld
        = auditThenMutate failingGymWorld "1" row updated
        /\ indexAfter row = currentIndex updated /\ valueAfter row = currentValue updated
        /\ deltaType row = "percentage")
  /\ (exists row updated,
        updateToValue "1" 9 None failingGymWorld
        = auditThenMutate failingGymWorld "1" row updated
        /\ indexAfter row = currentIndex updated /\ valueAfter row = currentValue updated
        /\ deltaType row = "absolute").
Proof.
  destruct (audit_and_mutation_are_two_writes failingGymWorld "1" gym None
              eq_refl eq_refl) as [Hsteps [Hpercentage Habsolute]].
  split; [| split].
  - apply (Hsteps 2 None).
  - apply (Hpercentage 50 3). reflexivity.
  - apply (Habsolute 9 9); [lia | reflexivity].
Defined.

Lemma index_stays_in_range_witness :
  slices (snd (runOperation (OpUpdateBySteps "1" 20000 None None) gymWorld)) !! "1"
  = Some (setIndexValue 10000 10000 gym)
  /\ 0 <= currentIndex (setIndexValue 10000 10000 gym) <= 10000.
Proof.
  split; [vm_compute; reflexivity |].
  apply (index_stays_in_range (OpUpdateBySteps "1" 20000 None None) gymWorld
           (snd (runOperation (OpUpdateBySteps "1" 20000 None None) gymWorld))
           (fst (runOperation (OpUpdateBySteps "1" 20000 None None) gymWorld))
           "1" gym (setIndexValue 10000 10000 gym)).
  - vm_compute. reflexivity.
  - vm_compute. split; discriminate.
  - apply surjective_pairing.
  - vm_compute. reflexivity.
Defined.

Lemma decay_never_touches_lastChecked_witness :
  (map lastChecked (components (snd (decayComponent shower (clock staleHygieneWorld)
                                       staleHygieneWorld)))
   = map lastChecked (components staleHygieneWorld)
   /\ map c_currentValue (components (snd (decayComponent shower (clock staleHygieneWorld)
                                            staleHygieneWorld)))
      = [80; 100; 100; 100; 100])
  /\ map lastChecked (components (snd (applyCompositeDecay staleHygieneWorld)))
     = map lastChecked (components staleHygieneWorld)
  /\ (exists component,
        findByKey "teeth" (filter (fun c => c_sliceId c = "3") (components staleHygieneWorld))
        = Some component
        /\ components (snd (updateComponent "3" "teeth" None None staleHygieneWorld))
           = map (checkOff component (nullish None (maxValue component))
                    (clock staleHygieneWorld))
               (components staleHygieneWorld))
  /\ Forall (checkedAt "c1" (clock staleHygieneWorld))
       (components (snd (updateMultipleComponents "3" ["shower"; "soap"] None
                           staleHygieneWorld)))
  /\ components (snd (runOperation (OpUpdateBySteps "1" 2 None None) gymWorld))
     = components gymWorld.
Proof.
  split; [split; [| vm_compute; reflexivity] | split; [| split; [| split]]].
  - apply (proj1 decay_never_touches_lastChecked shower (clock staleHygieneWorld)
             staleHygieneWorld
             (snd (decayComponent shower (clock staleHygieneWorld) staleHygieneWorld))
             (fst (decayComponent shower (clock staleHygieneWorld) staleHygieneWorld))).
    apply surjective_pairing.
  - apply (proj1 (proj2 decay_never_touches_lastChecked) staleHygieneWorld
             (snd (applyCompositeDecay staleHygieneWorld))
             (fst (applyCompositeDecay staleHygieneWorld))).
    apply surjective_pairing.
  - apply (proj1 (proj2 (proj2 decay_never_touches_lastChecked)) "3" "teeth" None None
             staleHygieneWorld
             (snd (updateComponent "3" "teeth" None None staleHygieneWorld))
             (setValue 85 hygiene)).
    vm_compute. reflexivity.
  - apply (proj1 (proj2 (proj2 (proj2 decay_never_touches_lastChecked))) "3"
             ["shower"; "soap"] None staleHygieneWorld
             (snd (updateMultipleComponents "3" ["shower"; "soap"] None staleHygieneWorld))
             (setValue 86 hygiene) ltac:(vm_compute; reflexivity) "shower" shower).
    + left. reflexivity.
    + vm_compute. reflexivity.
  - apply (proj2 (proj2 (proj2 (proj2 decay_never_touches_lastChecked)))
             (OpUpdateBySteps "1" 2 None None) gymWorld
             (snd (runOperation (OpUpdateBySteps "1" 2 None None) gymWorld))
             (fst (runOperation (OpUpdateBySteps "1" 2 None None) gymWorld))).
    apply surjective_pairing.
Defined.

Lemma updateComponent_explicit_zero_witness :
  (exists updated w' stored,
     updateComponent "3" "teeth" (Some 0) None hygieneWorld = (Ok updated, w')
     /\ findByKey "teeth" (filter (fun c => c_sliceId c = "3") (components w'))
        = Some stored
     /\ c_currentValue stored = 0
     /\ lastChecked stored = Some 50400000
     /\ componentColumns stored = componentColumns teeth
     /\ components w' = map (checkOff teeth 0 50400000) (components hygieneWorld)
     /\ Forall2 (fun c c' => c_id c <> c_id teeth -> c' = c)
          (components hygieneWorld) (components w'))
  /\ (exists updated w' stored,
        updateComponent "3" "teeth" None None hygieneWorld = (Ok updated, w')
        /\ findByKey "teeth" (filter (fun c => c_sliceId c = "3") (components w'))
           = Some stored
        /\ c_currentValue stored = 100
        /\ lastChecked stored = Some 50400000
        /\ componentColumns stored = componentColumns teeth
        /\ components w' = map (checkOff teeth 100 50400000) (components hygieneWorld)
        /\ Forall2 (fun c c' => c_id c <> c_id teeth -> c' = c)
             (components hygieneWorld) (components w')).
Proof.
  apply (updateComponent_explicit_zero "3" "teeth" None hygieneWorld hygiene teeth
           eq_refl eq_refl eq_refl eq_refl ltac:(vm_compute; discriminate)).
Defined.

End Instances.

(** * The formulas and the aggregation in double precision *)

Section DoubleArithmetic.
Import Double.








End DoubleArithmetic.

Section DoubleFormulas.
Import Double.
Context {ML : Double.MathLib}.







End DoubleFormulas.

Section DoubleAggregation.
Import Double.

(** [Math.max(0, x)] is [x] floored at 0. *)
Lemma Math_max_zero (x : number) :
  Math_max zero x = if (x <=? zero)%D then zero else x.
Proof. destruct x as [[] | [] | | [] m e]; reflexivity. Qed.

Lemma Double_applyDecay_spec (c : SliceComponent) (now : Z) :
  Double.applyDecay c now = Double.spec_decayedValue now c.
Proof.
  unfold Double.applyDecay, Double.spec_decayedValue, Double.periodMs.
  destruct (lastChecked c) as [t |]; [| reflexivity].
  destruct (String.eqb (decayType c) "hourly"); [apply Math_max_zero |].
  destruct (String.eqb (decayType c) "daily"); [apply Math_max_zero |].
  destruct (String.eqb (decayType c) "weekly"); [apply Math_max_zero | reflexivity].
Qed.

Lemma Double_accumulate_fold (now : Z) (cs : list SliceComponent) (a b : number) :
  fold_left (Double.accumulate now) cs (a, b)
  = (fold_left add
       (map (fun c => (Double.spec_decayedValue now c * (ofZ (weight c) / ofZ 100))%D) cs) a,
     fold_left add (map (fun c => ofZ (weight c)) cs) b).
Proof.
  revert a b. induction cs as [| c rest IH]; intros a b; cbn [fold_left map]; [reflexivity |].
  unfold Double.accumulate at 2. rewrite Double_applyDecay_spec. apply IH.
Qed.

(** C6 (amended). On every composite slice [calculateCompositeValue]
    only reads the store and returns the aggregate of the design
    document as double arithmetic evaluates it: the decayed value of a
    component is [currentValue - periods * decayRate] floored at 0, with
    the fractional number of hours, days or weeks since [lastChecked];
    it is 0 for a component never checked and the value as it stands for
    any other decay type; the weighted sum adds, in the order of the
    components, each decayed value times its weight over 100; the result
    is the floor of that sum times 100 over the sum of the weights, and 0
    without components or when the weights sum to 0. *)
Theorem calculateCompositeValue_spec (slice : Slice) (w : World) :
  isComposite slice = true ->
  Double.calculateCompositeValue slice w
  = (Ok (Double.spec_compositeValue (clock w)
           (filter (fun c => c_sliceId c = id slice) (components w))), w).
Proof.
  intros Hc. unfold Double.calculateCompositeValue. rewrite Hc. cbn [negb].
  unfold sliceComponent_findMany, gets, bind, ret.
  set (cs := filter (fun c => c_sliceId c = id slice) (components w)).
  destruct cs as [| c0 rest]; [reflexivity |].
  cbn [length Nat.eqb]. rewrite Double_accumulate_fold.
  unfold Double.spec_compositeValue, Double.sum.
  destruct (_ =? zero)%D; reflexivity.
Qed.

End DoubleAggregation.

Section DoubleInstances.
Import Examples.



(** The double of 0.29 lies below 0.29: a hundred times it is floored to
    28, where the rational formula gives 29. *)
Example calculateValue_fractional_multiplier :
  @Double.calculateValue Double.refMath (linear (29 # 100) 0) 100 = Ok (Double.ofZ 28)
  /\ @calculateValue refMath (linear (29 # 100) 0) 100 = Ok 29.
Proof. split; vm_compute; reflexivity. Qed.

(** C6, refuted as stated. Five components weighted 30, 25, 20, 15 and
    10, all checked this minute: at the values 18, 24, 30, 36 and 42 the
    weighted mean is 27 and the code returns 26; at the value 31 each,
    the weighted mean is 31 and the code returns 30.  The weights over
    100 are not doubles, and the rounded sum falls just below the
    integer. *)
Lemma calculateCompositeValue_rounds_below :
  Double.calculateCompositeValue hygiene mixedHygieneWorld
  = (Ok (Double.ofZ 26), mixedHygieneWorld)
  /\ spec_compositeValue (clock mixedHygieneWorld) (components mixedHygieneWorld) = 27
  /\ Double.calculateCompositeValue hygiene levelHygieneWorld
     = (Ok (Double.ofZ 30), levelHygieneWorld)
  /\ spec_compositeValue (clock levelHygieneWorld) (components levelHygieneWorld) = 31.
Proof. repeat split; vm_compute; reflexivity. Qed.

Lemma calculateCompositeValue_spec_witness :
  Double.calculateCompositeValue hygiene neglectedHygieneWorld
  = (Ok (Double.spec_compositeValue (clock neglectedHygieneWorld)
           (components neglectedHygieneWorld)), neglectedHygieneWorld)
  /\ map (Double.spec_decayedValue (clock neglectedHygieneWorld))
       (components neglectedHygieneWorld)
     = map Double.ofZ [0; 85; 0; 100; 100]
  /\ Double.spec_compositeValue (clock neglectedHygieneWorld)
       (components neglectedHygieneWorld) = Double.ofZ 46.
Proof.
  split; [| split; vm_compute; reflexivity].
  apply (calculateCompositeValue_spec hygiene neglectedHygieneWorld). reflexivity.
Defined.

End DoubleInstances.

(** * Further properties of the code *)

(** ** What the two searches return *)

Section ClosestIndex.
Context {ML : MathLib}.

(** The loop of [linearSearchIndex] keeps the first index of least
    distance among those it has seen. *)
Lemma linearSearchLoop_closest (config : SliceSequenceConfig) (t : Z) :
  forall n i ci cd,
    1 <= i -> 0 <= ci < i ->
    cd = Z.abs (valueAt config ci - t) ->
    (forall k, 0 <= k < i -> cd <= Z.abs (valueAt config k - t)) ->
    (forall k, 0 <= k < ci -> cd < Z.abs (valueAt config k - t)) ->
    exists r, linearSearchLoop n config t i ci cd = Ok r
              /\ 0 <= r < i + Z.of_nat n
              /\ (forall k, 0 <= k < i + Z.of_nat n ->
                    Z.abs (valueAt config r - t) <= Z.abs (valueAt config k - t))
              /\ (forall k, 0 <= k < r ->
                    Z.abs (valueAt config r - t) < Z.abs (valueAt config k - t)).
Proof.
  induction n as [| n IH]; intros i ci cd Hi Hci Hcd Hseen Hfirst.
  - exists ci. subst cd. cbn [linearSearchLoop].
    split; [reflexivity |]. split; [lia |].
    split; intros k Hk; [apply Hseen | apply Hfirst]; lia.
  - cbn [linearSearchLoop]. rewrite calculateValue_Ok. cbn [rbind].
    destruct (Z.ltb_spec (Z.abs (valueAt config i - t)) cd) as [Hlt | Hge].
    + destruct (IH (i + 1) i (Z.abs (valueAt config i - t))) as [r [Hr [Hrange [Hall Hbefore]]]];
        try lia.
      * intros k Hk. destruct (Z.eq_dec k i) as [-> | Hne]; [lia |].
        specialize (Hseen k). lia.
      * intros k Hk. specialize (Hseen k). lia.
      * exists r. split; [exact Hr |]. split; [lia |].
        split; [intros k Hk; apply Hall; lia | exact Hbefore].
    + destruct (IH (i + 1) ci cd) as [r [Hr [Hrange [Hall Hbefore]]]]; try lia.
      * intros k Hk. destruct (Z.eq_dec k i) as [-> | Hne]; [lia |].
        apply Hseen. lia.
      * exact Hfirst.
      * exists r. split; [exact Hr |]. split; [lia |].
        split; [intros k Hk; apply Hall; lia | exact Hbefore].
Qed.

(** On values that do not decrease on [lo..hi], the loop of
    [binarySearchIndex] discards only indices that are no closer to the
    target than the closest one it has kept. *)
Lemma binarySearchLoop_closest (config : SliceSequenceConfig) (t lo hi : Z) :
  (forall i j, lo <= i -> i <= j -> j <= hi -> valueAt config i <= valueAt config j) ->
  forall fuel left right ci cd,
    lo <= left -> right <= hi -> lo <= ci <= hi ->
    cd = Z.abs (valueAt config ci - t) ->
    (forall k, lo <= k < left -> cd <= Z.abs (valueAt config k - t)) ->
    (forall k, right < k <= hi -> cd <= Z.abs (valueAt config k - t)) ->
    (Z.to_nat (right - left + 1) < fuel)%nat ->
    exists r, binarySearchLoop fuel config t left right ci cd = Ok r
              /\ lo <= r <= hi
              /\ forall k, lo <= k <= hi ->
                   Z.abs (valueAt config r - t) <= Z.abs (valueAt config k - t).
Proof.
  intros Hmono.
  induction fuel as [| fuel IH]; intros left right ci cd Hlo Hhi Hci Hcd Hleft Hright Hfuel.
  - lia.
  - rewrite binarySearchLoop_unfold.
    destruct (Z.leb_spec left right) as [Hlr | Hgt].
    + pose proof (midpoint_between left right Hlr) as Hmid.
      cbv zeta. set (mid := (left + right) / 2) in *.
      set (diff := Z.abs (valueAt config mid - t)).
      set (cd' := if diff <? cd then diff else cd).
      set (ci' := if diff <? cd then mid else ci).
      assert (Hcd' : cd' = Z.abs (valueAt config ci' - t)).
      { unfold cd', ci'. destruct (diff <? cd); [reflexivity | exact Hcd]. }
      assert (Hci' : lo <= ci' <= hi) by (unfold ci'; destruct (diff <? cd); lia).
      assert (Hle : cd' <= cd /\ cd' <= diff).
      { unfold cd'. destruct (Z.ltb_spec diff cd); lia. }
      destruct (Z.ltb_spec (valueAt config mid) t) as [Hlt | Hge].
      * apply IH; try lia; try assumption.
        -- intros k Hk. destruct (Z_lt_le_dec k left) as [Hkl | Hkl].
           ++ specialize (Hleft k). lia.
           ++ assert (valueAt config k <= valueAt config mid) by (apply Hmono; lia).
              unfold diff in Hle. lia.
        -- intros k Hk. specialize (Hright k). lia.
      * destruct (Z.gtb_spec (valueAt config mid) t) as [Hgt | Hle'].
        -- apply IH; try lia; try assumption.
           ++ intros k Hk. specialize (Hleft k). lia.
           ++ intros k Hk. destruct (Z_lt_le_dec right k) as [Hkr | Hkr].
              ** specialize (Hright k). lia.
              ** assert (valueAt config mid <= valueAt config k) by (apply Hmono; lia).
                 unfold diff in Hle. lia.
        -- exists mid. split; [reflexivity |]. split; [lia |].
           intros k Hk. lia.
    + exists ci. split; [reflexivity |]. split; [exact Hci |].
      intros k Hk. rewrite <- Hcd.
      destruct (Z_lt_le_dec k left) as [Hkl | Hkl]; [apply Hleft | apply Hright]; lia.
Qed.

(** X1. [linearSearchIndex] returns the first index of [0..maxIndex]
    whose value is nearest to the target: no index of the range is
    nearer, and every earlier index is strictly farther.  With a negative
    [maxIndex] the loop does not run and the answer is 0. *)
Theorem linearSearchIndex_first_closest (config : SliceSequenceConfig) (t maxIndex : Z) :
  exists r, linearSearchIndex config t maxIndex = Ok r
            /\ 0 <= r <= Z.max 0 maxIndex
            /\ (forall k, 0 <= k <= maxIndex ->
                  Z.abs (valueAt config r - t) <= Z.abs (valueAt config k - t))
            /\ (forall k, 0 <= k < r ->
                  Z.abs (valueAt config r - t) < Z.abs (valueAt config k - t)).
Proof.
  unfold linearSearchIndex. rewrite calculateValue_Ok. cbn [rbind].
  destruct (linearSearchLoop_closest config t (Z.to_nat maxIndex) 1 0
              (Z.abs (valueAt config 0 - t))) as [r [Hr [Hrange [Hall Hbefore]]]];
    try lia.
  - intros k Hk. assert (k = 0) as -> by lia. lia.
  - exists r. split; [exact Hr |]. split; [lia |].
    split; [intros k Hk; apply Hall; lia | exact Hbefore].
Qed.

(** X2. On a range [minIndex..maxIndex] where the values do not
    decrease, [binarySearchIndex] returns an index of the range whose
    value is nearest to the target. *)
Theorem binarySearchIndex_closest (config : SliceSequenceConfig) (t minIndex maxIndex : Z) :
  minIndex <= maxIndex ->
  (forall i j, minIndex <= i -> i <= j -> j <= maxIndex ->
     valueAt config i <= valueAt config j) ->
  exists r, binarySearchIndex config t minIndex maxIndex = Ok r
            /\ minIndex <= r <= maxIndex
            /\ forall k, minIndex <= k <= maxIndex ->
                 Z.abs (valueAt config r - t) <= Z.abs (valueAt config k - t).
Proof.
  intros Hle Hmono. unfold binarySearchIndex. rewrite calculateValue_Ok. cbn [rbind].
  apply (binarySearchLoop_closest config t minIndex maxIndex Hmono); try lia.
Qed.

(** X3. For a positive target, [findClosestIndex] returns an index of
    [0..maxIndex] whose value is nearest to the target, whenever the
    classification by [isMonotonicIncreasing] is right about the range:
    either it rejects the configuration (and the search is linear), or
    the values do not decrease.  Linear and exponential configurations
    are always classified rightly. *)
Theorem findClosestIndex_closest (config : SliceSequenceConfig) (t maxIndex : Z)
    (mono : bool) :
  0 < t -> 0 <= maxIndex ->
  isMonotonicIncreasing config = Ok mono ->
  (mono = true ->
   type config = "linear" \/ type config = "exponential" \/ nondecreasing config maxIndex) ->
  exists r, findClosestIndex config t (Some maxIndex) = Ok r
            /\ 0 <= r <= maxIndex
            /\ forall k, 0 <= k <= maxIndex ->
                 Z.abs (valueAt config r - t) <= Z.abs (valueAt config k - t).
Proof.
  intros Ht Hmax Hclass Hright. unfold findClosestIndex. cbn [nullish].
  destruct (Z.leb_spec t 0) as [? | _]; [lia |].
  rewrite Hclass. cbn [rbind]. destruct mono.
  - assert (Hnd : nondecreasing config maxIndex).
    { destruct (Hright eq_refl) as [Hl | [He | Hnd]];
        [apply linear_nondecreasing | apply exponential_nondecreasing |]; assumption. }
    unfold binarySearchIndex. rewrite calculateValue_Ok. cbn [rbind].
    apply (binarySearchLoop_closest config t 0 maxIndex); try lia.
    intros i j Hi Hij Hj. apply Hnd; assumption.
  - unfold linearSearchIndex. rewrite calculateValue_Ok. cbn [rbind].
    destruct (linearSearchLoop_closest config t (Z.to_nat maxIndex) 1 0
                (Z.abs (valueAt config 0 - t))) as [r [Hr [Hrange [Hall _]]]];
      try lia.
    + intros k Hk. assert (k = 0) as -> by lia. lia.
    + exists r. split; [exact Hr |]. split; [lia |].
      intros k Hk. apply Hall. lia.
Qed.

End ClosestIndex.

(** ** The update engine: rejections, composition, targets *)

Section UpdateEngineMore.
Context {ML : MathLib}.

Lemma isMonotonicIncreasing_null (config : SliceSequenceConfig) :
  params config = ParamsNull ->
  type config = "linear" \/ type config = "exponential" \/ type config = "sqrt"
  \/ type config = "logarithmic" ->
  isMonotonicIncreasing config = Throw (nullParamsError (type config)).
Proof.
  intros Hp Ht. unfold isMonotonicIncreasing. rewrite Hp.
  destruct Ht as [-> | [-> | [-> | ->]]]; reflexivity.
Qed.

Lemma findClosestIndex_null (config : SliceSequenceConfig) (t : Z) (maxIndex : option Z) :
  params config = ParamsNull ->
  type config = "linear" \/ type config = "exponential" \/ type config = "sqrt"
  \/ type config = "logarithmic" ->
  0 < t ->
  findClosestIndex config t maxIndex = Throw (nullParamsError (type config)).
Proof.
  intros Hp Ht Hpos. unfold findClosestIndex.
  destruct (Z.leb_spec t 0) as [? | _]; [lia |].
  rewrite (isMonotonicIncreasing_null config Hp Ht). reflexivity.
Qed.

(** The target of a percentage update, in integers. *)
Lemma percentage_target (oldValue percentage : Z) :
  Math_floor (inject_Z oldValue * (1 + inject_Z percentage / 100))%Q
  = (oldValue * (100 + percentage)) / 100.
Proof.
  unfold Math_floor.
  rewrite (Qfloor_comp _ ((oldValue * (100 + percentage)) # 100)%Q).
  - reflexivity.
  - unfold Qeq, inject_Z, Qdiv, Qmult, Qplus, Qinv. cbn. lia.
Qed.

(** X4. A slice whose selected curve has [null] parameters (a JSON null
    in the column) and is linear, exponential, sqrt or logarithmic cannot
    be moved to a positive value: [updateToValue] to a positive value,
    and [updateByPercentage] by a percentage that is not negative from a
    positive value (its target is then at least the old value), fail
    with the TypeError of [isMonotonicIncreasing], which reads
    [params.multiplier] (for an exponential curve [params.base]) without
    the optional chaining of the formulas; the store is left as it
    was. *)
Theorem value_updates_fail_on_null_params (w : World) (sliceId : string) (slice : Slice)
    (notes : option string) :
  slices w !! sliceId = Some slice ->
  isComposite slice = false ->
  (forall value,
     0 < value ->
     let config := selectConfig (value >=? currentValue slice) slice in
     params config = ParamsNull ->
     type config = "linear" \/ type config = "exponential" \/ type config = "sqrt"
     \/ type config = "logarithmic" ->
     updateToValue sliceId value notes w = (Throw (nullParamsError (type config)), w))
  /\ (forall percentage,
        0 <= percentage ->
        0 < currentValue slice ->
        let config := selectConfig (percentage >=? 0) slice in
        params config = ParamsNull ->
        type config = "linear" \/ type config = "exponential" \/ type config = "sqrt"
        \/ type config = "logarithmic" ->
        updateByPercentage sliceId percentage notes w
        = (Throw (nullParamsError (type config)), w)).
Proof.
  intros Hs Hc. split.
  - intros value Hpos config Hp Ht. unfold updateToValue.
    rewrite bind_run, (findOne_run _ _ _ Hs), Hc.
    destruct (Z.ltb_spec value 0); [lia |].
    rewrite bind_run. fold config.
    rewrite (findClosestIndex_null config value (Some MAX_INDEX) Hp Ht Hpos). reflexivity.
  - intros percentage Hpercentage Hvalue config Hp Ht. unfold updateByPercentage.
    rewrite bind_run, (findOne_run _ _ _ Hs), Hc.
    rewrite bind_run. fold config. rewrite percentage_target.
    rewrite (findClosestIndex_null config _ (Some MAX_INDEX) Hp Ht); [reflexivity |].
    assert (1 <= currentValue slice * (100 + percentage) / 100)
      by (apply Z.div_le_lower_bound; nia).
    lia.
Qed.

(** X5. The three updates reject before they write: an unknown slice
    gives [NotFoundException], a composite slice [BadRequestException],
    a negative absolute value on a plain slice [BadRequestException]; in
    each case the store is exactly what it was.  The existence of the
    slice is checked first, then its kind, then the value. *)
Theorem update_rejections_leave_store (w : World) (sliceId : string) :
  (slices w !! sliceId = None ->
   forall n notes automatic,
     let notFound := NotFoundException (str ["Slice with ID "; sliceId; " not found"]) in
     updateBySteps sliceId n notes automatic w = (Throw notFound, w)
     /\ updateByPercentage sliceId n notes w = (Throw notFound, w)
     /\ updateToValue sliceId n notes w = (Throw notFound, w))
  /\ (forall slice,
        slices w !! sliceId = Some slice ->
        isComposite slice = true ->
        forall n notes automatic,
          updateBySteps sliceId n notes automatic w
          = (Throw (BadRequestException
               "Cannot update composite slices with steps. Use component updates instead."), w)
          /\ updateByPercentage sliceId n notes w
             = (Throw (BadRequestException
                  "Cannot update composite slices with percentage. Use component updates instead."), w)
          /\ updateToValue sliceId n notes w
             = (Throw (BadRequestException
                  "Cannot update composite slices to absolute value. Use component updates instead."), w))
  /\ (forall slice,
        slices w !! sliceId = Some slice ->
        isComposite slice = false ->
        forall value notes,
          value < 0 ->
          updateToValue sliceId value notes w
          = (Throw (BadRequestException "Value cannot be negative"), w)).
Proof.
  split; [| split].
  - intros Hs n notes automatic. cbv zeta.
    unfold updateBySteps, updateByPercentage, updateToValue, findOne, slice_findUnique, gets.
    rewrite !bind_run, Hs. repeat split.
  - intros slice Hs Hc n notes automatic.
    unfold updateBySteps, updateByPercentage, updateToValue.
    rewrite !bind_run, (findOne_run _ _ _ Hs), Hc. repeat split.
  - intros slice Hs Hc value notes Hneg. unfold updateToValue.
    rewrite bind_run, (findOne_run _ _ _ Hs), Hc.
    destruct (Z.ltb_spec value 0); [reflexivity | lia].
Qed.

Lemma updateBySteps_slices (w : World) (sliceId : string) (steps : Z)
    (notes : option string) (automatic : option bool) (slice : Slice) :
  slices w !! sliceId = Some slice ->
  isComposite slice = false ->
  faultAfter w = None ->
  let newIndex := Z.max 0 (Z.min (currentIndex slice + steps) MAX_INDEX) in
  let newValue := valueAt (selectConfig (steps >=? 0) slice) newIndex in
  let w' := snd (updateBySteps sliceId steps notes automatic w) in
  slices w' = <[sliceId := setIndexValue newIndex newValue slice]> (slices w)
  /\ faultAfter w' = None.
Proof.
  intros Hs Hc Hf. cbv zeta.
  rewrite (updateBySteps_run w sliceId steps notes automatic slice Hs Hc).
  unfold auditThenMutate. rewrite Hf. split; [reflexivity | exact Hf].
Qed.

(** X6. Two step updates in the same direction compose: from an index
    within [0, MAX_INDEX], stepping by [a] and then by [b], both not
    negative or both negative, leaves the slices exactly as one step
    update by [a + b] does (the history holds two rows instead of one). *)
Theorem updateBySteps_same_direction_composes (w : World) (sliceId : string) (slice : Slice)
    (a b : Z) (notes1 notes2 notes : option string) (auto1 auto2 auto : option bool) :
  slices w !! sliceId = Some slice ->
  isComposite slice = false ->
  faultAfter w = None ->
  0 <= currentIndex slice <= MAX_INDEX ->
  (0 <= a /\ 0 <= b) \/ (a < 0 /\ b < 0) ->
  slices (snd (updateBySteps sliceId b notes2 auto2
                 (snd (updateBySteps sliceId a notes1 auto1 w))))
  = slices (snd (updateBySteps sliceId (a + b) notes auto w)).
Proof.
  intros Hs Hc Hf Hrange Hdir.
  destruct (updateBySteps_slices w sliceId a notes1 auto1 slice Hs Hc Hf) as [Hs1 Hf1].
  destruct (updateBySteps_slices w sliceId (a + b) notes auto slice Hs Hc Hf) as [Hs3 _].
  cbv zeta in Hs1, Hs3. rewrite Hs3.
  set (w1 := snd (updateBySteps sliceId a notes1 auto1 w)) in *.
  set (s1 := setIndexValue (Z.max 0 (Z.min (currentIndex slice + a) MAX_INDEX))
               (valueAt (selectConfig (a >=? 0) slice)
                  (Z.max 0 (Z.min (currentIndex slice + a) MAX_INDEX))) slice) in *.
  assert (Hs1' : slices w1 !! sliceId = Some s1) by (rewrite Hs1; apply lookup_insert_eq).
  destruct (updateBySteps_slices w1 sliceId b notes2 auto2 s1 Hs1' Hc Hf1) as [Hs2 _].
  cbv zeta in Hs2. rewrite Hs2, Hs1, insert_insert_eq. f_equal.
  assert (Hsign : (b >=? 0) = (a + b >=? 0)).
  { destruct Hdir as [[Ha Hb] | [Ha Hb]].
    - rewrite !(proj2 (Z.geb_le _ _)) by lia. reflexivity.
    - destruct (Z.geb_spec b 0); [lia |]. destruct (Z.geb_spec (a + b) 0); [lia | reflexivity]. }
  assert (Hidx : Z.max 0 (Z.min (currentIndex s1 + b) MAX_INDEX)
                 = Z.max 0 (Z.min (currentIndex slice + (a + b)) MAX_INDEX)).
  { unfold s1. cbn [currentIndex setIndexValue]. unfold MAX_INDEX in *. lia. }
  rewrite Hidx, <- Hsign. unfold s1. destruct slice. reflexivity.
Qed.



End UpdateEngineMore.

(** ** Composite slices: rejections, bounds, skipped keys, status *)

Section CompositeMore.

(** X9. The component updates reject before they write, in this order:
    an unknown slice ([NotFoundException]), a slice that is not composite
    ([BadRequestException]), and for [updateComponent] a key the slice
    has no component for ([NotFoundException]) and a value outside
    [0..maxValue] ([BadRequestException]); the store is then exactly what
    it was. *)
Theorem component_updates_reject_before_writing (w : World) (sliceId : string)
    (notes : option string) :
  (slices w !! sliceId = None ->
   forall componentKey value componentKeys,
     let notFound := NotFoundException (str ["Slice with ID "; sliceId; " not found"]) in
     updateComponent sliceId componentKey value notes w = (Throw notFound, w)
     /\ updateMultipleComponents sliceId componentKeys notes w = (Throw notFound, w))
  /\ (forall slice,
        slices w !! sliceId = Some slice ->
        isComposite slice = false ->
        forall componentKey value componentKeys,
          let notComposite := BadRequestException "Slice is not a composite slice" in
          updateComponent sliceId componentKey value notes w = (Throw notComposite, w)
          /\ updateMultipleComponents sliceId componentKeys notes w
             = (Throw notComposite, w))
  /\ (forall slice componentKey value,
        slices w !! sliceId = Some slice ->
        isComposite slice = true ->
        findByKey componentKey (filter (fun c => c_sliceId c = sliceId) (components w))
        = None ->
        updateComponent sliceId componentKey value notes w
        = (Throw (NotFoundException
             (str ["Component "; componentKey; " not found in slice "; slug slice])), w))
  /\ (forall slice componentKey value component,
        slices w !! sliceId = Some slice ->
        isComposite slice = true ->
        findByKey componentKey (filter (fun c => c_sliceId c = sliceId) (components w))
        = Some component ->
        nullish value (maxValue component) < 0
        \/ maxValue component < nullish value (maxValue component) ->
        updateComponent sliceId componentKey value notes w
        = (Throw (BadRequestException
             (str ["Value must be between 0 and "; num (maxValue component)])), w)).
Proof.
  unfold updateComponent, updateMultipleComponents, findWithComponents, slice_findUnique,
    sliceComponent_findMany, gets.
  split; [| split; [| split]].
  - intros Hs componentKey value componentKeys. cbv zeta.
    rewrite !bind_run, Hs. split; reflexivity.
  - intros slice Hs Hc componentKey value componentKeys. cbv zeta.
    rewrite !bind_run, Hs, !bind_run. cbn [ret]. rewrite Hc. split; reflexivity.
  - intros slice componentKey value Hs Hc Hfind.
    rewrite !bind_run, Hs, !bind_run. cbn [ret]. rewrite Hc, Hfind. reflexivity.
  - intros slice componentKey value component Hs Hc Hfind Hout.
    rewrite !bind_run, Hs, !bind_run. cbn [ret]. rewrite Hc, Hfind. cbn [negb].
    replace ((nullish value (maxValue component) <? 0)
             || (nullish value (maxValue component) >? maxValue component)) with true;
      [reflexivity |].
    symmetry. apply orb_true_iff. rewrite Z.gtb_ltb, !Z.ltb_lt. exact Hout.
Qed.

Lemma Qmax0_bounds (a d : Q) :
  (0 <= a)%Q -> (0 <= d)%Q -> (0 <= Qmax0 (a - d))%Q /\ (Qmax0 (a - d) <= a)%Q.
Proof.
  intros Ha Hd. unfold Qmax0. destruct (Qle_bool (a - d) 0) eqn:Hle.
  - split; [apply Qle_refl | exact Ha].
  - split.
    + apply Qnot_lt_le. intros Hlt. apply Qlt_le_weak, Qle_bool_iff in Hlt. congruence.
    + rewrite <- (Qplus_0_r a) at 2. apply Qplus_le_r.
      apply (Qopp_le_compat 0 d) in Hd. exact Hd.
Qed.

(** With a rate that is not negative and a check-off that is not in the
    future, decay takes a value that is not negative to a value between 0
    and itself. *)
Lemma applyDecay_bounds (c : SliceComponent) (now : Z) :
  0 <= c_currentValue c ->
  (0 <= decayRate c)%Q ->
  (forall t, lastChecked c = Some t -> t <= now) ->
  (0 <= applyDecay c now)%Q /\ (applyDecay c now <= inject_Z (c_currentValue c))%Q.
Proof.
  intros Hv Hrate Hpast.
  assert (Hv' : (0 <= inject_Z (c_currentValue c))%Q)
    by (change 0%Q with (inject_Z 0); rewrite <- Zle_Qle; exact Hv).
  unfold applyDecay. destruct (lastChecked c) as [t |]; [| split; [apply Qle_refl | exact Hv']].
  specialize (Hpast t eq_refl).
  assert (Hperiods : forall p : Z, 0 < p ->
            (0 <= inject_Z (now - t) / inject_Z p * decayRate c)%Q).
  { intros p Hp. apply Qmult_le_0_compat; [| exact Hrate].
    apply Qle_shift_div_l.
    - change 0%Q with (inject_Z 0). rewrite <- Zlt_Qlt. exact Hp.
    - rewrite Qmult_0_l. change 0%Q with (inject_Z 0). rewrite <- Zle_Qle. lia. }
  destruct (String.eqb _ "hourly"); [apply Qmax0_bounds; [exact Hv' | apply Hperiods; lia] |].
  destruct (String.eqb _ "daily"); [apply Qmax0_bounds; [exact Hv' | apply Hperiods; lia] |].
  destruct (String.eqb _ "weekly"); [apply Qmax0_bounds; [exact Hv' | apply Hperiods; lia] |].
  split; [exact Hv' | apply Qle_refl].
Qed.

Lemma weighted_sum_mono (f g : SliceComponent -> Q) (cs : list SliceComponent) :
  Forall (fun c => 0 <= weight c /\ (f c <= g c)%Q) cs ->
  (sumQ (map (fun c => f c * inject_Z (weight c)) cs)
   <= sumQ (map (fun c => g c * inject_Z (weight c)) cs))%Q.
Proof.
  induction 1 as [| c rest [Hw Hfg] _ IH]; cbn [map sumQ fold_right]; [apply Qle_refl |].
  apply Qplus_le_compat; [| exact IH].
  apply Qmult_le_compat_r; [exact Hfg |].
  change 0%Q with (inject_Z 0). rewrite <- Zle_Qle. exact Hw.
Qed.

Lemma weighted_sum_const (b : Q) (cs : list SliceComponent) :
  (sumQ (map (fun c => b * inject_Z (weight c)) cs)
   == b * inject_Z (sumZ (map weight cs)))%Q.
Proof.
  induction cs as [| c rest IH]; cbn [map sumQ sumZ fold_right]; [ring |].
  unfold sumQ, sumZ in IH. rewrite IH, inject_Z_plus. ring.
Qed.

Lemma sumZ_weights_nonneg (cs : list SliceComponent) :
  Forall (fun c => 0 <= weight c) cs -> 0 <= sumZ (map weight cs).
Proof.
  induction 1 as [| c rest Hw _ IH]; cbn [map sumZ fold_right]; [lia |].
  unfold sumZ in IH. lia.
Qed.

(** The floor of a weighted mean lies between bounds of the weighted
    values. *)
Lemma weighted_mean_bounds (f : SliceComponent -> Q) (cs : list SliceComponent) (A B : Z) :
  Forall (fun c => 0 <= weight c /\ (inject_Z A <= f c)%Q /\ (f c <= inject_Z B)%Q) cs ->
  sumZ (map weight cs) <> 0 ->
  A <= Qfloor (sumQ (map (fun c => f c * inject_Z (weight c)) cs)
               / inject_Z (sumZ (map weight cs)))%Q <= B.
Proof.
  intros Hall Hne.
  assert (Hpos : (0 < inject_Z (sumZ (map weight cs)))%Q).
  { change 0%Q with (inject_Z 0). rewrite <- Zlt_Qlt.
    assert (0 <= sumZ (map weight cs))
      by (apply sumZ_weights_nonneg; eapply Forall_impl; [exact Hall |]; cbn; tauto).
    lia. }
  split.
  - rewrite <- (Qfloor_Z A). apply Qfloor_resp_le, Qle_shift_div_l; [exact Hpos |].
    rewrite <- weighted_sum_const. apply weighted_sum_mono.
    eapply Forall_impl; [exact Hall |]. cbn. tauto.
  - rewrite <- (Qfloor_Z B). apply Qfloor_resp_le, Qle_shift_div_r; [exact Hpos |].
    rewrite <- weighted_sum_const. apply weighted_sum_mono.
    eapply Forall_impl; [exact Hall |]. cbn. tauto.
Qed.

(** X10. When the components of a composite slice have weights and decay
    rates that are not negative, check-offs that are not in the future
    and values within [0..B], the composite value that
    [calculateCompositeValue] returns lies within [0..B]; the store is
    only read. *)
Theorem calculateCompositeValue_bounds (slice : Slice) (w : World) (B : Z) :
  isComposite slice = true ->
  0 <= B ->
  Forall (fun c => 0 <= weight c /\ 0 <= c_currentValue c <= B /\ (0 <= decayRate c)%Q
                   /\ forall t, lastChecked c = Some t -> t <= clock w)
    (filter (fun c => c_sliceId c = id slice) (components w)) ->
  exists v, calculateCompositeValue slice w = (Ok v, w) /\ 0 <= v <= B.
Proof.
  intros Hc HB Hall. rewrite (calculateCompositeValue_run slice w Hc). cbv zeta.
  eexists. split; [reflexivity |].
  destruct (Z.eqb_spec (sumZ (map weight (filter (fun c => c_sliceId c = id slice)
                                            (components w)))) 0) as [_ | Hne]; [lia |].
  apply weighted_mean_bounds; [| exact Hne].
  eapply Forall_impl; [exact Hall |]. intros c [Hw [Hv [Hrate Hpast]]].
  destruct (applyDecay_bounds c (clock w) ltac:(lia) Hrate Hpast) as [Hlo Hhi].
  split; [exact Hw |]. split; [exact Hlo |].
  eapply Qle_trans; [exact Hhi |]. rewrite <- Zle_Qle. lia.
Qed.

Lemma forEach_skip {A} (xs : list A) (body : A -> M unit) (w : World) :
  Forall (fun x => body x w = (Ok tt, w)) xs -> forEach xs body w = (Ok tt, w).
Proof.
  induction 1 as [| x rest Hx _ IH]; cbn [forEach]; [reflexivity |].
  rewrite bind_run, Hx. exact IH.
Qed.

(** X11. [updateMultipleComponents] skips the keys the slice has no
    component for, where [updateComponent] rejects them: when none of the
    keys is known (or no key is given) no component is touched, no audit
    row is written, and all that happens is the recalculation of the
    value of the slice. *)
Theorem updateMultipleComponents_skips_unknown_keys (w : World) (sliceId : string)
    (slice : Slice) (componentKeys : list string) (notes : option string) :
  slices w !! sliceId = Some slice ->
  isComposite slice = true ->
  Forall (fun key =>
            findByKey key (filter (fun c => c_sliceId c = sliceId) (components w)) = None)
    componentKeys ->
  updateMultipleComponents sliceId componentKeys notes w
  = (let! compositeValue := calculateCompositeValue slice in
     slice_update sliceId (setValue compositeValue)) w
  /\ components (snd (updateMultipleComponents sliceId componentKeys notes w))
     = components w
  /\ componentUpdates (snd (updateMultipleComponents sliceId componentKeys notes w))
     = componentUpdates w.
Proof.
  intros Hs Hc Hkeys.
  assert (Hrun : updateMultipleComponents sliceId componentKeys notes w
                 = (let! compositeValue := calculateCompositeValue slice in
                    slice_update sliceId (setValue compositeValue)) w).
  { unfold updateMultipleComponents, findWithComponents, slice_findUnique,
      sliceComponent_findMany, gets.
    rewrite !bind_run, Hs, !bind_run. cbn [ret]. rewrite Hc. cbn [negb].
    rewrite bind_run, forEach_skip.
    - rewrite !bind_run. destruct (calculateCompositeValue slice w) as [[v | e] w1];
        [| reflexivity].
      rewrite bind_run. destruct (slice_update sliceId (setValue v) w1) as [[s | e] w2];
        reflexivity.
    - eapply Forall_impl; [exact Hkeys |]. intros key Hnone. cbn. rewrite Hnone. reflexivity. }
  split; [exact Hrun |]. rewrite Hrun, bind_run, (calculateCompositeValue_run slice w Hc).
  cbv zeta. unfold slice_update, slice_findUnique, persist, gets, ret, throw, bind.
  rewrite Hs. destruct (faultAfter w) as [[| n] |]; split; reflexivity.
Qed.

Lemma find_filter {A} (p q : A -> bool) (P : A -> Prop) `{!forall x, Decision (P x)}
    (l : list A) :
  (forall x, q x = bool_decide (P x) && p x) ->
  List.find p (filter P l) = List.find q l.
Proof.
  intros Hq. induction l as [| x rest IH]; [reflexivity |].
  rewrite filter_cons. cbn [List.find]. rewrite Hq.
  destruct (decide (P x)) as [HP | HP].
  - rewrite (bool_decide_eq_true_2 _ HP). cbn [List.find andb].
    destruct (p x); [reflexivity | exact IH].
  - rewrite (bool_decide_eq_false_2 _ HP). cbn [andb]. exact IH.
Qed.

(** X12. After a successful check-off, [getComponentStatus] for the same
    slice and key finds the component with the value just set and the
    time of the call as [lastChecked], and reports that value as the
    decayed value: no time has passed. *)
Theorem status_after_check_off (sliceId componentKey : string) (value : option Z)
    (notes : option string) (w w' : World) (updated : Slice) :
  updateComponent sliceId componentKey value notes w = (Ok updated, w') ->
  exists component decayedValue,
    findByKey componentKey (filter (fun c => c_sliceId c = sliceId) (components w))
    = Some component
    /\ getComponentStatus sliceId componentKey w'
       = (Ok (setComponentChecked (nullish value (maxValue component)) (clock w) component,
              decayedValue), w')
    /\ (decayedValue == inject_Z (nullish value (maxValue component)))%Q
    /\ 0 <= nullish value (maxValue component) <= maxValue component.
Proof.
  intros Hrun.
  assert (Hclock : clock w' = clock w /\
                   exists component,
                     findByKey componentKey
                       (filter (fun c => c_sliceId c = sliceId) (components w))
                     = Some component
                     /\ 0 <= nullish value (maxValue component) <= maxValue component).
  { revert Hrun.
    unfold updateComponent, findWithComponents, slice_update, slice_findUnique,
      sliceComponent_findMany, sliceComponentUpdate_create, sliceComponent_update, persist,
      gets, ret, throw, bind.
    intros Hrun. run_cases Hrun; injection Hrun as _ <-;
      (split; [reflexivity |]); eexists; (split; [reflexivity |]);
      match goal with
      | H : (_ <? 0) || (_ >? _) = false |- _ =>
          apply orb_false_elim in H; destruct H as [H1 H2];
          rewrite Z.gtb_ltb in H2; apply Z.ltb_ge in H1, H2; lia
      end. }
  destruct Hclock as [Hclock [component [Hfind Hrange]]].
  destruct (updateComponent_checks _ _ _ _ _ _ _ Hrun) as [component' [Hfind' Hcs]].
  rewrite Hfind in Hfind'. injection Hfind' as <-.
  set (v := nullish value (maxValue component)) in *.
  exists component, (applyDecay (setComponentChecked v (clock w) component) (clock w)).
  split; [exact Hfind |]. split; [| split; [| exact Hrange]].
  - unfold getComponentStatus, gets. rewrite bind_run.
    rewrite <- (find_filter (fun c => String.eqb (key c) componentKey) _
                  (fun c => c_sliceId c = sliceId)) by reflexivity.
    rewrite Hcs. fold (findByKey componentKey
                         (filter (fun c => c_sliceId c = sliceId)
                            (map (checkOff component v (clock w)) (components w)))).
    rewrite (findByKey_checkOff _ _ _ _ v (clock w) Hfind).
    rewrite bind_run. cbn [ret]. rewrite Hclock. reflexivity.
  - assert (Hzero : forall p : Z,
              (Qmax0 (inject_Z v - inject_Z (clock w - clock w) / inject_Z p
                                   * decayRate component) == inject_Z v)%Q).
    { intros p. rewrite Z.sub_diag.
      assert (Hx : (inject_Z v - inject_Z 0 / inject_Z p * decayRate component
                    == inject_Z v)%Q) by (unfold Qdiv; ring).
      unfold Qmax0. destruct (Qle_bool _ 0) eqn:Hle; [| exact Hx].
      apply Qle_bool_iff in Hle. rewrite Hx in Hle. change 0%Q with (inject_Z 0) in Hle.
      rewrite <- Zle_Qle in Hle. assert (v = 0) as -> by lia. reflexivity. }
    unfold applyDecay. cbn [lastChecked setComponentChecked c_currentValue decayType decayRate].
    destruct (String.eqb _ "hourly"); [apply Hzero |].
    destruct (String.eqb _ "daily"); [apply Hzero |].
    destruct (String.eqb _ "weekly"); [apply Hzero | reflexivity].
Qed.

End CompositeMore.

(** ** Recalculation of all composite slices *)

Lemma forEach_catchLog_Ok {A} (xs : list A) (body : A -> M unit) (w : World) :
  fst (forEach xs (fun x => catchLog (body x)) w) = Ok tt.
Proof.
  revert w. induction xs as [| x rest IH]; intros w; cbn [forEach]; [reflexivity |].
  rewrite bind_run. unfold catchLog at 1.
  destruct (body x w) as [[[] | e] w1]; apply IH.
Qed.

(** All of a slice but its value. *)
Lemma sliceFrame_insert (m : gmap string Slice) (k : string) (s : Slice) (v : Z) :
  m !! k = Some s ->
  setValue 0 <$> <[k := setValue v s]> m = setValue 0 <$> m.
Proof.
  intros Hs. rewrite fmap_insert.
  change (setValue 0 (setValue v s)) with (setValue 0 s).
  apply insert_id. rewrite lookup_fmap, Hs. reflexivity.
Qed.

Lemma slice_update_keeps_sliceFrame (sliceId : string) (v : Z) :
  keeps (unchanged (fun w => (components w, sliceUpdates w, componentUpdates w, clock w,
                              setValue 0 <$> slices w)))
    (slice_update sliceId (setValue v)).
Proof.
  intros w r w'. unfold slice_update, slice_findUnique, persist, gets, ret, throw, bind.
  destruct (slices w !! sliceId) as [s |] eqn:Hs; [| intros [= _ <-]; reflexivity].
  destruct (faultAfter w) as [[| n] |]; intros [= _ <-]; unfold unchanged;
    cbn [components sliceUpdates componentUpdates clock slices setSlices setFaultAfter];
    rewrite ?(sliceFrame_insert _ _ _ _ Hs); reflexivity.
Qed.

Lemma recalculateAllCompositeSlices_Ok (w : World) :
  fst (recalculateAllCompositeSlices w) = Ok tt.
Proof.
  unfold recalculateAllCompositeSlices, slice_findMany, gets. rewrite bind_run.
  apply forEach_catchLog_Ok.
Qed.

(** X13. Once its first query has answered, no refused write and no
    failure on a slice makes [recalculateAllCompositeSlices] fail: each
    slice has its own try/catch.  (The first query stands before the
    loop, outside every try/catch; the reads of the store always answer
    here.)  It writes nothing but the [currentValue] of slices: the
    components, both histories, the clock and every other column of
    every slice are what they were. *)
Theorem recalculateAllCompositeSlices_frame (w w' : World) (r : Result unit) :
  recalculateAllCompositeSlices w = (r, w') ->
  r = Ok tt
  /\ components w' = components w
  /\ sliceUpdates w' = sliceUpdates w
  /\ componentUpdates w' = componentUpdates w
  /\ clock w' = clock w
  /\ setValue 0 <$> slices w' = setValue 0 <$> slices w.
Proof.
  intros Hrun. split.
  - pose proof (recalculateAllCompositeSlices_Ok w) as Hok. rewrite Hrun in Hok. exact Hok.
  - assert (Hkeeps : keeps (unchanged (fun w => (components w, sliceUpdates w,
                                                 componentUpdates w, clock w,
                                                 setValue 0 <$> slices w)))
                       recalculateAllCompositeSlices).
    { unfold recalculateAllCompositeSlices, slice_findMany, calculateCompositeValue,
        sliceComponent_findMany.
      repeat keeps_step. apply slice_update_keeps_sliceFrame. }
    pose proof (Hkeeps w r w' Hrun) as Hframe. unfold unchanged in Hframe.
    injection Hframe as Hc Hsu Hcu Hck Hsl. auto.
Qed.

(** ** The decay run *)

(** The queries of [applyCompositeDecay] read the store once, before
    the loop. *)
Lemma applyCompositeDecay_unfold (w : World) :
  applyCompositeDecay w
  = catchLog (forEach (filter (fun s => isComposite s = true)
                         (map snd (map_to_list (slices w))))
                (fun slice =>
                   decayCompositeSlice slice
                     (filter (fun c => c_sliceId c = id slice) (components w)) (clock w))) w.
Proof. reflexivity. Qed.

Lemma Qltb_below_one (m k : Z) (x : Q) :
  0 < k -> m < k -> (x == inject_Z m / inject_Z k)%Q -> Qltb x 1 = true.
Proof.
  intros Hk Hm Hx. unfold Qltb. apply negb_true_iff.
  destruct (Qle_bool 1 x) eqn:Hle; [| reflexivity]. exfalso.
  apply Qle_bool_iff in Hle. rewrite Hx in Hle.
  assert (Hk' : (0 < inject_Z k)%Q) by (change 0%Q with (inject_Z 0); rewrite <- Zlt_Qlt; lia).
  apply (Qmult_le_r _ _ _ Hk') in Hle.
  unfold Qdiv in Hle. rewrite <- Qmult_assoc, (Qmult_comm (/ _)), Qmult_inv_r in Hle.
  - rewrite Qmult_1_l, Qmult_1_r, <- Zle_Qle in Hle. lia.
  - intros Hz. rewrite Hz in Hk'. discriminate Hk'.
Qed.

Lemma minutesElapsed_below (from to bound : Z) :
  to - from < bound * msPerMinute -> minutesElapsed from to < bound.
Proof.
  intros H. unfold minutesElapsed, msPerMinute in *. apply Z.div_lt_upper_bound; lia.
Qed.

(** Within one period of the last check-off a component does not decay. *)
Lemma decayComponent_within_period (c : SliceComponent) (now : Z) (w : World) :
  checkedWithinPeriod now c -> decayComponent c now w = (Ok false, w).
Proof.
  intros Hfresh. unfold decayComponent, checkedWithinPeriod, periodMs in *.
  destruct (lastChecked c) as [t |]; [| reflexivity].
  specialize (Hfresh t eq_refl).
  destruct (String.eqb (decayType c) "hourly").
  { rewrite (Qltb_below_one (minutesElapsed t now) 60); [reflexivity | lia | | reflexivity].
    apply minutesElapsed_below. unfold msPerMinute. lia. }
  destruct (String.eqb (decayType c) "daily").
  { rewrite (Qltb_below_one (minutesElapsed t now) (60 * 24)); [reflexivity | lia | |].
    - apply minutesElapsed_below. unfold msPerMinute. lia.
    - unfold daysElapsed, hoursElapsed. rewrite inject_Z_mult. field. }
  destruct (String.eqb (decayType c) "weekly"); [| reflexivity].
  rewrite (Qltb_below_one (minutesElapsed t now) (60 * 24 * 7)); [reflexivity | lia | |].
  - apply minutesElapsed_below. unfold msPerMinute. lia.
  - unfold weeksElapsed, daysElapsed, hoursElapsed. rewrite !inject_Z_mult. field.
Qed.

Lemma decayComponents_within_period (cs : list SliceComponent) (now : Z) (w : World)
    (hasChanges : bool) :
  Forall (checkedWithinPeriod now) cs ->
  decayComponents cs now hasChanges w = (Ok hasChanges, w).
Proof.
  induction 1 as [| c rest Hc _ IH]; cbn [decayComponents]; [reflexivity |].
  rewrite bind_run, (decayComponent_within_period c now w Hc). exact IH.
Qed.

(** X14. When every component was checked off less than one of its
    decay periods ago (an hour, a day, a week), the decay run changes
    nothing at all: no component, no audit row, and no slice value is
    recomputed. *)
Theorem applyCompositeDecay_noop_within_period (w : World) :
  Forall (checkedWithinPeriod (clock w)) (components w) ->
  applyCompositeDecay w = (Ok tt, w).
Proof.
  intros Hfresh. rewrite applyCompositeDecay_unfold. unfold catchLog.
  rewrite forEach_skip; [reflexivity |].
  apply Forall_forall. intros slice _. unfold decayCompositeSlice.
  rewrite bind_run, decayComponents_within_period; [reflexivity |].
  apply Forall_forall. intros c Hin. apply list_elem_of_filter in Hin.
  rewrite Forall_forall in Hfresh. apply Hfresh, Hin.
Qed.

(** X15. What one [decayComponent] does, by its result.  On [false] the
    store is untouched.  On [true] the rows with the identifier of the
    component took a new value, which is not negative, differs from the
    old one and is lower when the old one was not negative, and one audit
    row was appended that records the old and the new value at the time of
    the clock.  On a failure no audit row was written. *)
Theorem decayComponent_outcomes (c : SliceComponent) (now : Z) (w w' : World)
    (r : Result bool) :
  decayComponent c now w = (r, w') ->
  (r = Ok false -> w' = w)
  /\ (r = Ok true ->
      exists newValue notes,
        0 <= newValue /\ newValue <> c_currentValue c
        /\ (0 <= c_currentValue c -> newValue < c_currentValue c)
        /\ components w'
           = map (fun x => if String.eqb (c_id x) (c_id c)
                           then setComponentValue newValue x else x) (components w)
        /\ componentUpdates w'
           = (componentUpdates w
              ++ [mkComponentUpdate (c_id c) (c_currentValue c) newValue (clock w) notes])%list)
  /\ (forall e, r = Throw e -> componentUpdates w' = componentUpdates w).
Proof.
  intros Hrun.
  unfold decayComponent, sliceComponent_update, sliceComponentUpdate_create, persist,
    gets, ret, throw, bind in Hrun.
  run_cases Hrun; injection Hrun as <- <-;
    (split; [intros Hr; try discriminate Hr; reflexivity |]);
    (split; [| intros e He; try discriminate He; reflexivity]);
    intros Hr; try discriminate Hr.
  all: repeat match goal with
         | H : (_ =? _) = false |- _ => apply Z.eqb_neq in H
         | H : (_ <=? _) = false |- _ => apply Z.leb_gt in H
         end.
  all: match goal with H : Z.max 0 ?x <> _ |- _ => exists (Z.max 0 x) end; eexists.
  all: refine (conj _ (conj _ (conj _ (conj eq_refl eq_refl)))); [lia | assumption | lia].
Qed.

(** X16. Decay compounds.  The amount a decay subtracts depends on the
    time since [lastChecked], the type and the rate, not on the value,
    and a decay does not move [lastChecked]: when a decay has subtracted
    [amount], a decay of the same component at the same instant, from
    whatever value [v] it then has, subtracts [amount] again (to
    [max(0, v - amount)]), as long as that changes the value. *)
Theorem decay_repeats_at_same_instant (c : SliceComponent) (now : Z) (w w1 : World) :
  decayComponent c now w = (Ok true, w1) ->
  exists amount,
    0 < amount
    /\ components w1
       = map (fun x => if String.eqb (c_id x) (c_id c)
                       then setComponentValue (Z.max 0 (c_currentValue c - amount)) x
                       else x) (components w)
    /\ forall v w2,
         faultAfter w2 = None ->
         existsb (fun x => String.eqb (c_id x) (c_id c)) (components w2) = true ->
         Z.max 0 (v - amount) <> v ->
         exists w3,
           decayComponent (setComponentValue v c) now w2 = (Ok true, w3)
           /\ components w3
              = map (fun x => if String.eqb (c_id x) (c_id c)
                              then setComponentValue (Z.max 0 (v - amount)) x
                              else x) (components w2).
Proof.
  intros Hrun.
  unfold decayComponent, sliceComponent_update, sliceComponentUpdate_create, persist,
    gets, ret, throw, bind in Hrun.
  run_cases Hrun; injection Hrun as <-.
  all: match goal with H : (?a <=? 0) = false |- _ => exists a end.
  all: (split; [match goal with H : (_ <=? 0) = false |- _ =>
                  apply Z.leb_gt in H; exact H end |]).
  all: (split; [reflexivity |]).
  all: intros v w2 Hf Hexists Hchange; apply Z.eqb_neq in Hchange.
  all: destruct (decayComponent (setComponentValue v c) now w2) as [r3 w3] eqn:Hrun2.
  all: unfold decayComponent, sliceComponent_update, sliceComponentUpdate_create, persist,
         gets, ret, throw, bind in Hrun2.
  all: cbn [lastChecked setComponentValue decayType decayRate c_id c_currentValue] in Hrun2.
  all: run_cases Hrun2; injection Hrun2 as <- <-; eexists; split; reflexivity.
Qed.

(** *** A decay run never raises a value *)

Section NeverRaises.
Variable S0 : list SliceComponent.
Hypothesis S0_ids : NoDup (map c_id S0).
Hypothesis S0_values : Forall (fun c => 0 <= c_currentValue c) S0.

(** Row by row, the store holds the components of [S0] with values that
    are not negative and not above those of [S0]. *)
Let below (w : World) : Prop :=
  Forall2 (fun c0 c => c_id c = c_id c0 /\ 0 <= c_currentValue c <= c_currentValue c0)
    S0 (components w).

Lemma same_id_same_row (x y : SliceComponent) :
  In x S0 -> In y S0 -> c_id x = c_id y -> x = y.
Proof using S0_ids.
  clear S0_values below. induction S0 as [| c rest IH]; [intros [] |].
  cbn [map] in S0_ids. apply NoDup_cons in S0_ids as [Hnotin Hrest].
  intros [-> | Hx] [-> | Hy] Hid; [reflexivity | | | apply IH; assumption].
  - exfalso. apply Hnotin. rewrite Hid. apply list_elem_of_In, in_map, Hy.
  - exfalso. apply Hnotin. rewrite <- Hid. apply list_elem_of_In, in_map, Hx.
Qed.

Lemma sliceComponent_update_keeps_below (component : SliceComponent) (v : Z) :
  In component S0 ->
  0 <= v <= c_currentValue component ->
  keeps (survives below) (sliceComponent_update (c_id component) (setComponentValue v)).
Proof using S0_ids.
  intros Hin Hv. unfold sliceComponent_update. repeat keeps_step.
  apply keeps_persist; [exact _ | | intros w n Hw; exact Hw].
  intros w Hw. unfold below in *. cbn [components setComponents].
  assert (Hsub : forall c0, In c0 S0 -> In c0 S0) by auto.
  revert Hsub Hw. generalize (components w). generalize S0 at 1 3 4.
  intros S' cs Hsub Hw. induction Hw as [| c0 c' S'' cs' [Hid Hval] _ IH]; cbn [map];
    constructor.
  - destruct (String.eqb_spec (c_id c') (c_id component)) as [Heq | _]; [| tauto].
    split; [exact Hid |]. cbn [c_currentValue setComponentValue].
    assert (c0 = component) as ->.
    { apply same_id_same_row; [apply Hsub; left; reflexivity | exact Hin | congruence]. }
    exact Hv.
  - apply IH. intros c1 Hc1. apply Hsub. right. exact Hc1.
Qed.

Lemma decayComponent_keeps_below (component : SliceComponent) (now : Z) :
  In component S0 ->
  keeps (survives below) (decayComponent component now).
Proof using S0_ids S0_values.
  intros Hin.
  assert (Hv : 0 <= c_currentValue component).
  { rewrite Forall_forall in S0_values. apply S0_values, list_elem_of_In, Hin. }
  unfold decayComponent. repeat keeps_step.
  all: try (apply keeps_persist; [exact _ | |]; intros w0; intros; intros Hw; exact Hw).
  all: apply sliceComponent_update_keeps_below; [exact Hin |].
  all: match goal with H : (_ <=? 0) = false |- _ => apply Z.leb_gt in H end; lia.
Qed.

Lemma decayComponents_keeps_below (cs : list SliceComponent) (now : Z) (hasChanges : bool) :
  (forall c, In c cs -> In c S0) ->
  keeps (survives below) (decayComponents cs now hasChanges).
Proof using S0_ids S0_values.
  revert hasChanges. induction cs as [| c rest IH]; intros hasChanges Hsub;
    cbn [decayComponents].
  - apply keeps_ret. exact _.
  - apply keeps_bind; [exact _ | apply decayComponent_keeps_below; apply Hsub; left; reflexivity |].
    intros decayed. apply IH. intros c' Hc'. apply Hsub. right. exact Hc'.
Qed.

Lemma decayCompositeSlice_keeps_below (slice : Slice) (cs : list SliceComponent) (now : Z) :
  (forall c, In c cs -> In c S0) ->
  keeps (survives below) (decayCompositeSlice slice cs now).
Proof using S0_ids S0_values.
  intros Hsub. unfold decayCompositeSlice, recalculateCompositeValue, sliceComponent_findMany,
    slice_update, slice_findUnique.
  repeat keeps_step; try (apply decayComponents_keeps_below; exact Hsub).
  apply keeps_persist; [exact _ | |]; intros w0; intros; intros Hw; exact Hw.
Qed.

End NeverRaises.

(** X17. A decay run never raises a component and never takes one below
    0: when the identifiers of the components are distinct and no value is
    negative, then after [applyCompositeDecay], whether it succeeded or
    met a failure, the store holds the same components row by row, each
    with a value between 0 and the value it had. *)
Theorem decay_run_never_raises (w w' : World) (r : Result unit) :
  applyCompositeDecay w = (r, w') ->
  NoDup (map c_id (components w)) ->
  Forall (fun c => 0 <= c_currentValue c) (components w) ->
  Forall2 (fun c c' => c_id c' = c_id c /\ 0 <= c_currentValue c' <= c_currentValue c)
    (components w) (components w').
Proof.
  intros Hrun Hids Hvalues. rewrite applyCompositeDecay_unfold in Hrun.
  match type of Hrun with
  | ?m _ = _ =>
      assert (Hkeeps : keeps (survives (fun w1 =>
                Forall2 (fun c0 c => c_id c = c_id c0
                                     /\ 0 <= c_currentValue c <= c_currentValue c0)
                  (components w) (components w1))) m)
  end.
  { apply keeps_catchLog; [exact _ |]. apply keeps_forEach; [exact _ |]. intros slice.
    apply (decayCompositeSlice_keeps_below (components w) Hids Hvalues).
    intros c Hc. apply list_elem_of_In in Hc. apply list_elem_of_filter in Hc.
    apply list_elem_of_In, Hc. }
  apply (Hkeeps w r w' Hrun).
  clear -Hvalues. induction Hvalues as [| c rest Hc _ IH]; constructor; [| exact IH].
  split; [reflexivity | lia].
Qed.

(** ** The histories *)

#[local] Instance historyGrows_preorder : PreOrder historyGrows.
Proof.
  split.
  - intros w. split; reflexivity.
  - intros w1 w2 w3 [Hs12 Hc12] [Hs23 Hc23]. split; etransitivity; eassumption.
Qed.

#[local] Instance appendsFlagged_preorder (flag : bool) : PreOrder (appendsFlagged flag).
Proof.
  split.
  - intros w. exists []. split; [symmetry; apply app_nil_r | constructor].
  - intros w1 w2 w3 [rows12 [H12 Hf12]] [rows23 [H23 Hf23]].
    exists (rows12 ++ rows23)%list. split.
    + rewrite H23, H12. symmetry. apply app_assoc.
    + apply Forall_app. split; assumption.
Qed.

(** Solve [keeps R (persist f)] for a relation on the histories. *)
Ltac keeps_write :=
  apply keeps_persist; [exact _ | |]; intros w0; intros;
  first [ split; cbn; first [reflexivity | apply prefix_app_r; reflexivity]
        | exists []; split; [symmetry; apply app_nil_r | constructor]
        | eexists [_]; split; [reflexivity | repeat constructor] ].

Section Histories.
Context {ML : MathLib}.

Lemma updateBySteps_keeps_history (sliceId : string) (steps : Z) (notes : option string)
    (automatic : option bool) :
  keeps historyGrows (updateBySteps sliceId steps notes automatic).
Proof.
  unfold updateBySteps, findOne, sliceUpdate_create, slice_update, slice_findUnique.
  repeat keeps_step; keeps_write.
Qed.

Lemma decayComponents_keeps_history (cs : list SliceComponent) (now : Z) (hasChanges : bool) :
  keeps historyGrows (decayComponents cs now hasChanges).
Proof.
  revert hasChanges. induction cs as [| c rest IH]; intros hasChanges; cbn [decayComponents].
  - apply keeps_ret. exact _.
  - apply keeps_bind; [exact _ | | intros decayed; apply IH].
    unfold decayComponent, sliceComponent_update, sliceComponentUpdate_create.
    repeat keeps_step; keeps_write.
Qed.

(** X18. The two histories are append-only: whatever an entry point of
    the services does, and whether it succeeds or fails, the rows of
    [SliceUpdate] and of [SliceComponentUpdate] that were there are still
    there, unchanged and in their order, in front of whatever was added.
    This holds of the three updates and the dispatch of the controller,
    of the penalty sweeps and the daily reset, of the component updates,
    of the decay run and of the recalculation of all composite slices. *)
Theorem histories_are_append_only :
  (forall op, keeps historyGrows (runOperation op))
  /\ (forall id type value notes, keeps historyGrows (updateSlice id type value notes))
  /\ (forall sliceId componentKey value notes,
        keeps historyGrows (updateComponent sliceId componentKey value notes))
  /\ (forall sliceId componentKeys notes,
        keeps historyGrows (updateMultipleComponents sliceId componentKeys notes))
  /\ keeps historyGrows applyCompositeDecay
  /\ keeps historyGrows recalculateAllCompositeSlices.
Proof.
  assert (Hpercentage : forall sliceId percentage notes,
             keeps historyGrows (updateByPercentage sliceId percentage notes)).
  { intros. unfold updateByPercentage, findOne, sliceUpdate_create, slice_update,
      slice_findUnique.
    repeat keeps_step; keeps_write. }
  assert (Hvalue : forall sliceId value notes,
             keeps historyGrows (updateToValue sliceId value notes)).
  { intros. unfold updateToValue, findOne, sliceUpdate_create, slice_update,
      slice_findUnique.
    repeat keeps_step; keeps_write. }
  split; [| split; [| split; [| split; [| split]]]].
  - intros op. destruct op; cbn [runOperation].
    + repeat keeps_step. apply updateBySteps_keeps_history.
    + repeat keeps_step. apply Hpercentage.
    + repeat keeps_step. apply Hvalue.
    + unfold applyAutomaticPenalty. repeat keeps_step. apply updateBySteps_keeps_history.
    + unfold checkScheduledSlices, slice_findMany, evaluateScheduledSlice,
        isPastScheduledTime, sliceUpdate_count, applyAutomaticPenalty.
      repeat keeps_step; apply updateBySteps_keeps_history.
    + unfold checkContinuousSlices, slice_findMany, evaluateContinuousSlice,
        sliceUpdate_count.
      repeat keeps_step; apply updateBySteps_keeps_history.
    + unfold resetDailySlices, slice_findMany, slice_update, slice_findUnique.
      repeat keeps_step; keeps_write.
  - intros id type value notes. unfold updateSlice.
    repeat keeps_step;
      first [apply updateBySteps_keeps_history | apply Hpercentage | apply Hvalue].
  - intros. unfold updateComponent, findWithComponents, calculateCompositeValue,
      sliceComponent_findMany, sliceComponentUpdate_create, sliceComponent_update,
      slice_update, slice_findUnique.
    repeat keeps_step; keeps_write.
  - intros. unfold updateMultipleComponents, findWithComponents, calculateCompositeValue,
      sliceComponent_findMany, sliceComponentUpdate_create, sliceComponent_update,
      slice_update, slice_findUnique.
    repeat keeps_step; keeps_write.
  - unfold applyCompositeDecay, slice_findMany, decayCompositeSlice,
      recalculateCompositeValue, sliceComponent_findMany, slice_update, slice_findUnique.
    repeat keeps_step; first [apply decayComponents_keeps_history | keeps_write].
  - unfold recalculateAllCompositeSlices, slice_findMany, calculateCompositeValue,
      sliceComponent_findMany, slice_update, slice_findUnique.
    repeat keeps_step; keeps_write.
Qed.

Lemma updateBySteps_keeps_flag (sliceId : string) (steps : Z) (notes : option string)
    (automatic : option bool) :
  keeps (appendsFlagged (nullish automatic false))
    (updateBySteps sliceId steps notes automatic).
Proof.
  unfold updateBySteps, findOne, sliceUpdate_create, slice_update, slice_findUnique.
  repeat keeps_step; keeps_write.
Qed.

(** X19. Who writes which rows of the history of a slice.  Every row the
    dispatch of the controller writes has [automatic = false]; every row
    the two penalty sweeps write has [automatic = true].  The daily reset, which
    sets index and value to 0, writes no row, and neither do the
    component updates, the decay run and the recalculation of the
    composite slices. *)
Theorem history_rows_by_writer :
  (forall id type value notes, keeps (appendsFlagged false) (updateSlice id type value notes))
  /\ keeps (appendsFlagged true) checkScheduledSlices
  /\ keeps (appendsFlagged true) checkContinuousSlices
  /\ keeps (unchanged sliceUpdates) resetDailySlices
  /\ (forall sliceId componentKey value notes,
        keeps (unchanged sliceUpdates) (updateComponent sliceId componentKey value notes))
  /\ (forall sliceId componentKeys notes,
        keeps (unchanged sliceUpdates)
          (updateMultipleComponents sliceId componentKeys notes))
  /\ keeps (unchanged sliceUpdates) applyCompositeDecay
  /\ keeps (unchanged sliceUpdates) recalculateAllCompositeSlices.
Proof.
  split; [| split; [| split; [| split; [| split; [| split; [| split]]]]]].
  - intros id type value notes. unfold updateSlice.
    repeat keeps_step.
    + apply (updateBySteps_keeps_flag id value notes None).
    + unfold updateByPercentage, findOne, sliceUpdate_create, slice_update, slice_findUnique.
      repeat keeps_step; keeps_write.
    + unfold updateToValue, findOne, sliceUpdate_create, slice_update, slice_findUnique.
      repeat keeps_step; keeps_write.
  - unfold checkScheduledSlices, slice_findMany, evaluateScheduledSlice,
      isPastScheduledTime, sliceUpdate_count, applyAutomaticPenalty.
    repeat keeps_step; apply (updateBySteps_keeps_flag _ _ _ (Some true)).
  - unfold checkContinuousSlices, slice_findMany, evaluateContinuousSlice,
      sliceUpdate_count.
    repeat keeps_step; apply (updateBySteps_keeps_flag _ _ _ (Some true)).
  - unfold resetDailySlices, slice_findMany, slice_update, slice_findUnique.
    repeat keeps_step. apply keeps_persist; [exact _ | |]; intros w0; reflexivity.
  - intros. unfold updateComponent, findWithComponents, calculateCompositeValue,
      sliceComponent_findMany, sliceComponentUpdate_create, sliceComponent_update,
      slice_update, slice_findUnique.
    repeat keeps_step; apply keeps_persist; try exact _; intros w0; reflexivity.
  - intros. unfold updateMultipleComponents, findWithComponents, calculateCompositeValue,
      sliceComponent_findMany, sliceComponentUpdate_create, sliceComponent_update,
      slice_update, slice_findUnique.
    repeat keeps_step; apply keeps_persist; try exact _; intros w0; reflexivity.
  - intros w r w' Hrun. pose proof (applyCompositeDecay_keeps_frame w r w' Hrun) as Hframe.
    unfold unchanged, decayFrame in *. congruence.
  - unfold recalculateAllCompositeSlices, slice_findMany, calculateCompositeValue,
      sliceComponent_findMany, slice_update, slice_findUnique.
    repeat keeps_step; apply keeps_persist; try exact _; intros w0; reflexivity.
Qed.

End Histories.

(** ** The penalty sweeps *)

Lemma fold_laterOf_spec (l : list SliceUpdate) :
  forall acc u,
    fold_left laterOf l acc = Some u ->
    (acc = Some u \/ In u l)
    /\ (forall b, acc = Some b -> date b <= date u)
    /\ Forall (fun x => date x <= date u) l.
Proof.
  induction l as [| x rest IH]; intros acc u; cbn [fold_left].
  - intros ->. split; [left; reflexivity |]. split; [| constructor].
    intros b [= ->]. lia.
  - intros Hfold. destruct (IH _ _ Hfold) as [Hin [Hacc Hall]].
    assert (Hx : date x <= date u /\ (forall b, acc = Some b -> date b <= date u)
                 /\ (acc = Some u \/ u = x \/ In u rest)).
    { unfold laterOf in Hin, Hacc. destruct acc as [b |].
      - destruct (Z.leb_spec (date b) (date x)).
        + specialize (Hacc x eq_refl). split; [lia |]. split; [intros ? [= <-]; lia |].
          destruct Hin as [[= ->] | Hin]; auto.
        + specialize (Hacc b eq_refl). split; [lia |]. split; [intros ? [= <-]; lia |].
          destruct Hin as [[= ->] | Hin]; auto.
      - specialize (Hacc x eq_refl). split; [lia |]. split; [discriminate |].
        destruct Hin as [[= ->] | Hin]; auto. }
    destruct Hx as [Hdx [Hb Hu]].
    split; [destruct Hu as [? | [-> | ?]]; [left | right; left | right; right]; auto |].
    split; [exact Hb |]. constructor; assumption.
Qed.

(** The latest update of a slice is one of its rows, and none of its rows
    is later. *)
Lemma latestUpdate_spec (sliceId : string) (rows : list SliceUpdate) (u : SliceUpdate) :
  latestUpdate sliceId rows = Some u ->
  u_sliceId u = sliceId /\ In u rows
  /\ forall x, In x rows -> u_sliceId x = sliceId -> date x <= date u.
Proof.
  unfold latestUpdate. intros Hfold.
  destruct (fold_laterOf_spec _ _ _ Hfold) as [[Hnone | Hin] [_ Hall]]; [discriminate |].
  apply list_elem_of_In, list_elem_of_filter in Hin. destruct Hin as [Hsid Hin].
  split; [exact Hsid |]. split; [apply list_elem_of_In, Hin |].
  intros x Hx Hxs. rewrite Forall_forall in Hall. apply Hall.
  apply list_elem_of_filter. split; [exact Hxs | apply list_elem_of_In, Hx].
Qed.

(** A new row that is not earlier than the rows before it is the first
    row of every query by descending date that selects it. *)
Lemma findFirst_app_last (P : SliceUpdate -> Prop) `{!forall x, Decision (P x)}
    (rows : list SliceUpdate) (row : SliceUpdate) :
  P row ->
  Forall (fun x => date x <= date row) rows ->
  fold_left laterOf (filter P (rows ++ [row])%list) None = Some row.
Proof.
  intros HP Hall.
  rewrite filter_app, fold_left_app.
  rewrite (filter_cons_True _ row []) by exact HP. rewrite filter_nil. cbn [fold_left].
  destruct (fold_left laterOf _ None) as [b |] eqn:Hfold; [| reflexivity].
  destruct (fold_laterOf_spec _ _ _ Hfold) as [[Hnone | Hin] _]; [discriminate |].
  apply list_elem_of_In, list_elem_of_filter in Hin. destruct Hin as [_ Hin].
  rewrite Forall_forall in Hall. specialize (Hall b Hin).
  unfold laterOf. destruct (Z.leb_spec (date b) (date row)); [reflexivity | lia].
Qed.

Lemma latestUpdate_app_last (sliceId : string) (rows : list SliceUpdate) (row : SliceUpdate) :
  u_sliceId row = sliceId ->
  Forall (fun x => date x <= date row) rows ->
  latestUpdate sliceId (rows ++ [row]) = Some row.
Proof. intros Hsid Hall. unfold latestUpdate. apply findFirst_app_last; assumption. Qed.

Section Sweeps.
Context {ML : MathLib}.



Lemma updateBySteps_appends (sliceId : string) (steps : Z) (notes : option string)
    (auto : option bool) (w w' : World) (updated : Slice) :
  updateBySteps sliceId steps notes auto w = (Ok updated, w') ->
  clock w' = clock w /\ tzOffset w' = tzOffset w
  /\ exists row, sliceUpdates w' = (sliceUpdates w ++ [row])%list
                 /\ u_sliceId row = sliceId /\ date row = clock w
                 /\ automatic row = nullish auto false.
Proof.
  intros Hrun. destruct (slices w !! sliceId) as [slice |] eqn:Hs.
  - destruct (isComposite slice) eqn:Hc.
    + unfold updateBySteps in Hrun. rewrite bind_run, (findOne_run _ _ _ Hs), Hc in Hrun.
      discriminate Hrun.
    + rewrite (updateBySteps_run w sliceId steps notes auto slice Hs Hc) in Hrun.
      unfold auditThenMutate in Hrun.
      destruct (faultAfter w) as [[| [| n]] |]; try discriminate Hrun;
        injection Hrun as _ <-; (split; [reflexivity |]); (split; [reflexivity |]);
        eexists; (split; [reflexivity |]); repeat split.
  - destruct (findOne_missing sliceId w Hs) as [e He].
    unfold updateBySteps in Hrun. rewrite bind_run, He in Hrun. discriminate Hrun.
Qed.

(** After a penalty the interval starts anew from the row just written. *)
Lemma evaluateContinuousSlice_after_penalty (slice : Slice) (w w1 : World) (delta : Z)
    (notes : option string) (updated : Slice) :
  updateBySteps (id slice) delta notes (Some true) w = (Ok updated, w1) ->
  Forall (fun x => date x <= clock w) (sliceUpdates w) ->
  0 <= maxInterval slice ->
  evaluateContinuousSlice slice (takeLatest (id slice) (sliceUpdates w1)) (clock w1) w1
  = (Ok tt, w1).
Proof.
  intros Hsteps Hpast Hinterval.
  destruct (updateBySteps_appends _ _ _ _ _ _ _ Hsteps)
    as [Hclock [_ [row [Hrows [Hsid [Hdate _]]]]]].
  unfold takeLatest.
  rewrite Hrows, (latestUpdate_app_last (id slice) _ row Hsid)
    by (rewrite Hdate; exact Hpast).
  unfold evaluateContinuousSlice. rewrite Hdate, Hclock.
  unfold minutesElapsed. rewrite Z.sub_diag, Z.div_0_l by (unfold msPerMinute; lia).
  destruct (Z.leb_spec 0 (maxInterval slice)); [reflexivity | lia].
Qed.

(** X21. The continuous sweep does not repeat itself at an instant: when
    the evaluation of a slice has gone through, the same evaluation on
    the store it left, at the same time, changes nothing.  If it applied a
    penalty, the penalty row is now the latest update of the slice and
    the interval starts anew from it.  (No row of the history is dated
    after the clock, and the interval is not negative.) *)
Theorem continuous_sweep_second_run_noop (slice : Slice) (w w1 : World) (i v : Z) :
  evaluateContinuousSlice slice (takeLatest (id slice) (sliceUpdates w)) (clock w) w
  = (Ok tt, w1) ->
  Forall (fun x => date x <= clock w) (sliceUpdates w) ->
  0 <= maxInterval slice ->
  evaluateContinuousSlice (setIndexValue i v slice)
    (takeLatest (id slice) (sliceUpdates w1)) (clock w1) w1
  = (Ok tt, w1).
Proof.
  intros Hrun Hpast Hinterval.
  change (evaluateContinuousSlice (setIndexValue i v slice))
    with (evaluateContinuousSlice slice).
  pose proof Hrun as Hrun0.
  unfold evaluateContinuousSlice, sliceUpdate_count, gets, ret, bind in Hrun.
  run_cases Hrun;
    try (injection Hrun as <-;
         try match goal with H : takeLatest _ _ = _ |- _ => rewrite H end;
         exact Hrun0).
  all: injection Hrun as ->; eapply evaluateContinuousSlice_after_penalty;
    [eassumption | exact Hpast | exact Hinterval].
Qed.

End Sweeps.

(** ** Days, deadlines and elapsed time *)

(** X22. The day of an instant in the local time zone.  [getStartOfDay]
    and [getEndOfDay] enclose the instant, one millisecond less than a day
    apart; the start of a day is its own start of day; two instants are
    on the same day exactly when their days start together; and the day
    ends with [getEndOfDay]: that instant is still on the day, the next
    millisecond is not. *)
Theorem day_boundaries (tz d d' : Z) :
  getStartOfDay tz d <= d <= getEndOfDay tz d
  /\ getEndOfDay tz d = getStartOfDay tz d + msPerDay - 1
  /\ getStartOfDay tz (getStartOfDay tz d) = getStartOfDay tz d
  /\ (isSameDay tz d d' = true <-> getStartOfDay tz d = getStartOfDay tz d')
  /\ isSameDay tz d (getEndOfDay tz d) = true
  /\ isSameDay tz d (getEndOfDay tz d + 1) = false.
Proof.
  unfold getEndOfDay, getStartOfDay, isSameDay. change msPerDay with 86400000.
  split; [Z.to_euclidean_division_equations; lia |]. split; [lia |].
  split; [Z.to_euclidean_division_equations; lia |].
  split; [rewrite Z.eqb_eq; Z.to_euclidean_division_equations; lia |].
  split; [apply Z.eqb_eq | apply Z.eqb_neq]; Z.to_euclidean_division_equations; lia.
Qed.

(** X23. [formatTimeSince] by the elapsed milliseconds: days from one
    day on, hours from one hour on, minutes from one minute on, each
    rounded down, and "just now" below a minute, also for a date in the
    future.  The nested roundings of the code (seconds, then minutes, then
    hours, then days) lose nothing against one division. *)
Theorem formatTimeSince_thresholds (date : Z) (w : World) :
  let diff := clock w - date in
  formatTimeSince date w
  = (Ok (if 86400000 <=? diff then str [num (diff / 86400000); "d ago"]
         else if 3600000 <=? diff then str [num (diff / 3600000); "h ago"]
         else if 60000 <=? diff then str [num (diff / 60000); "m ago"]
         else "just now"), w).
Proof.
  cbv zeta. unfold formatTimeSince, gets. rewrite bind_run.
  set (diff := clock w - date).
  assert (Hd : diff / 1000 / 60 / 60 / 24 = diff / 86400000)
    by (Z.to_euclidean_division_equations; lia).
  assert (Hh : diff / 1000 / 60 / 60 = diff / 3600000)
    by (Z.to_euclidean_division_equations; lia).
  assert (Hm : diff / 1000 / 60 = diff / 60000)
    by (Z.to_euclidean_division_equations; lia).
  rewrite Hd, Hh, Hm.
  destruct (Z.gtb_spec (diff / 86400000) 0), (Z.leb_spec 86400000 diff);
    try (exfalso; Z.to_euclidean_division_equations; lia); [reflexivity |].
  destruct (Z.gtb_spec (diff / 3600000) 0), (Z.leb_spec 3600000 diff);
    try (exfalso; Z.to_euclidean_division_equations; lia); [reflexivity |].
  destruct (Z.gtb_spec (diff / 60000) 0), (Z.leb_spec 60000 diff);
    try (exfalso; Z.to_euclidean_division_equations; lia); reflexivity.
Qed.

Section ScheduledNoOps.
Context {ML : MathLib}.

(** X24. When the scheduled evaluation does nothing.  With a manual
    update of today as the latest update of the slice it returns at once.
    Otherwise a slice without [expectedTime] raises a TypeError; with a
    time of day of hours and minutes in decimal digits nothing is applied
    up to the deadline (the time of day plus the grace period), and
    nothing during the first penalty interval after it; a time of day
    without a colon has no minutes, and never counts as past.  In each
    of these cases the store is untouched. *)
Theorem evaluateScheduledSlice_noop (slice : Slice) (updates : list SliceUpdate)
    (now today : Z) (w : World) :
  let reported :=
    match updates with
    | [] => false
    | u :: _ => negb (automatic u) && isSameDay (tzOffset w) (date u) now
    end in
  (reported = true -> evaluateScheduledSlice slice updates now today w = (Ok tt, w))
  /\ (reported = false ->
      expectedTime slice = None ->
      evaluateScheduledSlice slice updates now today w
      = (Throw (TypeError "Cannot read properties of null (reading 'split')"), w))
  /\ (forall timeString part,
        reported = false ->
        expectedTime slice = Some timeString ->
        splitColon EmptyString timeString = [part] ->
        evaluateScheduledSlice slice updates now today w = (Ok tt, w))
  /\ (forall timeString hours minutes,
        reported = false ->
        expectedTime slice = Some timeString ->
        parseTime timeString = Some (hours, minutes) ->
        let deadline :=
          getStartOfDay (tzOffset w) (clock w) + hours * 3600000 + minutes * 60000
          + orZero (gracePeriod slice) * 60000 in
        clock w <= deadline
        \/ (0 < penaltyInterval slice
            /\ clock w < deadline + penaltyInterval slice * 60000) ->
        evaluateScheduledSlice slice updates now today w = (Ok tt, w)).
Proof.
  cbv zeta. unfold evaluateScheduledSlice, isPastScheduledTime, gets, bind, ret, throw.
  cbv beta iota.
  split; [| split; [| split]].
  - intros Hreported. rewrite Hreported. reflexivity.
  - intros Hreported Htime. rewrite Hreported, Htime. reflexivity.
  - intros timeString part Hreported Htime Hsplit.
    rewrite Hreported, Htime. unfold parseTime. rewrite Hsplit. reflexivity.
  - intros timeString hours minutes Hreported Htime Hparse Hearly.
    rewrite Hreported, Htime, Hparse. cbv beta iota.
    set (deadline := getStartOfDay (tzOffset w) (clock w) + hours * 3600000
                     + minutes * 60000 + orZero (gracePeriod slice) * 60 * 1000).
    assert (Hd : getStartOfDay (tzOffset w) (clock w) + hours * 3600000 + minutes * 60000
                 + orZero (gracePeriod slice) * 60000 = deadline) by (unfold deadline; lia).
    rewrite Hd in Hearly.
    destruct (Z.gtb_spec (clock w) deadline) as [Hpast | Hnot]; [| reflexivity].
    cbn [negb]. destruct Hearly as [? | [Hinterval Hfirst]]; [lia |].
    assert (Hlate : 0 <= minutesElapsed deadline (clock w) < penaltyInterval slice).
    { unfold minutesElapsed, msPerMinute. split.
      - apply Z.div_pos; lia.
      - apply Z.div_lt_upper_bound; lia. }
    rewrite Z.max_r by lia. rewrite Z.div_small by lia. reflexivity.
Qed.

End ScheduledNoOps.

(** ** The temporal service *)

Section TemporalService.
Context {ML : MathLib}.
Import SliceTemporalService.

(** After a penalty the row just written stops the evaluation. *)
Lemma processScheduledSlice_after_penalty (slice : Slice) (w w1 : World) (delta : Z)
    (notes : option string) (updated : Slice) :
  updateBySteps (id slice) delta notes (Some true) w = (Ok updated, w1) ->
  Forall (fun x => date x <= clock w) (sliceUpdates w) ->
  (forall timeString, expectedTime slice = Some timeString -> parseTime timeString <> None) ->
  processScheduledSlice slice (takeLatest (id slice) (sliceUpdates w1)) (clock w1) w1
  = (Ok tt, w1).
Proof.
  intros Hsteps Hpast Hparse.
  destruct (updateBySteps_appends _ _ _ _ _ _ _ Hsteps)
    as [Hclock [Htz [row [Hrows [Hsid [Hdate Hauto]]]]]].
  cbn [nullish] in Hauto. rewrite <- Hclock in Hdate, Hpast.
  assert (Hlast : forall deadline,
             (clock w1 <? deadline) = false ->
             fold_left laterOf
               (filter (fun u => (bool_decide (u_sliceId u = id slice) && automatic u
                                  && (deadline <=? date u)) = true) (sliceUpdates w1)) None
             = Some row).
  { intros deadline Hdeadline. rewrite Hrows. apply findFirst_app_last.
    - apply andb_true_iff. split; [apply andb_true_iff; split |].
      + apply bool_decide_eq_true. exact Hsid.
      + exact Hauto.
      + rewrite Hdate. apply Z.leb_le. apply Z.ltb_ge in Hdeadline. exact Hdeadline.
    - rewrite Hdate. exact Hpast. }
  unfold takeLatest at 1.
  rewrite Hrows, (latestUpdate_app_last (id slice) _ row Hsid)
    by (rewrite Hdate; exact Hpast).
  destruct (processScheduledSlice slice [row] (clock w1) w1) as [r2 w2] eqn:Hrun2.
  unfold processScheduledSlice, sliceUpdate_findFirst, gets, ret, throw, bind in Hrun2.
  run_cases Hrun2; try (injection Hrun2 as <- <-; reflexivity); exfalso.
  all: try match goal with
           | Hp : parseTime ?s = None |- _ => exact (Hparse s eq_refl Hp)
           end.
  all: match goal with
       | Hd : (clock _ <? ?d) = false, H : fold_left laterOf _ None = _ |- _ =>
           rewrite (Hlast d Hd) in H; try discriminate H; injection H as <-
       end.
  all: match goal with
       | H : (_ - (_ + 1) <=? 0) = false |- _ => apply Z.leb_gt in H; rewrite Hdate in H; lia
       end.
Qed.

(** X25. The scheduled sweep of the temporal service does not repeat
    itself at an instant: when [processScheduledSlice] has gone through
    for a slice, the same call on the store it left, at the same time,
    changes nothing.  If it applied penalties, the row it wrote is the
    latest update of the slice: either that row counts as the update of
    the day, or, taken as the last penalty, it accounts for one penalty
    more than are due.  (No row of the history is dated after the
    clock.) *)
Theorem processScheduledSlice_second_run_noop (slice : Slice) (w w1 : World) (i v : Z) :
  processScheduledSlice slice (takeLatest (id slice) (sliceUpdates w)) (clock w) w
  = (Ok tt, w1) ->
  Forall (fun x => date x <= clock w) (sliceUpdates w) ->
  processScheduledSlice (setIndexValue i v slice)
    (takeLatest (id slice) (sliceUpdates w1)) (clock w1) w1
  = (Ok tt, w1).
Proof.
  intros Hrun Hpast.
  change (processScheduledSlice (setIndexValue i v slice))
    with (processScheduledSlice slice).
  pose proof Hrun as Hrun0.
  unfold processScheduledSlice, sliceUpdate_findFirst, gets, ret, throw, bind in Hrun.
  run_cases Hrun; try (injection Hrun as <-; exact Hrun0).
  all: injection Hrun as ->; eapply processScheduledSlice_after_penalty;
    [eassumption | exact Hpast | intros ts Hts; congruence].
Qed.

(** After a penalty the interval starts anew from the row just written. *)
Lemma processContinuousSlice_after_penalty (slice : Slice) (w w1 : World) (delta : Z)
    (notes : option string) (updated : Slice) :
  updateBySteps (id slice) delta notes (Some true) w = (Ok updated, w1) ->
  Forall (fun x => date x <= clock w) (sliceUpdates w) ->
  0 <= maxInterval slice ->
  processContinuousSlice slice (takeLatest (id slice) (sliceUpdates w1)) (clock w1) w1
  = (Ok tt, w1).
Proof.
  intros Hsteps Hpast Hinterval.
  destruct (updateBySteps_appends _ _ _ _ _ _ _ Hsteps)
    as [Hclock [_ [row [Hrows [Hsid [Hdate _]]]]]].
  unfold takeLatest.
  rewrite Hrows, (latestUpdate_app_last (id slice) _ row Hsid)
    by (rewrite Hdate; exact Hpast).
  unfold processContinuousSlice. cbn [head]. rewrite Hdate, Hclock, Z.sub_diag.
  destruct (Z.eqb_spec (maxInterval slice) 0) as [_ | Hne]; [reflexivity |].
  cbn [orb]. destruct (_ || _); [reflexivity |].
  destruct (Z.ltb_spec 0 (maxInterval slice * 60 * 1000)); [reflexivity | lia].
Qed.

(** X26. The continuous sweep of the temporal service does not repeat
    itself at an instant either: after a penalty the row just written is
    the latest update of the slice, and no time has passed since.  (No
    row of the history is dated after the clock, and the interval is not
    negative.) *)
Theorem processContinuousSlice_second_run_noop (slice : Slice) (w w1 : World) (i v : Z) :
  processContinuousSlice slice (takeLatest (id slice) (sliceUpdates w)) (clock w) w
  = (Ok tt, w1) ->
  Forall (fun x => date x <= clock w) (sliceUpdates w) ->
  0 <= maxInterval slice ->
  processContinuousSlice (setIndexValue i v slice)
    (takeLatest (id slice) (sliceUpdates w1)) (clock w1) w1
  = (Ok tt, w1).
Proof.
  intros Hrun Hpast Hinterval.
  change (processContinuousSlice (setIndexValue i v slice))
    with (processContinuousSlice slice).
  pose proof Hrun as Hrun0.
  unfold processContinuousSlice, sliceUpdate_findFirst, gets, ret, throw, bind in Hrun.
  run_cases Hrun; try (injection Hrun as <-; exact Hrun0).
  all: injection Hrun as ->; eapply processContinuousSlice_after_penalty;
    [eassumption | exact Hpast | exact Hinterval].
Qed.

(** X27. In the continuous sweep of the temporal service the penalties
    already applied are never deducted.  The last penalty is looked up
    without regard to its date, and it cannot be later than the latest
    update of the slice, from which the deadline is counted: so the
    number computed from it is at most 0, and an old penalty makes it
    negative.  Whenever the sweep applies penalties it applies at least
    as many as are due since the deadline. *)
Theorem processContinuousSlice_never_deducts (slice : Slice) (now : Z) (w w1 : World)
    (r : Result unit) :
  processContinuousSlice slice (takeLatest (id slice) (sliceUpdates w)) now w = (r, w1) ->
  0 < maxInterval slice ->
  0 < penaltyInterval slice ->
  (r = Ok tt /\ w1 = w)
  \/ exists lastUpdate penalties notes,
       latestUpdate (id slice) (sliceUpdates w) = Some lastUpdate
       /\ 0 < (now - date lastUpdate - maxInterval slice * 60 * 1000)
               / (penaltyInterval slice * 60 * 1000) <= penalties
       /\ (let! _ := updateBySteps (id slice) (penaltyAmount slice * penalties) notes
                       (Some true) in
           ret tt) w = (r, w1).
Proof.
  intros Hrun Hmax Hint. unfold processContinuousSlice, takeLatest in Hrun.
  destruct (_ || _); [left; injection Hrun as <- <-; auto |].
  destruct (latestUpdate (id slice) (sliceUpdates w)) as [lastUpdate |] eqn:Hlatest;
    cbn [head] in Hrun; [| left; injection Hrun as <- <-; auto].
  destruct (_ <? _); [left; injection Hrun as <- <-; auto |].
  destruct (Z.leb_spec ((now - date lastUpdate - maxInterval slice * 60 * 1000)
                        / (penaltyInterval slice * 60 * 1000)) 0) as [? | Hdue];
    [left; injection Hrun as <- <-; auto |].
  unfold sliceUpdate_findFirst, gets in Hrun. rewrite bind_run in Hrun.
  match type of Hrun with
  | context [fold_left laterOf ?l None] =>
      destruct (fold_left laterOf l None) as [lastPenalty |] eqn:Hpenalty
  end.
  - assert (Hold : (date lastPenalty - (date lastUpdate + maxInterval slice * 60 * 1000))
                   / (penaltyInterval slice * 60 * 1000) + 1 <= 0).
    { destruct (fold_laterOf_spec _ _ _ Hpenalty) as [[Hnone | Hin] _]; [discriminate |].
      apply list_elem_of_In, list_elem_of_filter in Hin. destruct Hin as [Hp Hin].
      apply andb_true_iff in Hp as [Hsid _]. apply bool_decide_eq_true in Hsid.
      destruct (latestUpdate_spec _ _ _ Hlatest) as [_ [_ Hmaxdate]].
      specialize (Hmaxdate lastPenalty (proj1 (list_elem_of_In _ _) Hin) Hsid).
      assert ((date lastPenalty - (date lastUpdate + maxInterval slice * 60 * 1000))
              / (penaltyInterval slice * 60 * 1000) < 0)
        by (apply Z.div_lt_upper_bound; lia).
      lia. }
    match type of Hrun with
    | context [if ?c <=? 0 then _ else _] => destruct (Z.leb_spec c 0) as [? | _]; [lia |]
    end.
    right. eexists lastUpdate, _, _. split; [reflexivity |]. split; [| exact Hrun]. lia.
  - rewrite Z.sub_0_r in Hrun.
    match type of Hrun with
    | context [if ?c <=? 0 then _ else _] => destruct (Z.leb_spec c 0) as [? | _]; [lia |]
    end.
    right. eexists lastUpdate, _, _. split; [reflexivity |]. split; [| exact Hrun]. lia.
Qed.

End TemporalService.

(** ** The two recomputations of a composite value *)

(** What the decay scheduler writes as the value of a composite slice:
    the floored weighted mean of the stored values. *)
Lemma recalculateCompositeValue_run (slice : Slice) (w : World) :
  let cs := filter (fun c => c_sliceId c = id slice) (components w) in
  cs <> [] ->
  recalculateCompositeValue slice w
  = (let! _ := slice_update (id slice)
                 (setValue (if sumZ (map weight cs) >? 0
                            then Qfloor (sumQ (map (fun c => inject_Z (c_currentValue c)
                                                             * inject_Z (weight c)) cs)
                                         / inject_Z (sumZ (map weight cs)))%Q
                            else 0)) in
     ret tt) w.
Proof.
  cbv zeta. intros Hne. unfold recalculateCompositeValue, sliceComponent_findMany, gets.
  rewrite bind_run.
  set (cs := filter (fun c => c_sliceId c = id slice) (components w)) in *.
  destruct cs as [| c0 rest] eqn:Hcs; [contradiction |]. rewrite <- Hcs.
  replace (length cs =? 0)%nat with false by (rewrite Hcs; reflexivity).
  destruct (accumulate_fold (fun c => inject_Z (c_currentValue c)) cs 0%Q 0) as [Hq Hz].
  destruct (fold_left _ cs (0%Q, 0)) as [weightedSum totalWeight].
  cbn [fst snd] in Hq, Hz. rewrite Z.add_0_l in Hz. rewrite Hz.
  destruct (sumZ (map weight cs) >? 0); [| reflexivity].
  unfold Math_floor.
  rewrite (Qfloor_comp (weightedSum * 100 / inject_Z (sumZ (map weight cs)))%Q
             (sumQ (map (fun c => inject_Z (c_currentValue c) * inject_Z (weight c)) cs)
              / inject_Z (sumZ (map weight cs)))%Q); [reflexivity |].
  rewrite Hq, Qplus_0_l, weighted_sum_scale. reflexivity.
Qed.

(** X28. The composite value of the service is never above the one the
    decay scheduler stores.  The scheduler writes the floored weighted
    mean of the stored component values; [calculateCompositeValue]
    decays the stored values once more, by the time since [lastChecked],
    before it takes the mean.  (Weights and rates are not negative, no
    check-off is in the future, no value is negative, and the slice has
    components.) *)
Theorem service_value_below_scheduler_value (slice stored : Slice) (w : World) :
  isComposite slice = true ->
  slices w !! id slice = Some stored ->
  faultAfter w = None ->
  filter (fun c => c_sliceId c = id slice) (components w) <> [] ->
  Forall (fun c => 0 <= weight c /\ 0 <= c_currentValue c /\ (0 <= decayRate c)%Q
                   /\ forall t, lastChecked c = Some t -> t <= clock w)
    (filter (fun c => c_sliceId c = id slice) (components w)) ->
  exists serviceValue schedulerValue,
    calculateCompositeValue slice w = (Ok serviceValue, w)
    /\ recalculateCompositeValue slice w
       = (Ok tt, setSlices (<[id slice := setValue schedulerValue stored]> (slices w)) w)
    /\ serviceValue <= schedulerValue.
Proof.
  intros Hc Hs Hf Hne Hall.
  rewrite (calculateCompositeValue_run slice w Hc),
    (recalculateCompositeValue_run slice w Hne). cbv zeta.
  set (cs := filter (fun c => c_sliceId c = id slice) (components w)) in *.
  eexists _, _. split; [reflexivity |]. split.
  - unfold slice_update, slice_findUnique, persist, gets, ret, bind. rewrite Hs, Hf.
    reflexivity.
  - assert (Hw : 0 <= sumZ (map weight cs))
      by (apply sumZ_weights_nonneg; eapply Forall_impl; [exact Hall |]; cbn; tauto).
    destruct (Z.eqb_spec (sumZ (map weight cs)) 0) as [Hzero | Hnz].
    + rewrite Hzero. reflexivity.
    + destruct (Z.gtb_spec (sumZ (map weight cs)) 0) as [Hpos | ?]; [| lia].
      apply Qfloor_resp_le.
      assert (Hpos' : (0 < inject_Z (sumZ (map weight cs)))%Q)
        by (change 0%Q with (inject_Z 0); rewrite <- Zlt_Qlt; exact Hpos).
      apply Qle_shift_div_l; [exact Hpos' |].
      unfold Qdiv. rewrite <- Qmult_assoc, (Qmult_comm (/ _)), Qmult_inv_r, Qmult_1_r.
      * apply weighted_sum_mono.
        eapply Forall_impl; [exact Hall |]. intros c [Hwc [Hv [Hrate Hchecked]]].
        split; [exact Hwc |]. apply (applyDecay_bounds c (clock w) Hv Hrate Hchecked).
      * intros Hz. rewrite Hz in Hpos'. discriminate Hpos'.
Qed.

(** ** The daily reset *)



(** * Instances of the further properties *)

Section MoreInstances.
Import Examples.
#[local] Existing Instance refMath.

Lemma linearSearchIndex_first_closest_witness :
  exists r, linearSearchIndex (linear (-1) 10) 7 20 = Ok r
            /\ 0 <= r <= Z.max 0 20
            /\ (forall k, 0 <= k <= 20 ->
                  Z.abs (valueAt (linear (-1) 10) r - 7)
                  <= Z.abs (valueAt (linear (-1) 10) k - 7))
            /\ (forall k, 0 <= k < r ->
                  Z.abs (valueAt (linear (-1) 10) r - 7)
                  < Z.abs (valueAt (linear (-1) 10) k - 7)).
Proof. apply (linearSearchIndex_first_closest (linear (-1) 10) 7 20). Defined.

Lemma binarySearchIndex_closest_witness :
  exists r, binarySearchIndex (linear 5 0) 7 0 10 = Ok r
            /\ 0 <= r <= 10
            /\ forall k, 0 <= k <= 10 ->
                 Z.abs (valueAt (linear 5 0) r - 7) <= Z.abs (valueAt (linear 5 0) k - 7).
Proof.
  apply (binarySearchIndex_closest (linear 5 0) 7 0 10); [lia |].
  intros i j Hi Hij Hj. apply (linear_nondecreasing (linear 5 0) 10); [reflexivity .. | | |]; lia.
Defined.

Lemma findClosestIndex_closest_witness :
  exists r, findClosestIndex (linear 5 0) 7 (Some 1000) = Ok r
            /\ 0 <= r <= 1000
            /\ forall k, 0 <= k <= 1000 ->
                 Z.abs (valueAt (linear 5 0) r - 7) <= Z.abs (valueAt (linear 5 0) k - 7).
Proof.
  apply (findClosestIndex_closest (linear 5 0) 7 1000 true); [lia | lia | reflexivity |].
  intros _. left. reflexivity.
Defined.

Lemma value_updates_fail_on_null_params_witness :
  updateToValue "4" 5 None journalWorld
  = (Throw (TypeError "Cannot read properties of null (reading 'multiplier')"),
     journalWorld)
  /\ updateByPercentage "4" 50 None journalWorld
     = (Throw (TypeError "Cannot read properties of null (reading 'multiplier')"),
        journalWorld).
Proof.
  destruct (value_updates_fail_on_null_params journalWorld "4" journal None
              eq_refl eq_refl) as [Habsolute Hpercentage].
  split.
  - apply (Habsolute 5); [lia | reflexivity | left; reflexivity].
  - apply (Hpercentage 50); [lia | reflexivity | reflexivity | left; reflexivity].
Defined.

Lemma update_rejections_leave_store_witness :
  updateToValue "9" (-1) None gymWorld
  = (Throw (NotFoundException "Slice with ID 9 not found"), gymWorld)
  /\ updateBySteps "3" 1 None None hygieneWorld
     = (Throw (BadRequestException
          "Cannot update composite slices with steps. Use component updates instead."),
        hygieneWorld)
  /\ updateToValue "1" (-1) None gymWorld
     = (Throw (BadRequestException "Value cannot be negative"), gymWorld).
Proof.
  split; [| split].
  - apply (proj1 (update_rejections_leave_store gymWorld "9") eq_refl (-1) None None).
  - apply (proj1 (proj2 (update_rejections_leave_store hygieneWorld "3")) hygiene
             eq_refl eq_refl 1 None None).
  - apply (proj2 (proj2 (update_rejections_leave_store gymWorld "1")) gym
             eq_refl eq_refl (-1) None). lia.
Defined.

Lemma updateBySteps_same_direction_composes_witness :
  slices (snd (updateBySteps "1" 3 None None (snd (updateBySteps "1" 2 None None gymWorld))))
  = slices (snd (updateBySteps "1" (2 + 3) None None gymWorld)).
Proof.
  apply (updateBySteps_same_direction_composes gymWorld "1" gym 2 3 None None None
           None None None eq_refl eq_refl eq_refl).
  - vm_compute. split; discriminate.
  - left. lia.
Defined.



Lemma component_updates_reject_before_writing_witness :
  updateComponent "9" "teeth" None None hygieneWorld
  = (Throw (NotFoundException "Slice with ID 9 not found"), hygieneWorld)
  /\ updateMultipleComponents "1" ["teeth"] None gymWorld
     = (Throw (BadRequestException "Slice is not a composite slice"), gymWorld)
  /\ updateComponent "3" "soap" None None hygieneWorld
     = (Throw (NotFoundException "Component soap not found in slice hyg"), hygieneWorld)
  /\ updateComponent "3" "teeth" (Some 101) None hygieneWorld
     = (Throw (BadRequestException "Value must be between 0 and 100"), hygieneWorld).
Proof.
  split; [| split; [| split]].
  - apply (proj1 (component_updates_reject_before_writing hygieneWorld "9" None)
             eq_refl "teeth" None []).
  - apply (proj1 (proj2 (component_updates_reject_before_writing gymWorld "1" None))
             gym eq_refl eq_refl "teeth" None ["teeth"]).
  - apply (proj1 (proj2 (proj2 (component_updates_reject_before_writing hygieneWorld "3"
                                  None)))
             hygiene "soap" None eq_refl eq_refl eq_refl).
  - apply (proj2 (proj2 (proj2 (component_updates_reject_before_writing hygieneWorld "3"
                                  None)))
             hygiene "teeth" (Some 101) teeth eq_refl eq_refl eq_refl).
    right. vm_compute. reflexivity.
Defined.

Lemma calculateCompositeValue_bounds_witness :
  exists v, calculateCompositeValue hygiene staleHygieneWorld = (Ok v, staleHygieneWorld)
            /\ 0 <= v <= 100.
Proof.
  apply (calculateCompositeValue_bounds hygiene staleHygieneWorld 100 eq_refl); [lia |].
  repeat (constructor;
          [ split; [vm_compute; discriminate |];
            split; [split; vm_compute; discriminate |];
            split; [vm_compute; discriminate | intros t [= <-]; vm_compute; discriminate]
          |]).
  constructor.
Defined.

Lemma updateMultipleComponents_skips_unknown_keys_witness :
  updateMultipleComponents "3" ["soap"; "towel"] None hygieneWorld
  = (let! compositeValue := calculateCompositeValue hygiene in
     slice_update "3" (setValue compositeValue)) hygieneWorld
  /\ components (snd (updateMultipleComponents "3" ["soap"; "towel"] None hygieneWorld))
     = components hygieneWorld
  /\ componentUpdates (snd (updateMultipleComponents "3" ["soap"; "towel"] None hygieneWorld))
     = componentUpdates hygieneWorld.
Proof.
  apply (updateMultipleComponents_skips_unknown_keys hygieneWorld "3" hygiene
           ["soap"; "towel"] None eq_refl eq_refl).
  repeat (constructor; [vm_compute; reflexivity |]). constructor.
Defined.

Lemma status_after_check_off_witness :
  exists component decayedValue,
    findByKey "teeth" (filter (fun c => c_sliceId c = "3") (components hygieneWorld))
    = Some component
    /\ getComponentStatus "3" "teeth"
         (snd (updateComponent "3" "teeth" (Some 40) None hygieneWorld))
       = (Ok (setComponentChecked (nullish (Some 40) (maxValue component))
                (clock hygieneWorld) component, decayedValue),
          snd (updateComponent "3" "teeth" (Some 40) None hygieneWorld))
    /\ (decayedValue == inject_Z (nullish (Some 40%Z) (maxValue component)))%Q
    /\ 0 <= nullish (Some 40) (maxValue component) <= maxValue component.
Proof.
  apply (status_after_check_off "3" "teeth" (Some 40) None hygieneWorld
           (snd (updateComponent "3" "teeth" (Some 40) None hygieneWorld))
           (setValue 85 hygiene)).
  vm_compute. reflexivity.
Defined.

Lemma recalculateAllCompositeSlices_frame_witness :
  fst (recalculateAllCompositeSlices staleHygieneWorld) = Ok tt
  /\ components (snd (recalculateAllCompositeSlices staleHygieneWorld))
     = components staleHygieneWorld
  /\ sliceUpdates (snd (recalculateAllCompositeSlices staleHygieneWorld))
     = sliceUpdates staleHygieneWorld
  /\ componentUpdates (snd (recalculateAllCompositeSlices staleHygieneWorld))
     = componentUpdates staleHygieneWorld
  /\ clock (snd (recalculateAllCompositeSlices staleHygieneWorld)) = clock staleHygieneWorld
  /\ setValue 0 <$> slices (snd (recalculateAllCompositeSlices staleHygieneWorld))
     = setValue 0 <$> slices staleHygieneWorld.
Proof.
  apply (recalculateAllCompositeSlices_frame staleHygieneWorld
           (snd (recalculateAllCompositeSlices staleHygieneWorld))
           (fst (recalculateAllCompositeSlices staleHygieneWorld))).
  apply surjective_pairing.
Defined.

Lemma applyCompositeDecay_noop_within_period_witness :
  applyCompositeDecay hygieneWorld = (Ok tt, hygieneWorld).
Proof.
  apply (applyCompositeDecay_noop_within_period hygieneWorld).
  repeat (constructor; [intros t [= <-]; vm_compute; reflexivity |]).
  constructor.
Defined.

Lemma decayComponent_outcomes_witness :
  (fst (decayComponent shower (clock staleHygieneWorld) staleHygieneWorld) = Ok false ->
   snd (decayComponent shower (clock staleHygieneWorld) staleHygieneWorld)
   = staleHygieneWorld)
  /\ (fst (decayComponent shower (clock staleHygieneWorld) staleHygieneWorld) = Ok true ->
      exists newValue notes,
        0 <= newValue /\ newValue <> c_currentValue shower
        /\ (0 <= c_currentValue shower -> newValue < c_currentValue shower)
        /\ components (snd (decayComponent shower (clock staleHygieneWorld)
                              staleHygieneWorld))
           = map (fun x => if String.eqb (c_id x) (c_id shower)
                           then setComponentValue newValue x else x)
               (components staleHygieneWorld)
        /\ componentUpdates (snd (decayComponent shower (clock staleHygieneWorld)
                                    staleHygieneWorld))
           = (componentUpdates staleHygieneWorld
              ++ [mkComponentUpdate (c_id shower) (c_currentValue shower) newValue
                    (clock staleHygieneWorld) notes])%list)
  /\ (forall e,
        fst (decayComponent shower (clock staleHygieneWorld) staleHygieneWorld) = Throw e ->
        componentUpdates (snd (decayComponent shower (clock staleHygieneWorld)
                                 staleHygieneWorld))
        = componentUpdates staleHygieneWorld).
Proof.
  apply (decayComponent_outcomes shower (clock staleHygieneWorld) staleHygieneWorld).
  apply surjective_pairing.
Defined.

Lemma decay_repeats_at_same_instant_witness :
  exists amount,
    0 < amount
    /\ components (snd (decayComponent shower (clock staleHygieneWorld) staleHygieneWorld))
       = map (fun x => if String.eqb (c_id x) (c_id shower)
                       then setComponentValue (Z.max 0 (c_currentValue shower - amount)) x
                       else x) (components staleHygieneWorld)
    /\ forall v w2,
         faultAfter w2 = None ->
         existsb (fun x => String.eqb (c_id x) (c_id shower)) (components w2) = true ->
         Z.max 0 (v - amount) <> v ->
         exists w3,
           decayComponent (setComponentValue v shower) (clock staleHygieneWorld) w2
           = (Ok true, w3)
           /\ components w3
              = map (fun x => if String.eqb (c_id x) (c_id shower)
                              then setComponentValue (Z.max 0 (v - amount)) x
                              else x) (components w2).
Proof.
  apply (decay_repeats_at_same_instant shower (clock staleHygieneWorld) staleHygieneWorld).
  vm_compute. reflexivity.
Defined.

Lemma decay_run_never_raises_witness :
  Forall2 (fun c c' => c_id c' = c_id c /\ 0 <= c_currentValue c' <= c_currentValue c)
    (components staleHygieneWorld)
    (components (snd (applyCompositeDecay staleHygieneWorld))).
Proof.
  apply (decay_run_never_raises staleHygieneWorld
           (snd (applyCompositeDecay staleHygieneWorld))
           (fst (applyCompositeDecay staleHygieneWorld))).
  - apply surjective_pairing.
  - apply (bool_decide_unpack _). vm_compute. exact I.
  - repeat (constructor; [vm_compute; discriminate |]). constructor.
Defined.

Lemma histories_are_append_only_witness :
  historyGrows gymWorld (snd (runOperation (OpUpdateBySteps "1" 2 None None) gymWorld))
  /\ historyGrows staleHygieneWorld (snd (applyCompositeDecay staleHygieneWorld)).
Proof.
  split.
  - apply (proj1 histories_are_append_only (OpUpdateBySteps "1" 2 None None) gymWorld
             (fst (runOperation (OpUpdateBySteps "1" 2 None None) gymWorld))
             (snd (runOperation (OpUpdateBySteps "1" 2 None None) gymWorld))).
    apply surjective_pairing.
  - apply (proj1 (proj2 (proj2 (proj2 (proj2 histories_are_append_only))))
             staleHygieneWorld
             (fst (applyCompositeDecay staleHygieneWorld))
             (snd (applyCompositeDecay staleHygieneWorld))).
    apply surjective_pairing.
Defined.

Lemma history_rows_by_writer_witness :
  appendsFlagged false gymWorld (snd (updateSlice "1" "percentage" 50 None gymWorld))
  /\ appendsFlagged true nutritionWorld (snd (checkScheduledSlices nutritionWorld))
  /\ sliceUpdates (snd (resetDailySlices hydrationWorld)) = sliceUpdates hydrationWorld.
Proof.
  split; [| split].
  - apply (proj1 history_rows_by_writer "1" "percentage" 50 None gymWorld
             (fst (updateSlice "1" "percentage" 50 None gymWorld))
             (snd (updateSlice "1" "percentage" 50 None gymWorld))).
    apply surjective_pairing.
  - apply (proj1 (proj2 history_rows_by_writer) nutritionWorld
             (fst (checkScheduledSlices nutritionWorld))
             (snd (checkScheduledSlices nutritionWorld))).
    apply surjective_pairing.
  - apply (proj1 (proj2 (proj2 (proj2 history_rows_by_writer))) hydrationWorld
             (fst (resetDailySlices hydrationWorld))
             (snd (resetDailySlices hydrationWorld))).
    apply surjective_pairing.
Defined.

Lemma continuous_sweep_second_run_noop_witness :
  evaluateContinuousSlice (setIndexValue 6 6 hydration)
    (takeLatest (id hydration)
       (sliceUpdates (snd (evaluateContinuousSlice hydration
                             (takeLatest (id hydration) (sliceUpdates hydrationWorld))
                             (clock hydrationWorld) hydrationWorld))))
    (clock (snd (evaluateContinuousSlice hydration
                   (takeLatest (id hydration) (sliceUpdates hydrationWorld))
                   (clock hydrationWorld) hydrationWorld)))
    (snd (evaluateContinuousSlice hydration
            (takeLatest (id hydration) (sliceUpdates hydrationWorld))
            (clock hydrationWorld) hydrationWorld))
  = (Ok tt,
     snd (evaluateContinuousSlice hydration
            (takeLatest (id hydration) (sliceUpdates hydrationWorld))
            (clock hydrationWorld) hydrationWorld)).
Proof.
  apply (continuous_sweep_second_run_noop hydration hydrationWorld
           (snd (evaluateContinuousSlice hydration
                   (takeLatest (id hydration) (sliceUpdates hydrationWorld))
                   (clock hydrationWorld) hydrationWorld)) 6 6).
  - vm_compute. reflexivity.
  - repeat (constructor; [vm_compute; discriminate |]). constructor.
  - vm_compute. discriminate.
Defined.


Lemma evaluateScheduledSlice_noop_witness :
  evaluateScheduledSlice nutrition [] (clock earlyNutritionWorld)
    (getStartOfDay (tzOffset earlyNutritionWorld) (clock earlyNutritionWorld))
    earlyNutritionWorld
  = (Ok tt, earlyNutritionWorld).
Proof.
  apply (proj2 (proj2 (proj2 (evaluateScheduledSlice_noop nutrition []
                                (clock earlyNutritionWorld)
                                (getStartOfDay (tzOffset earlyNutritionWorld)
                                   (clock earlyNutritionWorld))
                                earlyNutritionWorld)))
           "09:00" 9 0 eq_refl eq_refl eq_refl).
  left. vm_compute. discriminate.
Defined.

Lemma processScheduledSlice_second_run_noop_witness :
  SliceTemporalService.processScheduledSlice (setIndexValue 8 8 nutrition)
    (takeLatest (id nutrition)
       (sliceUpdates (snd (SliceTemporalService.processScheduledSlice nutrition
                             (takeLatest (id nutrition) (sliceUpdates nutritionWorld))
                             (clock nutritionWorld) nutritionWorld))))
    (clock (snd (SliceTemporalService.processScheduledSlice nutrition
                   (takeLatest (id nutrition) (sliceUpdates nutritionWorld))
                   (clock nutritionWorld) nutritionWorld)))
    (snd (SliceTemporalService.processScheduledSlice nutrition
            (takeLatest (id nutrition) (sliceUpdates nutritionWorld))
            (clock nutritionWorld) nutritionWorld))
  = (Ok tt,
     snd (SliceTemporalService.processScheduledSlice nutrition
            (takeLatest (id nutrition) (sliceUpdates nutritionWorld))
            (clock nutritionWorld) nutritionWorld)).
Proof.
  apply (processScheduledSlice_second_run_noop nutrition nutritionWorld
           (snd (SliceTemporalService.processScheduledSlice nutrition
                   (takeLatest (id nutrition) (sliceUpdates nutritionWorld))
                   (clock nutritionWorld) nutritionWorld)) 8 8).
  - vm_compute. reflexivity.
  - constructor.
Defined.

Lemma processContinuousSlice_second_run_noop_witness :
  SliceTemporalService.processContinuousSlice (setIndexValue 6 6 hydration)
    (takeLatest (id hydration)
       (sliceUpdates (snd (SliceTemporalService.processContinuousSlice hydration
                             (takeLatest (id hydration) (sliceUpdates hydrationWorld))
                             (clock hydrationWorld) hydrationWorld))))
    (clock (snd (SliceTemporalService.processContinuousSlice hydration
                   (takeLatest (id hydration) (sliceUpdates hydrationWorld))
                   (clock hydrationWorld) hydrationWorld)))
    (snd (SliceTemporalService.processContinuousSlice hydration
            (takeLatest (id hydration) (sliceUpdates hydrationWorld))
            (clock hydrationWorld) hydrationWorld))
  = (Ok tt,
     snd (SliceTemporalService.processContinuousSlice hydration
            (takeLatest (id hydration) (sliceUpdates hydrationWorld))
            (clock hydrationWorld) hydrationWorld)).
Proof.
  apply (processContinuousSlice_second_run_noop hydration hydrationWorld
           (snd (SliceTemporalService.processContinuousSlice hydration
                   (takeLatest (id hydration) (sliceUpdates hydrationWorld))
                   (clock hydrationWorld) hydrationWorld)) 6 6).
  - vm_compute. reflexivity.
  - repeat (constructor; [vm_compute; discriminate |]). constructor.
  - vm_compute. discriminate.
Defined.

Lemma processContinuousSlice_never_deducts_witness :
  (fst (SliceTemporalService.processContinuousSlice hydration
          (takeLatest (id hydration) (sliceUpdates hydrationWorld))
          (clock hydrationWorld) hydrationWorld) = Ok tt
   /\ snd (SliceTemporalService.processContinuousSlice hydration
             (takeLatest (id hydration) (sliceUpdates hydrationWorld))
             (clock hydrationWorld) hydrationWorld) = hydrationWorld)
  \/ exists lastUpdate penalties notes,
       latestUpdate (id hydration) (sliceUpdates hydrationWorld) = Some lastUpdate
       /\ 0 < (clock hydrationWorld - date lastUpdate - maxInterval hydration * 60 * 1000)
               / (penaltyInterval hydration * 60 * 1000) <= penalties
       /\ (let! _ := updateBySteps (id hydration) (penaltyAmount hydration * penalties) notes
                       (Some true) in
           ret tt) hydrationWorld
          = (fst (SliceTemporalService.processContinuousSlice hydration
                    (takeLatest (id hydration) (sliceUpdates hydrationWorld))
                    (clock hydrationWorld) hydrationWorld),
             snd (SliceTemporalService.processContinuousSlice hydration
                    (takeLatest (id hydration) (sliceUpdates hydrationWorld))
                    (clock hydrationWorld) hydrationWorld)).
Proof.
  apply (processContinuousSlice_never_deducts hydration (clock hydrationWorld)
           hydrationWorld).
  - apply surjective_pairing.
  - vm_compute. reflexivity.
  - vm_compute. reflexivity.
Defined.

Lemma service_value_below_scheduler_value_witness :
  exists serviceValue schedulerValue,
    calculateCompositeValue hygiene staleHygieneWorld = (Ok serviceValue, staleHygieneWorld)
    /\ recalculateCompositeValue hygiene staleHygieneWorld
       = (Ok tt, setSlices (<[id hygiene := setValue schedulerValue hygiene]>
                              (slices staleHygieneWorld)) staleHygieneWorld)
    /\ serviceValue <= schedulerValue.
Proof.
  apply (service_value_below_scheduler_value hygiene hygiene staleHygieneWorld
           eq_refl eq_refl eq_refl).
  - vm_compute. discriminate.
  - repeat (constructor;
            [ split; [vm_compute; discriminate |];
              split; [vm_compute; discriminate |];
              split; [vm_compute; discriminate | intros t [= <-]; vm_compute; discriminate]
            |]).
    constructor.
Defined.


End MoreInstances.
